(** * Document ingestion and analysis pipeline: a shallow embedding

    Sources embedded here:
    - [src/app/api/upload-document/route.ts]: [splitTextIntoChunks],
      [cleanText], [isValidText], [extractTextFromFile],
      [generateEmbeddings] and the upload [POST] handler;
    - [src/app/api/analyze-document/route.ts]: [analysisPrompts],
      [formatAnalysisType] and the analysis [POST] handler.

    A JavaScript string is a sequence of UTF-16 code units; none of the
    regular expressions of the sources carries the [u] flag, so they all
    work code unit by code unit.  Numbers that the sources use as indices,
    sizes and counts are integers and are modelled in [Z] or [nat]. *)

From Stdlib Require Import List Bool Arith ZArith NArith Lia String Ascii QArith.
From Stdlib Require Import DecimalString DecimalPos DecimalN Permutation.
Import ListNotations.

Close Scope Q_scope.
Set Implicit Arguments.
Set Warnings "-register-all".

(* ================================================================== *)
(** * JavaScript string primitives used by the sources                 *)
(* ================================================================== *)

Module JS.

(** One UTF-16 code unit. *)
Definition char := N.

(** A JavaScript string. *)
Definition jsstring := list char.

(** A source literal written with ASCII characters only. *)
Definition lit (s : string) : jsstring :=
  List.map N_of_ascii (list_ascii_of_string s).

Definition SPACE : char := 32%N.
Definition DOT : char := 46%N.
Definition LF : char := 10%N.

Definition between (lo hi c : N) : bool := ((lo <=? c) && (c <=? hi))%N.

(** ECMAScript WhiteSpace and LineTerminator code points: the class [\s]
    of a regular expression and the characters removed by
    [String.prototype.trim]. *)
Definition isWhiteSpace (c : char) : bool :=
  between 9 13 c            (* TAB LF VT FF CR *)
  || (c =? 32)%N            (* SPACE *)
  || (c =? 160)%N           (* NBSP *)
  || (c =? 5760)%N          (* U+1680 *)
  || between 8192 8202 c    (* U+2000 .. U+200A *)
  || (c =? 8232)%N          (* U+2028 *)
  || (c =? 8233)%N          (* U+2029 *)
  || (c =? 8239)%N          (* U+202F *)
  || (c =? 8287)%N          (* U+205F *)
  || (c =? 12288)%N         (* U+3000 *)
  || (c =? 65279)%N.        (* U+FEFF *)

(** [s.length] as a JavaScript number. *)
Definition len (s : jsstring) : Z := Z.of_nat (List.length s).

Fixpoint trimStart (s : jsstring) : jsstring :=
  match s with
  | [] => []
  | c :: r => if isWhiteSpace c then trimStart r else s
  end.

Fixpoint trimEnd (s : jsstring) : jsstring :=
  match s with
  | [] => []
  | c :: r =>
      match trimEnd r with
      | [] => if isWhiteSpace c then [] else [c]
      | r' => c :: r'
      end
  end.

(** [s.trim()] *)
Definition trim (s : jsstring) : jsstring := trimEnd (trimStart s).

(** The relative-index rule shared by [slice]: a negative index counts
    from the end, and the result is clamped to [0 .. len]. *)
Definition relIndex (s : jsstring) (i : Z) : Z :=
  if (i <? 0)%Z then Z.max (len s + i) 0 else Z.min i (len s).

(** [s.slice(from, to)] for integer arguments. *)
Definition slice (s : jsstring) (from to : Z) : jsstring :=
  let f := relIndex s from in
  let t := relIndex s to in
  firstn (Z.to_nat (t - f)) (skipn (Z.to_nat f) s).

(** [s.substring(0, n)] for a non-negative integer [n]. *)
Definition substring0 (s : jsstring) (n : nat) : jsstring := firstn n s.

(** Scan for [s.lastIndexOf(c, pos)]: [i] is the index of the head of
    [l], [acc] the last match seen at an index not above [bound]. *)
Fixpoint lastIndexOf_scan (c : char) (l : jsstring) (i bound acc : Z) : Z :=
  match l with
  | [] => acc
  | x :: r =>
      lastIndexOf_scan c r (i + 1) bound
        (if (i <=? bound)%Z && (x =? c)%N then i else acc)
  end.

(** [s.lastIndexOf(c, pos)] for a one-character search string and an
    integer position: the largest index [k <= max(pos, 0)] with
    [s[k] = c], or [-1]. *)
Definition lastIndexOf (s : jsstring) (c : char) (pos : Z) : Z :=
  lastIndexOf_scan c s 0 (Z.max pos 0) (-1).

(** [parts.join(sep)] *)
Fixpoint join (sep : jsstring) (parts : list jsstring) : jsstring :=
  match parts with
  | [] => []
  | [p] => p
  | p :: rest => p ++ sep ++ join sep rest
  end.

(** A multi-line literal: the given lines separated by line feeds. *)
Definition lines (l : list jsstring) : jsstring := join [LF] l.

(** [s] is falsy exactly when it is the empty string. *)
Definition truthy (s : jsstring) : bool :=
  match s with [] => false | _ => true end.

(** [s.startsWith(prefix)] *)
Fixpoint startsWith (s prefix : jsstring) : bool :=
  match prefix, s with
  | [], _ => true
  | p :: ps, c :: cs => (p =? c)%N && startsWith cs ps
  | _ :: _, [] => false
  end.

(** [s.endsWith(suffix)] *)
Definition endsWith (s suffix : jsstring) : bool :=
  startsWith (rev s) (rev suffix).

(** [a === b] on strings. *)
Definition eqb (a b : jsstring) : bool :=
  (List.length a =? List.length b)%nat && startsWith a b.

(** The decimal rendering of a non-negative integer inside a template
    literal. *)
Definition decimal (n : N) : jsstring :=
  lit (NilZero.string_of_uint (N.to_uint n)).

(** A thrown value: [Some m] is an [Error] with message [m], [None] any
    other value. *)
Definition exn := option jsstring.

(** The outcome of a call that may throw. *)
Inductive outcome (A : Type) : Type :=
| Returned (a : A)
| Thrown (e : exn).
Arguments Returned {A} a.
Arguments Thrown {A} e.

(** A JavaScript number carried as data (embedding coordinates): the
    handlers never inspect these values, they only build and pass them.
    They are kept as rationals; rounding plays no part in any statement
    below. *)
Definition number := Q.

(** What [model.embedContent(text)] can do: resolve with
    [result.embedding.values] present, resolve without it, or throw. *)
Inductive EmbedReply : Type :=
| EmbedValues (values : list number)
| EmbedMissing
| EmbedThrows (e : exn).

(** [new Array(768).fill(0).map(() => Math.random() * 0.01)], drawing from
    the random source at positions [k], [k+1], ... *)
Definition dummyEmbedding (random : nat -> number) (k : nat) : list number :=
  List.map (fun i => Qmult (random (k + i)%nat) (1 # 100)) (seq 0 768).

(** A number as [JSON.parse] gives it: a finite double, written as the
    rational it is (both zeros are [Finite 0]), or an infinity, which a
    literal beyond the range of the doubles parses to. *)
Inductive JsonNumber : Type :=
| Finite (q : Q)
| Infinite (negative : bool).

(** A value as [JSON.parse] gives it. *)
Inductive Value : Type :=
| Null
| Bool (b : bool)
| Num (x : JsonNumber)
| Str (s : jsstring)
| Arr (items : list Value)
| Obj (fields : list (jsstring * Value)).

(** [!!v]: [null], [false], zero and the empty string are falsy; arrays
    and objects are truthy, empty ones too. *)
Definition truthyValue (v : Value) : bool :=
  match v with
  | Null => false
  | Bool b => b
  | Num (Finite q) => negb (Qnum q =? 0)%Z
  | Num (Infinite _) => true
  | Str s => truthy s
  | Arr _ => true
  | Obj _ => true
  end.

(** The object has an own property [key]. *)
Definition hasOwn (key : jsstring) (fields : list (jsstring * Value)) : bool :=
  existsb (fun field => eqb (fst field) key) fields.

End JS.

Import JS.

(* ================================================================== *)
(** * The vector store                                                 *)
(* ================================================================== *)

Module Pinecone.

(** The metadata object written by the upload handler (lines 272-280). *)
Record Metadata : Type := {
  filename : jsstring;
  fileSize : Z;
  uploadDate : jsstring;
  chunkIndex : nat;
  totalChunks : nat;
  content : jsstring;
  fileType : jsstring
}.

(** One element of the [vectors] array passed to [index.upsert]. *)
Record VectorRecord : Type := {
  id : jsstring;
  values : list number;
  metadata : Metadata
}.

(** One element of [queryResponse.matches]; [matchMetadata] is absent
    when the store holds none for the record. *)
Record Match : Type := {
  matchId : jsstring;
  matchMetadata : option Metadata
}.

(** The store's contents: the records of one index. *)
Definition Store := list VectorRecord.

(** Modelled from the spec: the vector store is an external service, so
    [index.upsert] is not part of the sources.  A record replaces the
    stored record of the same id, or is added when the id is new. *)
Fixpoint upsertOne (r : VectorRecord) (st : Store) : Store :=
  match st with
  | [] => [r]
  | x :: rest => if eqb (id x) (id r) then r :: rest else x :: upsertOne r rest
  end.

(** Modelled from the spec: [index.upsert(records)] writes all records of
    one ingestion in a single call. *)
Definition upsert (records : list VectorRecord) (st : Store) : Store :=
  fold_left (fun acc r => upsertOne r acc) records st.

Definition toMatch (r : VectorRecord) : Match :=
  {| matchId := id r; matchMetadata := Some (metadata r) |}.

(** Modelled from the spec: [index.query] with the exact-match filter
    [filename = name] is not part of the sources.  It returns the [topK]
    best records among those of that file name; [rank] orders the
    candidates by similarity to the query vector. *)
Definition query (rank : list number -> list VectorRecord -> list VectorRecord)
    (st : Store) (vector : list number) (topK : nat) (name : jsstring)
    : list Match :=
  List.map toMatch
    (firstn topK (rank vector (List.filter (fun r => eqb (filename (metadata r)) name) st))).

End Pinecone.

Import Pinecone.

(* ================================================================== *)
(** * upload-document/route.ts: text normalisation and validation      *)
(* ================================================================== *)

Module Upload.

(** The class [[\x00-\x08\x0B\x0C\x0E-\x1F\x7F-\x9F]]. *)
Definition isControl (c : char) : bool :=
  between 0 8 c || (c =? 11)%N || (c =? 12)%N
  || between 14 31 c || between 127 159 c.

(** The class [[\x20-\x7E]]. *)
Definition isAsciiPrintable (c : char) : bool := between 32 126 c.

(** [.replace(/[\x00-\x08\x0B\x0C\x0E-\x1F\x7F-\x9F]/g, ' ')] *)
Definition replaceControl (s : jsstring) : jsstring :=
  List.map (fun c => if isControl c then SPACE else c) s.

(** [.replace(/[^\x20-\x7E\s]/g, ' ')] *)
Definition replaceNonPrintable (s : jsstring) : jsstring :=
  List.map (fun c => if isAsciiPrintable c || isWhiteSpace c then c else SPACE) s.

(** [.replace(/\s+/g, ' ')]: every maximal run of white space becomes one
    space.  [inRun] records that the previous code unit belonged to the
    run being replaced. *)
Fixpoint collapseRuns (inRun : bool) (s : jsstring) : jsstring :=
  match s with
  | [] => []
  | c :: r =>
      if isWhiteSpace c
      then (if inRun then collapseRuns true r else SPACE :: collapseRuns true r)
      else c :: collapseRuns false r
  end.

Definition collapseWhiteSpace (s : jsstring) : jsstring := collapseRuns false s.

Definition cleanText (text : jsstring) : jsstring :=
  trim (collapseWhiteSpace (replaceNonPrintable (replaceControl text))).

(** The class of [isValidText]'s regular expression: ASCII letters and
    digits, [\s], and the punctuation marks . , ! ? ; : ( ) - together
    with the double and the single quote. *)
Definition isReadable (c : char) : bool :=
  between 97 122 c || between 65 90 c || between 48 57 c
  || isWhiteSpace c
  || (c =? 46)%N || (c =? 44)%N || (c =? 33)%N || (c =? 63)%N
  || (c =? 59)%N || (c =? 58)%N || (c =? 40)%N || (c =? 41)%N
  || (c =? 45)%N || (c =? 34)%N || (c =? 39)%N.

(** [(text.match(/[...]/g) || []).length] *)
Definition printableCount (text : jsstring) : nat :=
  List.length (List.filter isReadable text).

(** [printableCount / text.length > 0.7].  The quotient of the two
    integers is rounded to a double and compared with the double nearest
    to 0.7, which lies just below 7/10; for every length below 2^52 the
    outcome is that of the exact comparison [p / n > 7 / 10]. *)
Definition ratioAbove70 (p n : nat) : bool := (7 * n <? 10 * p)%nat.

Definition isValidText (text : jsstring) : bool :=
  if (List.length text <? 10)%nat then false
  else ratioAbove70 (printableCount text) (List.length text).

(* ------------------------------------------------------------------ *)
(** ** The text splitter                                               *)
(* ------------------------------------------------------------------ *)

(** The end of the chunk that starts at [start]: lines 16-28 of the
    source.  The test [lastSentence > start + chunkSize / 2] compares an
    integer with a half-integer and is written without the division. *)
Definition chunkEnd (text : jsstring) (chunkSize start : Z) : Z :=
  let e := (start + chunkSize)%Z in
  if (e <? len text)%Z then
    let lastSentence := lastIndexOf text DOT e in
    let lastSpace := lastIndexOf text SPACE e in
    if (2 * start + chunkSize <? 2 * lastSentence)%Z then (lastSentence + 1)%Z
    else if (2 * start + chunkSize <? 2 * lastSpace)%Z then lastSpace
    else e
  else e.

(** The [while (start < text.length)] loop.  The source loop has no bound
    of its own, so the model counts iterations: [None] means that [fuel]
    tests of the loop condition were not enough to leave the loop. *)
Fixpoint splitLoop (fuel : nat) (text : jsstring) (chunkSize overlap : Z)
    (start : Z) (chunks : list jsstring) : option (list jsstring) :=
  match fuel with
  | O => None
  | S fuel' =>
      if (start <? len text)%Z then
        let e := chunkEnd text chunkSize start in
        splitLoop fuel' text chunkSize overlap (e - overlap)%Z
          (chunks ++ [trim (slice text start e)])
      else Some chunks
  end.

Definition nonEmpty (chunk : jsstring) : bool := (0 <? List.length chunk)%nat.

Definition splitTextIntoChunks (fuel : nat) (text : jsstring)
    (chunkSize overlap : Z) : option (list jsstring) :=
  option_map (List.filter nonEmpty) (splitLoop fuel text chunkSize overlap 0%Z []).

(** The pairs [(start, end)] that the loop visits, in order: the same
    loop with the window recorded instead of its trimmed text. *)
Fixpoint splitWindows (fuel : nat) (text : jsstring) (chunkSize overlap : Z)
    (start : Z) : option (list (Z * Z)) :=
  match fuel with
  | O => None
  | S fuel' =>
      if (start <? len text)%Z then
        let e := chunkEnd text chunkSize start in
        option_map (cons (start, e))
          (splitWindows fuel' text chunkSize overlap (e - overlap)%Z)
      else Some []
  end.

(** The call [splitTextIntoChunks(extractedText)] of the handler, with the
    default parameters; [S (length text)] loop tests always suffice for
    them (see [splitDefault_returns]). *)
Definition splitDefault (text : jsstring) : option (list jsstring) :=
  splitTextIntoChunks (S (List.length text)) text 1000 200.

(* ------------------------------------------------------------------ *)
(** ** Text extraction                                                 *)
(* ------------------------------------------------------------------ *)

(** The uploaded [File].  [utf8] is what
    [new TextDecoder('utf-8', { fatal: true }).decode(buffer)] gives
    ([None] when it throws) and [latin1] what
    [new TextDecoder('iso-8859-1').decode(buffer)] gives. *)
Record File : Type := {
  name : jsstring;
  size : Z;
  type : jsstring;
  utf8 : option jsstring;
  latin1 : jsstring
}.

Definition error (message : string) : exn := Some (lit message).

Definition extractTextFromFile (file : File) : outcome jsstring :=
  if eqb (type file) (lit "application/pdf") || endsWith (name file) (lit ".pdf")
  then Thrown (error "PDF files are currently not supported due to text extraction limitations. Please convert your PDF to a text (.txt) file and upload that instead. You can use online PDF to text converters or copy-paste the content into a text file.")
  else if eqb (type file) (lit "text/plain") || endsWith (name file) (lit ".txt")
  then
    let failed := Thrown (error "Failed to read text file. Please ensure it's a valid UTF-8 encoded text file.") in
    match utf8 file with
    | None => failed
    | Some decoded =>
        let text := cleanText decoded in
        if isValidText text then Returned text
        else
          let text := cleanText (latin1 file) in
          if isValidText text then Returned text
          else failed
    end
  else if endsWith (name file) (lit ".docx")
  then Thrown (error "DOCX files are not yet supported. Please save your document as a plain text (.txt) file and upload that instead.")
  else if endsWith (name file) (lit ".doc")
  then Thrown (error "DOC files are not yet supported. Please save your document as a plain text (.txt) file and upload that instead.")
  else Thrown (error "Unsupported file type. Please use plain text (.txt) files only for now.").

(* ------------------------------------------------------------------ *)
(** ** Embedding generation                                            *)
(* ------------------------------------------------------------------ *)

(** What the handler's environment decides.  [embedContent k text] is the
    reply to the call [model.embedContent(text)] made after [k] earlier
    calls; [random k] is the [k]-th value of [Math.random()];
    [dateNow i] and [toISOString i] are the clock readings taken while
    the [i]-th vector is built. *)
Record Env : Type := {
  embedContent : nat -> jsstring -> EmbedReply;
  random : nat -> number;
  describeIndex : outcome unit;
  indexUpsert : list VectorRecord -> outcome unit;
  dateNow : nat -> N;
  toISOString : nat -> jsstring
}.

(** The state threaded through [generateEmbeddings]: the texts sent to
    the embedding model so far, and the number of random draws. *)
Record World : Type := {
  embedLog : list jsstring;
  draws : nat
}.

Definition world0 : World := {| embedLog := []; draws := 0 |}.

(** Push a dummy embedding: 768 draws. *)
Definition pushDummy (env : Env) (embeddings : list (list number)) (w : World)
    : list (list number) * World :=
  (embeddings ++ [dummyEmbedding (random env) (draws w)],
   {| embedLog := embedLog w; draws := draws w + 768 |}).

(** Record one call of the embedding model. *)
Definition called (text : jsstring) (w : World) : World :=
  {| embedLog := embedLog w ++ [text]; draws := draws w |}.

(** The [for (const text of texts)] loop of [generateEmbeddings]. *)
Fixpoint embedLoop (env : Env) (texts : list jsstring)
    (embeddings : list (list number)) (w : World)
    : list (list number) * World :=
  match texts with
  | [] => (embeddings, w)
  | text :: rest =>
      if negb (isValidText text) then
        let '(embeddings', w') := pushDummy env embeddings w in
        embedLoop env rest embeddings' w'
      else
        match embedContent env (List.length (embedLog w)) text with
        | EmbedValues v => embedLoop env rest (embeddings ++ [v]) (called text w)
        | EmbedMissing =>
            let '(embeddings', w') := pushDummy env embeddings (called text w) in
            embedLoop env rest embeddings' w'
        | EmbedThrows _ =>
            let '(embeddings', w') := pushDummy env embeddings (called text w) in
            embedLoop env rest embeddings' w'
        end
  end.

Definition generateEmbeddings (env : Env) (texts : list jsstring)
    : list (list number) * World :=
  embedLoop env texts [] world0.

(* ------------------------------------------------------------------ *)
(** ** The upload handler                                              *)
(* ------------------------------------------------------------------ *)

(** [await request.formData()] followed by [formData.get('document')]. *)
Inductive Request : Type :=
| FormDataThrows (e : exn)
| FormData (document : option File).

Inductive Body : Type :=
| Failure (error : jsstring) (details : option jsstring)
| Success (message documentId : jsstring)
    (chunksCreated vectorsUploaded extractedTextLength : nat).

Record Response : Type := { status : Z; body : Body }.

(** The calls that leave the handler, in order. *)
Inductive Event : Type :=
| EmbedContentCall (text : jsstring)
| DescribeIndexCall
| UpsertCall (vectors : list VectorRecord).

Definition json (st : Z) (b : Body) : Response := {| status := st; body := b |}.

Definition fail (st : Z) (message : string) : Response :=
  json st (Failure (lit message) None).

(** [error instanceof Error ? error.message : "Unknown error"] *)
Definition details (e : exn) : jsstring :=
  match e with Some m => m | None => lit "Unknown error" end.

(** The outer [catch] of the handler. *)
Definition caught (e : exn) : Response :=
  json 500 (Failure (lit "Failed to process document") (Some (details e))).

(** [name.split('.').pop()]: the part after the last dot. *)
Fixpoint lastSegment (s acc : jsstring) : jsstring :=
  match s with
  | [] => acc
  | c :: r => if (c =? DOT)%N then lastSegment r [] else lastSegment r (acc ++ [c])
  end.

(** [toLowerCase] on the ASCII letters.  The handler only compares the
    result with [.txt], and no code unit outside ASCII lowers to an ASCII
    letter of that word. *)
Definition toLowerCase (s : jsstring) : jsstring :=
  List.map (fun c => if between 65 90 c then (c + 32)%N else c) s.

(** [file.name.replace(/[^a-zA-Z0-9.-]/g, '_')] *)
Definition sanitize (s : jsstring) : jsstring :=
  List.map (fun c =>
    if between 97 122 c || between 65 90 c || between 48 57 c
       || (c =? 46)%N || (c =? 45)%N
    then c else 95%N) s.

(** The [i]-th element of [vectors] (lines 269-281). *)
Definition makeVector (env : Env) (file : File) (fileExtension : jsstring)
    (validChunks : list jsstring) (embeddings : list (list number))
    (chunkIndex : nat) (chunk : jsstring) : VectorRecord :=
  {| id := sanitize (name file) ++ lit "_chunk_"
             ++ decimal (N.of_nat chunkIndex) ++ lit "_"
             ++ decimal (dateNow env chunkIndex);
     values := nth chunkIndex embeddings [];
     metadata :=
       {| filename := name file;
          fileSize := size file;
          uploadDate := toISOString env chunkIndex;
          chunkIndex := chunkIndex;
          totalChunks := List.length validChunks;
          content := chunk;
          fileType := fileExtension |} |}.

(** [array.map((x, i) => f(x, i))], counting from [i]. *)
Fixpoint mapi {A B : Type} (f : nat -> A -> B) (i : nat) (l : list A) : list B :=
  match l with
  | [] => []
  | x :: r => f i x :: mapi f (S i) r
  end.

(** The handler.  [None] stands for a handler that never answers, which
    could only come from the splitter's loop. *)
Definition POST (env : Env) (request : Request) : option (Response * list Event) :=
  match request with
  | FormDataThrows e => Some (caught e, [])
  | FormData None => Some (fail 400 "No file provided", [])
  | FormData (Some file) =>
      if (5 * 1024 * 1024 <? size file)%Z
      then Some (fail 400 "File size too large. Maximum size is 5MB.", [])
      else
      let fileExtension := DOT :: toLowerCase (lastSegment (name file) []) in
      if negb (eqb fileExtension (lit ".txt"))
      then Some (fail 400 "Currently only plain text (.txt) files are supported. Please convert your document to a text file and try again.", [])
      else
      match extractTextFromFile file with
      | Thrown e => Some (caught e, [])
      | Returned extractedText =>
      if negb (truthy (trim extractedText))
      then Some (fail 400 "No text could be extracted from the file", [])
      else if (List.length extractedText <? 50)%nat
      then Some (fail 400 "Extracted text is too short. Please check if the file contains readable text.", [])
      else if negb (isValidText extractedText)
      then Some (fail 400 "The uploaded file contains corrupted or unreadable text. Please ensure it's a valid text file.", [])
      else
      match splitDefault extractedText with
      | None => None
      | Some chunks =>
      if (List.length chunks =? 0)%nat
      then Some (fail 400 "No chunks could be created from the document", [])
      else
      let limitedChunks := firstn 30 chunks in
      let validChunks := List.filter isValidText limitedChunks in
      if (List.length validChunks =? 0)%nat
      then Some (fail 400 "No valid text chunks could be created from the document", [])
      else
      let '(embeddings, w) := generateEmbeddings env validChunks in
      let embedCalls := List.map EmbedContentCall (embedLog w) in
      if negb (List.length embeddings =? List.length validChunks)%nat
      then Some (fail 500 "Failed to generate embeddings for all chunks", embedCalls)
      else
      match describeIndex env with
      | Thrown _ =>
          Some (json 404
                  (Failure
                     (lit "Pinecone index not found. Please create an index named 'LegalDoc' with 768 dimensions in your Pinecone console.")
                     (Some (lit "Go to https://app.pinecone.io/ and create an index with dimensions: 768, metric: cosine"))),
                embedCalls ++ [DescribeIndexCall])
      | Returned _ =>
      let vectors :=
        mapi (makeVector env file fileExtension validChunks embeddings) 0 validChunks in
      match indexUpsert env vectors with
      | Thrown e =>
          Some (caught e, embedCalls ++ [DescribeIndexCall; UpsertCall vectors])
      | Returned _ =>
          Some (json 200
                  (Success (lit "Document uploaded and processed successfully")
                     (name file)
                     (List.length validChunks)
                     (List.length vectors)
                     (List.length extractedText)),
                embedCalls ++ [DescribeIndexCall; UpsertCall vectors])
      end end end end
  end.

End Upload.

(* ================================================================== *)
(** * analyze-document/route.ts                                        *)
(* ================================================================== *)

Module Analyze.

(** The values of [analysisPrompts]. *)
Definition prompt_summarize : jsstring := lines [
  lit "You are a legal document analyzer. Provide a clear, concise summary of this legal document in plain English. Focus on:";
  lit "- What type of document this is";
  lit "- Main parties involved";
  lit "- Key obligations and rights";
  lit "- Important dates or deadlines";
  lit "- Overall purpose and scope";
  [];
  lit "Keep the summary accessible to non-lawyers."
].

Definition prompt_detailed : jsstring := lines [
  lit "You are a legal expert providing detailed analysis. Analyze this legal document comprehensively, covering:";
  lit "- Document structure and sections";
  lit "- Legal implications of each major clause";
  lit "- Rights and obligations of all parties";
  lit "- Potential consequences and enforcement mechanisms";
  lit "- Important legal terminology explanations";
  lit "- Risk factors and protections";
  [];
  lit "Provide thorough but understandable explanations."
].

Definition prompt_risks : jsstring := lines [
  lit "You are a legal risk analyst. Identify and explain potential risks and red flags in this legal document:";
  lit "- Financial risks and liabilities";
  lit "- Legal vulnerabilities";
  lit "- Unfavorable terms or clauses";
  lit "- Potential disputes or conflicts";
  lit "- Missing protections or safeguards";
  lit "- Recommendations for risk mitigation";
  [];
  lit "Rate each risk as HIGH, MEDIUM, or LOW and explain why."
].

Definition prompt_key_terms : jsstring := lines [
  lit "You are a legal document interpreter. Extract and explain the most important terms and clauses:";
  lit "- Define complex legal terminology";
  lit "- Explain key obligations and rights";
  lit "- Highlight critical deadlines and conditions";
  lit "- Identify penalty or consequence clauses";
  lit "- Point out any unusual or non-standard terms";
  [];
  lit "Make technical language accessible to general audiences."
].

Definition prompt_plain_english : jsstring := lines [
  lit "You are a legal translator. Convert the complex legal language in this document into plain English:";
  lit "- Replace legal jargon with everyday language";
  lit "- Simplify complex sentence structures";
  lit "- Explain what each section actually means in practice";
  lit "- Use analogies or examples where helpful";
  lit "- Maintain the essential legal meaning while making it understandable";
  [];
  lit "Focus on clarity and accessibility."
].

(** What the handler's environment decides.  [inheritedProperty key] is
    the text that a template literal gives for [analysisPrompts[key]]
    when [key] is not one of the five own keys but names a truthy
    property inherited from [Object.prototype]; [unicodeUpper c] is
    [toUpperCase] of the one-unit string [c] for a code unit outside
    ASCII; [numberToString x] is the text of the number [x] in a
    template literal; [toPrimitiveError v] and [charAtError v] are the
    messages of the [TypeError]s raised when [v] has no conversion to a
    primitive value and when [v.charAt] is not a function. *)
Record Env : Type := {
  embedContent : jsstring -> EmbedReply;
  random : nat -> number;
  indexQuery : list number -> nat -> Value -> outcome (option (list Match));
  generateContent : jsstring -> jsstring -> outcome jsstring;
  inheritedProperty : jsstring -> option jsstring;
  unicodeUpper : char -> jsstring;
  numberToString : JsonNumber -> jsstring;
  toPrimitiveError : Value -> jsstring;
  charAtError : Value -> jsstring
}.

(** [`${v}`] for a parsed JSON value, which is also the property key of
    [analysisPrompts[v]].  An array joins the texts of its elements with
    commas, [null] elements giving the empty text.  An object takes
    [toString] from [Object.prototype] unless it carries an own property
    of that name; a parsed value is never a function, so the conversion
    of such an object finds no method to call and throws. *)
Fixpoint toString (env : Env) (v : Value) : outcome jsstring :=
  match v with
  | Null => Returned (lit "null")
  | Bool true => Returned (lit "true")
  | Bool false => Returned (lit "false")
  | Num x => Returned (numberToString env x)
  | Str s => Returned s
  | Arr items =>
      match
        (fix elements (l : list Value) : outcome (list jsstring) :=
           match l with
           | [] => Returned []
           | item :: rest =>
               match
                 match item with Null => Returned [] | _ => toString env item end
               with
               | Thrown e => Thrown e
               | Returned text =>
                   match elements rest with
                   | Thrown e => Thrown e
                   | Returned texts => Returned (text :: texts)
                   end
               end
           end) items
      with
      | Thrown e => Thrown e
      | Returned texts => Returned (join (lit ",") texts)
      end
  | Obj fields =>
      if hasOwn (lit "toString") fields
      then Thrown (Some (toPrimitiveError env v))
      else Returned (lit "[object Object]")
  end.

(** [analysisPrompts[analysisType] || analysisPrompts.summarize], for the
    property key that [analysisType] converts to. *)
Definition systemPromptFor (env : Env) (analysisType : jsstring) : jsstring :=
  if eqb analysisType (lit "summarize") then prompt_summarize
  else if eqb analysisType (lit "detailed") then prompt_detailed
  else if eqb analysisType (lit "risks") then prompt_risks
  else if eqb analysisType (lit "key-terms") then prompt_key_terms
  else if eqb analysisType (lit "plain-english") then prompt_plain_english
  else match inheritedProperty env analysisType with
       | Some text => text
       | None => prompt_summarize
       end.

(** [c.toUpperCase()] for a one-unit string. *)
Definition toUpperCase1 (env : Env) (c : char) : jsstring :=
  if between 97 122 c then [(c - 32)%N]
  else if (c <? 128)%N then [c]
  else unicodeUpper env c.

(** The [switch] compares with [===], so only a string can meet a
    [case]; in the [default] branch a value that is not a string has no
    method [charAt], and the call throws. *)
Definition formatAnalysisType (env : Env) (type : Value) : outcome jsstring :=
  match type with
  | Str s =>
      if eqb s (lit "summarize") then Returned (lit "Document Summary")
      else if eqb s (lit "detailed") then Returned (lit "Detailed Analysis")
      else if eqb s (lit "risks") then Returned (lit "Risk Assessment")
      else if eqb s (lit "key-terms") then Returned (lit "Key Terms & Clauses")
      else if eqb s (lit "plain-english") then Returned (lit "Plain English Translation")
      else Returned match s with
                    | [] => []
                    | c :: rest => toUpperCase1 env c ++ rest
                    end
  | _ => Thrown (Some (charAtError env type))
  end.

(** [const { analysisType, fileName } = await request.json()]: the body
    does not parse, or it is [null] and cannot be destructured
    ([JsonThrows]); otherwise each of the two fields is the parsed value
    of that name, or [None] when the body carries none. *)
Inductive Request : Type :=
| JsonThrows (e : exn)
| Json (analysisType fileName : option Value).

Inductive Body : Type :=
| Failure (error : jsstring) (details : option jsstring)
| Success (analysis : jsstring) (analysisType fileName : Value)
    (chunksAnalyzed : nat) (note warning : option jsstring).

Record Response : Type := { status : Z; body : Body }.

(** The calls that leave the handler, in order. *)
Inductive Event : Type :=
| EmbedContentCall (text : jsstring)
| QueryCall (vector : list number) (topK : nat) (filterFilename : Value)
| GenerateContentCall (model : jsstring) (prompt : jsstring).

Definition json (st : Z) (b : Body) : Response := {| status := st; body := b |}.

Definition fail (st : Z) (message : string) : Response :=
  json st (Failure (lit message) None).

Definition details (e : exn) : jsstring :=
  match e with Some m => m | None => lit "Unknown error" end.

(** The outer [catch] of the handler. *)
Definition caught (e : exn) : Response :=
  json 500 (Failure (lit "Failed to analyze document") (Some (details e))).

(** [!value] for a field of the request. *)
Definition missing (field : option Value) : bool :=
  match field with Some v => negb (truthyValue v) | None => true end.

(** Lines 80-94: the query embedding, with its dummy fallback. *)
Definition queryEmbeddingOf (env : Env) (queryText : jsstring) : list number :=
  match embedContent env queryText with
  | EmbedValues v => v
  | EmbedMissing => dummyEmbedding (random env) 0
  | EmbedThrows _ => dummyEmbedding (random env) 0
  end.

(** [match.metadata?.content] kept when truthy. *)
Definition contentOf (m : Match) : option jsstring :=
  match matchMetadata m with
  | Some md => if truthy (content md) then Some (content md) else None
  | None => None
  end.

Fixpoint contents (matches : list Match) : list jsstring :=
  match matches with
  | [] => []
  | m :: rest =>
      match contentOf m with
      | Some c => c :: contents rest
      | None => contents rest
      end
  end.

(** Lines 114-117. *)
Definition relevantContentOf (matches : list Match) : jsstring :=
  join [LF; LF] (contents matches).

(** The prompt template of lines 141 and 167. *)
Definition promptOf (systemPrompt relevantContent : jsstring) : jsstring :=
  systemPrompt ++ [LF; LF] ++ lit "Document Content:" ++ [LF] ++ relevantContent.

Definition primaryModel : jsstring := lit "gemini-1.5-flash".
Definition fallbackModel : jsstring := lit "gemini-1.5-pro".

(** The text of lines 186-196, for the texts that [fileName] and
    [formatAnalysisType(analysisType)] gave. *)
Definition basicAnalysis (fileName label : jsstring)
    (matchCount : nat) (relevantContent : jsstring) : jsstring :=
  lit "Document Analysis for " ++ fileName ++ [LF]
  ++ lit "          " ++ [LF]
  ++ lit "Analysis Type: " ++ label ++ [LF]
  ++ [LF]
  ++ lit "Content Summary:" ++ [LF]
  ++ lit "The document contains " ++ decimal (N.of_nat matchCount)
  ++ lit " sections of content. " ++ [LF]
  ++ [LF]
  ++ lit "Key Content Preview:" ++ [LF]
  ++ substring0 relevantContent 500 ++ lit "..." ++ [LF]
  ++ [LF]
  ++ lit "Note: AI analysis is currently unavailable. This is a basic content extraction. Please try again later for full AI-powered analysis.".

(** The handler, with the calls it made.  The two fields are converted
    to text where line 78 interpolates them; a conversion that throws
    there is caught by the outer [catch] before any call is made, and a
    conversion that returned gives the same text wherever the value is
    interpolated or used as a key again. *)
Definition POST (env : Env) (request : Request) : Response * list Event :=
  match request with
  | JsonThrows e => (caught e, [])
  | Json analysisType fileName =>
      if missing analysisType || missing fileName
      then (fail 400 "Missing analysis type or file name", [])
      else
      let analysisType := match analysisType with Some v => v | None => Null end in
      let fileName := match fileName with Some v => v | None => Null end in
      match toString env analysisType with
      | Thrown e => (caught e, [])
      | Returned typeText =>
      match toString env fileName with
      | Thrown e => (caught e, [])
      | Returned nameText =>
      let queryText := typeText ++ lit " analysis of " ++ nameText in
      let queryEmbedding := queryEmbeddingOf env queryText in
      let trace := [EmbedContentCall queryText; QueryCall queryEmbedding 20 fileName] in
      match indexQuery env queryEmbedding 20 fileName with
      | Thrown e => (caught e, trace)
      | Returned None => (fail 404 "Document not found in database", trace)
      | Returned (Some []) => (fail 404 "Document not found in database", trace)
      | Returned (Some matches) =>
          let relevantContent := relevantContentOf matches in
          if negb (truthy relevantContent)
          then (fail 404 "No content found for analysis", trace)
          else
          let systemPrompt := systemPromptFor env typeText in
          let prompt := promptOf systemPrompt relevantContent in
          match generateContent env primaryModel prompt with
          | Returned analysis =>
              (json 200 (Success analysis analysisType fileName
                           (List.length matches) None None),
               trace ++ [GenerateContentCall primaryModel prompt])
          | Thrown _ =>
              let prompt := promptOf systemPrompt relevantContent in
              match generateContent env fallbackModel prompt with
              | Returned analysis =>
                  (json 200 (Success analysis analysisType fileName
                               (List.length matches)
                               (Some (lit "Used fallback model due to primary model unavailability"))
                               None),
                   trace ++ [GenerateContentCall primaryModel prompt;
                             GenerateContentCall fallbackModel prompt])
              | Thrown _ =>
                  let trace := trace ++ [GenerateContentCall primaryModel prompt;
                                         GenerateContentCall fallbackModel prompt] in
                  match formatAnalysisType env analysisType with
                  | Thrown e => (caught e, trace)
                  | Returned label =>
                      (json 200 (Success
                                   (basicAnalysis nameText label
                                      (List.length matches) relevantContent)
                                   analysisType fileName
                                   (List.length matches)
                                   None
                                   (Some (lit "AI analysis unavailable - showing basic content extraction"))),
                       trace)
                  end
              end
          end
      end
      end
      end
  end.

End Analyze.

(* ================================================================== *)
(** * getDocuments/route.ts                                            *)
(* ================================================================== *)

Module GetDocuments.

(** The metadata of a stored record as this handler reads it.  Every
    field may be absent; [filename] and [source] are strings and
    [fileSize] and [totalChunks] integers, as the upload handlers write
    them. *)
Record Metadata : Type := {
  filename : option jsstring;
  source : option jsstring;
  fileSize : option Z;
  totalChunks : option Z
}.

(** One element of [queryResponse.matches]. *)
Record Match : Type := { metadata : option Metadata }.

(** One element of [documents]: [{ name, size, totalChunks }]. *)
Inductive Document : Type :=
| Doc (name : jsstring) (size totalChunks : Z).

Definition docName (d : Document) : jsstring := let 'Doc n _ _ := d in n.
Definition docSize (d : Document) : Z := let 'Doc _ s _ := d in s.
Definition docTotalChunks (d : Document) : Z := let 'Doc _ _ t := d in t.

(** [a || b] on two optional strings, when the result is truthy. *)
Definition firstTruthy (a b : option jsstring) : option jsstring :=
  match a with
  | Some (c :: r) => Some (c :: r)
  | _ => match b with
         | Some (c :: r) => Some (c :: r)
         | _ => None
         end
  end.

(** [metadata?.filename || metadata?.source], when truthy. *)
Definition nameOf (m : Match) : option jsstring :=
  match metadata m with
  | Some md => firstTruthy (filename md) (source md)
  | None => None
  end.

(** [value || 0] on an optional integer. *)
Definition orZero (value : option Z) : Z :=
  match value with Some z => z | None => 0%Z end.

(** The object stored for a match under the name [n]. *)
Definition documentOf (n : jsstring) (m : Match) : Document :=
  match metadata m with
  | Some md => Doc n (orZero (fileSize md)) (orZero (totalChunks md))
  | None => Doc n 0 0
  end.

(** [documentsMap]: a [Map] keeps its entries in insertion order. *)
Definition DocumentsMap := list (jsstring * Document).

(** [documentsMap.has(key)] *)
Definition has (map : DocumentsMap) (key : jsstring) : bool :=
  existsb (fun entry => eqb (fst entry) key) map.

(** The body of the [forEach] callback. *)
Definition visit (map : DocumentsMap) (m : Match) : DocumentsMap :=
  match nameOf m with
  | Some n => if has map n then map else map ++ [(n, documentOf n m)]
  | None => map
  end.

(** [new Date(d.uploadedAt).getTime()]: the objects built above carry no
    [uploadedAt], so the date is invalid and its time is [NaN], written
    [None]. *)
Definition uploadedAtTime (d : Document) : option Z := None.

(** The comparator of the [sort] call; [None] is [NaN]. *)
Definition byUploadDate (a b : Document) : option Z :=
  match uploadedAtTime b, uploadedAtTime a with
  | Some tb, Some ta => Some (tb - ta)%Z
  | _, _ => None
  end.

(** What [sort] makes of the comparator's result: [NaN] counts as [+0]. *)
Definition sortCompare (a b : Document) : Z :=
  match byUploadDate a b with Some v => v | None => 0%Z end.

(** [Array.prototype.sort] is stable; it is modelled by insertion from
    the left, which puts an element behind every earlier element that
    does not compare greater. *)
Fixpoint insertSorted (x : Document) (sorted : list Document) : list Document :=
  match sorted with
  | [] => [x]
  | y :: rest =>
      if (0 <? sortCompare y x)%Z then x :: y :: rest
      else y :: insertSorted x rest
  end.

Definition sort (documents : list Document) : list Document :=
  fold_left (fun sorted x => insertSorted x sorted) documents [].

Inductive Body : Type :=
| Failure (error : jsstring) (details : option jsstring)
| Success (documents : list Document).

Record Response : Type := { status : Z; body : Body }.

(** The query of the handler: a vector of 1536 zeros, [topK = 10000] and
    no filter.  [indexQuery] is what the store does with it; [Thrown]
    also stands for a client that could not be set up. *)
Definition queryVector : list number := repeat 0%Q 1536.

Definition GET (indexQuery : list number -> N -> outcome (option (list Match)))
    : Response :=
  match indexQuery queryVector 10000%N with
  | Thrown e =>
      {| status := 500;
         body := Failure (lit "Failed to fetch documents")
                   (Some (match e with Some m => m | None => lit "Unknown error" end)) |}
  | Returned matches =>
      let documentsMap :=
        fold_left visit (match matches with Some l => l | None => [] end) [] in
      let documents := List.map snd documentsMap in
      {| status := 200; body := Success (sort documents) |}
  end.

End GetDocuments.

(* ================================================================== *)
(** * api/upload-document/route.ts, the earlier upload handler         *)
(* ================================================================== *)

Module LegacyUpload.

(** The uploaded [File].  [decoded] is its bytes decoded as UTF-8
    without the [fatal] flag, which is what both [TextDecoder]s of this
    file do; that decoding never throws. *)
Record File : Type := {
  name : jsstring;
  size : Z;
  type : jsstring;
  decoded : jsstring
}.

(** [text.match(/\(([^)]+)\)/g)]: the matches from left to right.
    [inside] is [None] outside a candidate, and otherwise holds what
    follows the opening parenthesis of the candidate.  A candidate ends
    at the next closing parenthesis and is a match unless it is empty. *)
Fixpoint matchParens (inside : option jsstring) (text : jsstring) : list jsstring :=
  match text with
  | [] => []
  | c :: r =>
      match inside with
      | None =>
          if (c =? 40)%N then matchParens (Some []) r else matchParens None r
      | Some acc =>
          if (c =? 41)%N then
            match acc with
            | [] => matchParens None r
            | _ :: _ => (40%N :: acc ++ [41%N]) :: matchParens None r
            end
          else matchParens (Some (acc ++ [c])) r
      end
  end.

Definition textMatches (text : jsstring) : list jsstring := matchParens None text.

(** The text returned for a PDF without any match. *)
Definition noPdfText : jsstring :=
  lit "Could not extract text from PDF. For better PDF support, please convert to TXT format or use a specialized PDF processing service.".

Definition isPdf (file : File) : bool :=
  eqb (type file) (lit "application/pdf") || endsWith (name file) (lit ".pdf").

Definition extractTextFromFile (file : File) : outcome jsstring :=
  if isPdf file then
    let matches := textMatches (decoded file) in
    if (0 <? List.length matches)%nat
    then Returned (join [SPACE] (List.map (fun m => slice m 1 (-1)) matches))
    else Returned noPdfText
  else if eqb (type file) (lit "text/plain") || endsWith (name file) (lit ".txt")
  then Returned (decoded file)
  else if endsWith (name file) (lit ".docx")
  then Thrown (Some (lit "DOCX files are not yet supported. Please convert to TXT or PDF format."))
  else Returned (decoded file).

(** What the handler's environment decides; see [Upload.Env]. *)
Record Env : Type := {
  embedContent : nat -> jsstring -> EmbedReply;
  random : nat -> number;
  indexUpsert : list VectorRecord -> outcome unit;
  toISOString : nat -> jsstring
}.

(** The [for (const text of texts)] loop of [generateEmbeddings]:
    [calls] are the texts sent to the model so far, [draws] counts the
    random numbers used. *)
Fixpoint embedLoop (env : Env) (texts : list jsstring)
    (embeddings : list (list number)) (calls : list jsstring) (draws : nat)
    : list (list number) * list jsstring :=
  match texts with
  | [] => (embeddings, calls)
  | text :: rest =>
      match embedContent env (List.length calls) text with
      | EmbedValues v => embedLoop env rest (embeddings ++ [v]) (calls ++ [text]) draws
      | EmbedMissing =>
          embedLoop env rest (embeddings ++ [dummyEmbedding (random env) draws])
            (calls ++ [text]) (draws + 768)
      | EmbedThrows _ =>
          embedLoop env rest (embeddings ++ [dummyEmbedding (random env) draws])
            (calls ++ [text]) (draws + 768)
      end
  end.

Definition generateEmbeddings (env : Env) (texts : list jsstring)
    : list (list number) * list jsstring :=
  embedLoop env texts [] [] 0.

Inductive Request : Type :=
| FormDataThrows (e : exn)
| FormData (document : option File).

Inductive Body : Type :=
| Failure (error : jsstring) (details : option jsstring)
| Success (message documentId : jsstring)
    (chunksCreated vectorsUploaded extractedTextLength : nat).

Record Response : Type := { status : Z; body : Body }.

Inductive Event : Type :=
| EmbedContentCall (text : jsstring)
| UpsertCall (vectors : list VectorRecord).

Definition json (st : Z) (b : Body) : Response := {| status := st; body := b |}.

Definition fail (st : Z) (message : string) : Response :=
  json st (Failure (lit message) None).

Definition caught (e : exn) : Response :=
  json 500 (Failure (lit "Failed to process document")
              (Some (match e with Some m => m | None => lit "Unknown error" end))).

(** [allowedTypes.includes(fileExtension)] *)
Definition allowed (fileExtension : jsstring) : bool :=
  eqb fileExtension (lit ".pdf") || eqb fileExtension (lit ".doc")
  || eqb fileExtension (lit ".docx") || eqb fileExtension (lit ".txt").

(** The [i]-th element of [vectors]; the id has no time stamp here. *)
Definition makeVector (env : Env) (file : File) (fileExtension : jsstring)
    (limitedChunks : list jsstring) (embeddings : list (list number))
    (chunkIndex : nat) (chunk : jsstring) : VectorRecord :=
  {| id := Upload.sanitize (name file) ++ lit "_chunk_"
             ++ decimal (N.of_nat chunkIndex);
     values := nth chunkIndex embeddings [];
     metadata :=
       {| filename := name file;
          fileSize := size file;
          uploadDate := toISOString env chunkIndex;
          chunkIndex := chunkIndex;
          totalChunks := List.length limitedChunks;
          content := chunk;
          fileType := fileExtension |} |}.

(** The handler.  Its splitter (lines 11-35) is the same text as that of
    the later handler, and so are the expressions for the extension and
    for the sanitised name; their definitions are used again. *)
Definition POST (env : Env) (request : Request) : option (Response * list Event) :=
  match request with
  | FormDataThrows e => Some (caught e, [])
  | FormData None => Some (fail 400 "No file provided", [])
  | FormData (Some file) =>
      if (10 * 1024 * 1024 <? size file)%Z
      then Some (fail 400 "File size too large. Maximum size is 10MB.", [])
      else
      let fileExtension :=
        DOT :: Upload.toLowerCase (Upload.lastSegment (name file) []) in
      if negb (allowed fileExtension)
      then Some (fail 400 "Invalid file type. Supported types: PDF, DOC, DOCX, TXT", [])
      else
      match extractTextFromFile file with
      | Thrown e => Some (caught e, [])
      | Returned extractedText =>
      if negb (truthy (trim extractedText))
      then Some (fail 400 "No text could be extracted from the file", [])
      else if (List.length extractedText <? 50)%nat
      then Some (fail 400 "Extracted text is too short. Please check if the file contains readable text.", [])
      else
      match Upload.splitDefault extractedText with
      | None => None
      | Some chunks =>
      if (List.length chunks =? 0)%nat
      then Some (fail 400 "No chunks could be created from the document", [])
      else
      let limitedChunks := firstn 50 chunks in
      let '(embeddings, calls) := generateEmbeddings env limitedChunks in
      let embedCalls := List.map EmbedContentCall calls in
      if negb (List.length embeddings =? List.length limitedChunks)%nat
      then Some (fail 500 "Failed to generate embeddings for all chunks", embedCalls)
      else
      let vectors :=
        Upload.mapi (makeVector env file fileExtension limitedChunks embeddings)
          0 limitedChunks in
      match indexUpsert env vectors with
      | Thrown e => Some (caught e, embedCalls ++ [UpsertCall vectors])
      | Returned _ =>
          Some (json 200
                  (Success (lit "Document uploaded and processed successfully")
                     (name file)
                     (List.length limitedChunks)
                     (List.length vectors)
                     (List.length extractedText)),
                embedCalls ++ [UpsertCall vectors])
      end end end
  end.

End LegacyUpload.

(* ================================================================== *)
(** * Vocabulary of the statements                                    *)
(* ================================================================== *)

Section UploadVocabulary.

Import Upload.

(** White space survives normalisation only as single spaces: after a
    white-space unit ([afterWs]) no second one may follow. *)
Fixpoint singleSpaced (afterWs : bool) (s : jsstring) : bool :=
  match s with
  | [] => true
  | c :: r =>
      if isWhiteSpace c
      then (c =? 32)%N && negb afterWs && singleSpaced true r
      else singleSpaced false r
  end.

(** A code unit that neither of the two character replacements touches. *)
Definition untouched (c : char) : bool :=
  negb (isControl c) && (isAsciiPrintable c || isWhiteSpace c).

Definition noLeadingSpace (s : jsstring) : bool :=
  match s with [] => true | c :: _ => negb (isWhiteSpace c) end.

(** The text of a window, as the source pushes it. *)
Definition chunkOfWindow (text : jsstring) (w : Z * Z) : jsstring :=
  trim (slice text (fst w) (snd w)).

(** A window cut where the next one starts, [overlap] before its end. *)
Definition pieceOfWindow (text : jsstring) (overlap : Z) (w : Z * Z) : jsstring :=
  slice text (fst w) (snd w - overlap).

(** The reconstruction that the specification describes: the trailing
    [overlap] code units of every chunk but the last are dropped, and
    what remains is concatenated. *)
Fixpoint dropOverlapsAndConcat (overlap : nat) (chunks : list jsstring) : jsstring :=
  match chunks with
  | [] => []
  | [c] => c
  | c :: rest =>
      firstn (List.length c - overlap) c ++ dropOverlapsAndConcat overlap rest
  end.

(** [v] is one of the fallback vectors built from the random source. *)
Definition isDummy (env : Env) (v : list number) : Prop :=
  exists k, v = dummyEmbedding (random env) k.

(** Where the vector of one text comes from: a fallback vector when the
    text is not valid; otherwise a fallback vector or the values of a
    reply of the embedding model to that text. *)
Definition vectorFor (env : Env) (text : jsstring) (v : list number) : Prop :=
  if isValidText text
  then isDummy env v \/ exists k, embedContent env k text = EmbedValues v
  else isDummy env v.

(** The number of calls of the embedding model made before the text at
    position [i] is reached: one for every valid text before it. *)
Definition callsBefore (texts : list jsstring) (i : nat) : nat :=
  List.length (List.filter isValidText (firstn i texts)).

(** The text at position [i] gets a fallback vector: it is not valid, or
    the reply to the call made for it carries no values. *)
Definition fallsBack (env : Env) (texts : list jsstring) (i : nat) : bool :=
  match nth_error texts i with
  | None => false
  | Some text =>
      if isValidText text
      then match embedContent env (callsBefore texts i) text with
           | EmbedValues _ => false
           | _ => true
           end
      else true
  end.

(** The number of fallback vectors built before position [i]. *)
Definition fallbacksBefore (env : Env) (texts : list jsstring) (i : nat) : nat :=
  List.length (List.filter (fallsBack env texts) (seq 0 i)).

(** The fallback vector built after [n] earlier ones: 768 fresh draws. *)
Definition fallbackVector (env : Env) (n : nat) : list number :=
  dummyEmbedding (random env) (768 * n).

(** An environment in which the index exists and accepts every write,
    with the clock at [now] and the embedding model given by [reply]. *)
Definition envAt (now : N) (reply : nat -> jsstring -> EmbedReply) : Env :=
  {| embedContent := reply;
     random := fun _ => (1 # 2)%Q;
     describeIndex := Returned tt;
     indexUpsert := fun _ => Returned tt;
     dateNow := fun _ => now;
     toISOString := fun _ => lit "2023-11-14T22:13:20.000Z" |}.

Definition envWith (reply : nat -> jsstring -> EmbedReply) : Env :=
  envAt 1700000000000 reply.

(** An embedding model that answers its first call with 768 zeros and
    throws on every later one. *)
Definition answersOnce (k : nat) (text : jsstring) : EmbedReply :=
  if k =? 0 then EmbedValues (repeat 0%Q 768) else EmbedThrows None.

(** A plain-text upload whose bytes decode to [text]. *)
Definition textFile (fileName : string) (text : jsstring) : File :=
  {| name := lit fileName;
     size := Z.of_nat (List.length text);
     type := lit "text/plain";
     utf8 := Some text;
     latin1 := text |}.

End UploadVocabulary.

Section AnalysisVocabulary.

Import Analyze.

(** [sub] occurs in [s]. *)
Definition contains (s sub : jsstring) : Prop :=
  exists before after, s = before ++ sub ++ after.

(** The text of a value in a template literal, when it has one. *)
Definition textOf (env : Env) (v : Value) : jsstring :=
  match toString env v with Returned text => text | Thrown _ => [] end.

(** The value has a text: its conversion to a string returns. *)
Definition converts (env : Env) (v : Value) : bool :=
  match toString env v with Returned _ => true | Thrown _ => false end.

(** The text of line 78. *)
Definition queryTextOf (env : Env) (analysisType fileName : Value) : jsstring :=
  textOf env analysisType ++ lit " analysis of " ++ textOf env fileName.

(** The two calls that open every run past the conversion of the two
    fields. *)
Definition queryTrace (env : Env) (analysisType fileName : Value) : list Event :=
  let queryText := queryTextOf env analysisType fileName in
  [EmbedContentCall queryText;
   QueryCall (queryEmbeddingOf env queryText) 20 fileName].

(** The answer of the filtered query of the handler. *)
Definition queryAnswer (env : Env) (analysisType fileName : Value)
    : outcome (option (list Match)) :=
  indexQuery env
    (queryEmbeddingOf env (queryTextOf env analysisType fileName)) 20 fileName.

(** The prompt that both models are given. *)
Definition promptFor (env : Env) (analysisType : Value) (matches : list Match)
    : jsstring :=
  promptOf (systemPromptFor env (textOf env analysisType)) (relevantContentOf matches).

(** The text of a natural number below 10^21, as the examples need it;
    [Infinity] otherwise. *)
Definition showNatural (x : JsonNumber) : jsstring :=
  match x with
  | Finite q => decimal (Z.to_N (Qnum q))
  | Infinite _ => lit "Infinity"
  end.

(** An environment whose store answers [matches] and whose two models
    behave as [primary] and [fallback]. *)
Definition envOf (matches : option (list Match))
    (primary fallback : outcome jsstring) : Env :=
  {| embedContent := fun _ => EmbedThrows None;
     random := fun _ => (1 # 2)%Q;
     indexQuery := fun _ _ _ => Returned matches;
     generateContent := fun model _ =>
       if eqb model primaryModel then primary else fallback;
     inheritedProperty := fun _ => None;
     unicodeUpper := fun c => [c];
     numberToString := showNatural;
     toPrimitiveError := fun _ => lit "Cannot convert object to primitive value";
     charAtError := fun _ => lit "type.charAt is not a function" |}.

(** A match that carries the chunk [text] of the file [fileName]. *)
Definition matchOf (fileName : string) (text : string) : Match :=
  {| matchId := lit fileName;
     matchMetadata :=
       Some {| filename := lit fileName; fileSize := 100; uploadDate := [];
               chunkIndex := 0; totalChunks := 1; content := lit text;
               fileType := lit ".txt" |} |}.

End AnalysisVocabulary.

Section RoundTripVocabulary.

(** The store after the writes of an upload. *)
Definition applyEvent (st : Store) (e : Upload.Event) : Store :=
  match e with
  | Upload.UpsertCall vectors => upsert vectors st
  | _ => st
  end.

Definition storeAfter (trace : list Upload.Event) (st : Store) : Store :=
  fold_left applyEvent trace st.


Definition isDigit (c : char) : bool := between 48 57 c.

(** The identity ranking. *)
Definition rankAsStored (v : list number) (l : list VectorRecord) : list VectorRecord := l.


(** A text of [n] copies of one sentence. *)
Definition sentences (n : nat) : jsstring :=
  List.concat (repeat (lit "The tenant pays the rent. ") n).

End RoundTripVocabulary.

Section NormaliserVocabulary.

Import Upload.

(** A text in the form [cleanText] produces: printable ASCII only, no
    white space at either end, no two spaces in a row. *)
Definition normalised (s : jsstring) : Prop :=
  Forall (fun c => isAsciiPrintable c = true) s
  /\ trim s = s
  /\ forall a b, s <> a ++ [SPACE; SPACE] ++ b.

End NormaliserVocabulary.

Section UploadHandlerVocabulary.

Import Upload.

(** The [error] field of an answer, when it has one. *)
Definition errorOf (r : Response) : option jsstring :=
  match body r with
  | Failure e _ => Some e
  | Success _ _ _ _ _ => None
  end.

(** The error texts of the four checks of the handler that come after
    the extraction, the splitting and the embedding and repeat what
    those steps have already made sure of. *)
Definition settledChecks : list jsstring :=
  [lit "No text could be extracted from the file";
   lit "The uploaded file contains corrupted or unreadable text. Please ensure it's a valid text file.";
   lit "No chunks could be created from the document";
   lit "Failed to generate embeddings for all chunks"].

(** An upload with the given name and media type whose bytes decode to
    [text]. *)
Definition fileOfType (fileName mediaType : string) (text : jsstring) : File :=
  {| name := lit fileName;
     size := Z.of_nat (List.length text);
     type := lit mediaType;
     utf8 := Some text;
     latin1 := text |}.

End UploadHandlerVocabulary.

Section LegacyVocabulary.

Import LegacyUpload.

(** An environment with the clock stopped, an index that accepts every
    write, and the embedding model given by [reply]. *)
Definition legacyEnv (reply : nat -> jsstring -> EmbedReply) : Env :=
  {| embedContent := reply;
     random := fun _ => (1 # 2)%Q;
     indexUpsert := fun _ => Returned tt;
     toISOString := fun _ => lit "2023-11-14T22:13:20.000Z" |}.

(** An upload with the given name and media type whose bytes decode to
    [text]. *)
Definition legacyFile (fileName mediaType : string) (text : jsstring) : File :=
  {| name := lit fileName;
     size := Z.of_nat (List.length text);
     type := lit mediaType;
     decoded := text |}.

End LegacyVocabulary.

(* ================================================================== *)
(** * Properties of the text normaliser                                *)
(* ================================================================== *)

Section TextNormalizer.

Import Upload.

Lemma singleSpaced_collapseRuns b s : singleSpaced b (collapseRuns b s) = true.
Proof.
  revert b; induction s as [|c r IH]; intros b; simpl; [reflexivity|].
  destruct (isWhiteSpace c) eqn:E.
  - destruct b; [apply IH|]. simpl. now rewrite IH.
  - simpl. rewrite E. apply IH.
Qed.

Lemma collapseRuns_fixed b s : singleSpaced b s = true -> collapseRuns b s = s.
Proof.
  revert b; induction s as [|c r IH]; intros b H; simpl in *; [reflexivity|].
  destruct (isWhiteSpace c).
  - apply andb_prop in H as [H Hr]. apply andb_prop in H as [Hc Hb].
    apply N.eqb_eq in Hc. destruct b; [discriminate|].
    rewrite (IH _ Hr). now subst c.
  - now rewrite (IH _ H).
Qed.

Lemma singleSpaced_trimStart b s :
  singleSpaced b s = true -> singleSpaced false (trimStart s) = true.
Proof.
  revert b; induction s as [|c r IH]; intros b H; simpl in *; [reflexivity|].
  destruct (isWhiteSpace c) eqn:E.
  - apply andb_prop in H as [_ Hr]. now apply (IH true).
  - simpl. now rewrite E.
Qed.

Lemma singleSpaced_trimEnd b s :
  singleSpaced b s = true -> singleSpaced b (trimEnd s) = true.
Proof.
  revert b; induction s as [|c r IH]; intros b H; simpl in *; [reflexivity|].
  destruct (isWhiteSpace c) eqn:E.
  - apply andb_prop in H as [H Hr]. specialize (IH _ Hr).
    destruct (trimEnd r) as [|x r']; [reflexivity|].
    cbn [singleSpaced]. rewrite E, H. exact IH.
  - specialize (IH _ H).
    destruct (trimEnd r) as [|x r']; cbn [singleSpaced]; rewrite E; [reflexivity|exact IH].
Qed.

Lemma noLeadingSpace_trimStart s : noLeadingSpace (trimStart s) = true.
Proof.
  induction s as [|c r IH]; simpl; [reflexivity|].
  destruct (isWhiteSpace c) eqn:E; [exact IH|]. simpl. now rewrite E.
Qed.

Lemma noLeadingSpace_trimEnd s :
  noLeadingSpace s = true -> noLeadingSpace (trimEnd s) = true.
Proof.
  destruct s as [|c r]; simpl; [reflexivity|]. intros H.
  destruct (trimEnd r); [|exact H].
  destruct (isWhiteSpace c) eqn:E; [reflexivity|]. simpl. now rewrite E.
Qed.

Lemma trimStart_fixed s : noLeadingSpace s = true -> trimStart s = s.
Proof.
  destruct s as [|c r]; simpl; [reflexivity|].
  now destruct (isWhiteSpace c).
Qed.

Lemma trimEnd_idem s : trimEnd (trimEnd s) = trimEnd s.
Proof.
  induction s as [|c r IH]; simpl; [reflexivity|].
  destruct (trimEnd r) as [|x r'] eqn:E.
  - destruct (isWhiteSpace c) eqn:Ec; simpl; [reflexivity|now rewrite Ec].
  - cbn [trimEnd]. cbn [trimEnd] in IH. now rewrite IH.
Qed.

Lemma trim_idem s : trim (trim s) = trim s.
Proof.
  unfold trim.
  rewrite (trimStart_fixed (trimEnd (trimStart s))).
  - apply trimEnd_idem.
  - apply noLeadingSpace_trimEnd, noLeadingSpace_trimStart.
Qed.

Lemma Forall_trimStart (P : char -> Prop) s : Forall P s -> Forall P (trimStart s).
Proof.
  induction 1 as [|c r Hc Hr IH]; simpl; [constructor|].
  destruct (isWhiteSpace c); [exact IH|now constructor].
Qed.

Lemma Forall_trimEnd (P : char -> Prop) s : Forall P s -> Forall P (trimEnd s).
Proof.
  induction 1 as [|c r Hc Hr IH]; simpl; [constructor|].
  destruct (trimEnd r).
  - destruct (isWhiteSpace c); now repeat constructor.
  - now constructor.
Qed.

Lemma untouched_space : untouched SPACE = true.
Proof. reflexivity. Qed.

Lemma Forall_collapseRuns b s :
  Forall (fun c => untouched c = true) s ->
  Forall (fun c => untouched c = true) (collapseRuns b s).
Proof.
  intros H; revert b; induction H as [|c r Hc Hr IH]; intros b; simpl; [constructor|].
  destruct (isWhiteSpace c).
  - destruct b; [apply IH|]. constructor; [apply untouched_space|apply IH].
  - constructor; [exact Hc|apply IH].
Qed.

Lemma untouched_after_replacements s :
  Forall (fun c => untouched c = true) (replaceNonPrintable (replaceControl s)).
Proof.
  unfold replaceNonPrintable, replaceControl. rewrite map_map.
  apply Forall_forall. intros c Hin. apply in_map_iff in Hin as [x [<- _]].
  destruct (isControl x) eqn:Ex.
  - reflexivity.
  - destruct (isAsciiPrintable x || isWhiteSpace x) eqn:Ep.
    + unfold untouched. now rewrite Ex, Ep.
    + reflexivity.
Qed.

Lemma replacements_fixed s :
  Forall (fun c => untouched c = true) s ->
  replaceNonPrintable (replaceControl s) = s.
Proof.
  unfold replaceNonPrintable, replaceControl. rewrite map_map.
  induction 1 as [|c r Hc Hr IH]; simpl; [reflexivity|].
  rewrite IH. f_equal.
  unfold untouched in Hc. apply andb_prop in Hc as [H1 H2].
  apply negb_true_iff in H1. now rewrite H1, H2.
Qed.

(** What [cleanText] returns is kept by each of its four steps. *)
Lemma cleanText_normal s :
  Forall (fun c => untouched c = true) (cleanText s)
  /\ singleSpaced false (cleanText s) = true.
Proof.
  unfold cleanText, trim, collapseWhiteSpace. split.
  - apply Forall_trimEnd, Forall_trimStart, Forall_collapseRuns,
      untouched_after_replacements.
  - apply singleSpaced_trimEnd, (singleSpaced_trimStart false),
      singleSpaced_collapseRuns.
Qed.

(** C9. [cleanText] is idempotent: cleaning a cleaned text changes
    nothing. *)
Theorem cleanText_idempotent (s : jsstring) :
  cleanText (cleanText s) = cleanText s.
Proof.
  destruct (cleanText_normal s) as [Hc Hs].
  unfold cleanText at 1.
  rewrite (replacements_fixed Hc).
  unfold collapseWhiteSpace. rewrite (collapseRuns_fixed _ _ Hs).
  unfold cleanText. apply trim_idem.
Qed.

Lemma filter_all (f : char -> bool) s : forallb f s = true -> List.filter f s = s.
Proof.
  induction s as [|c r IH]; simpl; [reflexivity|].
  intros H. apply andb_prop in H as [Hc Hr]. rewrite Hc. now rewrite IH.
Qed.

Lemma printableCount_app t s :
  printableCount (t ++ s) = printableCount t + printableCount s.
Proof. unfold printableCount. now rewrite filter_app, length_app. Qed.

(** What the code of [isValidText] decides: at least ten code units, and
    strictly more than seven tenths of them in the readable class. *)
Lemma isValidText_iff t :
  isValidText t = true <->
  10 <= List.length t /\ 7 * List.length t < 10 * printableCount t.
Proof.
  unfold isValidText, ratioAbove70.
  destruct (Nat.ltb_spec (List.length t) 10) as [H|H].
  - split; [discriminate|lia].
  - rewrite Nat.ltb_lt. split; [intros; split; assumption|tauto].
Qed.

(** C4, at its boundary.  The text [abcdefg###] has ten code units, of
    which exactly seven (70 percent) are readable, and [isValidText]
    rejects it: the source compares with [ratio > 0.7]. *)
Theorem isValidText_rejects_exactly_70_percent :
  List.length (lit "abcdefg###") = 10
  /\ printableCount (lit "abcdefg###") = 7
  /\ isValidText (lit "abcdefg###") = false.
Proof. repeat split. Qed.

(** C8. Appending readable code units to a valid text keeps it valid,
    and a text of fewer than ten code units is never valid. *)
Theorem isValidText_monotonic (t : jsstring) :
  (isValidText t = true ->
   forall s, forallb isReadable s = true -> isValidText (t ++ s) = true)
  /\ (List.length t < 10 -> isValidText t = false).
Proof.
  split.
  - intros Hv s Hs. apply isValidText_iff in Hv as [Hl Hr].
    apply isValidText_iff. rewrite printableCount_app, length_app.
    unfold printableCount at 2. rewrite (filter_all _ _ Hs). lia.
  - intros Hl. unfold isValidText.
    apply Nat.ltb_lt in Hl. now rewrite Hl.
Qed.

(** C8 at concrete texts: a valid sentence extended by punctuation, and a
    five-letter text. *)
Lemma isValidText_monotonic_witness :
  isValidText (lit "hello world" ++ lit "!?") = true
  /\ isValidText (lit "short") = false.
Proof.
  split.
  - apply (proj1 (isValidText_monotonic (lit "hello world"))); reflexivity.
  - apply (proj2 (isValidText_monotonic (lit "short"))). simpl. lia.
Defined.

End TextNormalizer.

(* ================================================================== *)
(** * Properties of the text splitter                                  *)
(* ================================================================== *)

Section Chunker.

Import Upload.

Open Scope Z_scope.

(** Every accepted boundary lies beyond the middle of the nominal chunk. *)
Lemma chunkEnd_cases text chunkSize start :
  chunkEnd text chunkSize start = start + chunkSize
  \/ 2 * start + chunkSize < 2 * chunkEnd text chunkSize start.
Proof.
  unfold chunkEnd.
  destruct (start + chunkSize <? len text); [|now left].
  destruct (Z.ltb_spec (2 * start + chunkSize)
              (2 * lastIndexOf text DOT (start + chunkSize))); [right; lia|].
  destruct (Z.ltb_spec (2 * start + chunkSize)
              (2 * lastIndexOf text SPACE (start + chunkSize))); [right; lia|].
  now left.
Qed.

(** With [overlap < chunkSize] and [2 * overlap <= chunkSize] the cursor
    moves forward in every iteration. *)
Lemma cursor_advances text chunkSize overlap start :
  overlap < chunkSize -> 2 * overlap <= chunkSize ->
  start < chunkEnd text chunkSize start - overlap.
Proof.
  intros H1 H2. destruct (chunkEnd_cases text chunkSize start) as [E|E]; lia.
Qed.

(** The loop leaves after at most [len text - start] iterations. *)
Lemma splitLoop_returns text chunkSize overlap :
  overlap < chunkSize -> 2 * overlap <= chunkSize ->
  forall fuel start chunks,
    (Z.to_nat (len text - start) < fuel)%nat ->
    exists r, splitLoop fuel text chunkSize overlap start chunks = Some r.
Proof.
  intros H1 H2. induction fuel as [|fuel IH]; intros start chunks Hf; [lia|].
  simpl. destruct (Z.ltb_spec start (len text)) as [Hlt|Hge].
  - apply IH.
    pose proof (cursor_advances text start H1 H2). lia.
  - now eexists.
Qed.

(** More fuel does not change a result. *)
Lemma splitLoop_fuel_mono text chunkSize overlap :
  forall fuel fuel' start chunks r,
    splitLoop fuel text chunkSize overlap start chunks = Some r ->
    (fuel <= fuel')%nat ->
    splitLoop fuel' text chunkSize overlap start chunks = Some r.
Proof.
  induction fuel as [|fuel IH]; intros fuel' start chunks r H Hle; [discriminate|].
  destruct fuel' as [|fuel']; [lia|]. simpl in *.
  destruct (start <? len text); [|exact H].
  apply (IH fuel'); [exact H|lia].
Qed.

(** The loop and its record of windows run in step. *)
Lemma splitLoop_windows text chunkSize overlap :
  forall fuel start chunks,
    splitLoop fuel text chunkSize overlap start chunks =
    option_map (fun ws => chunks ++ List.map (chunkOfWindow text) ws)
      (splitWindows fuel text chunkSize overlap start).
Proof.
  induction fuel as [|fuel IH]; intros start chunks; simpl; [reflexivity|].
  destruct (start <? len text).
  - rewrite IH.
    destruct (splitWindows fuel text chunkSize overlap
                (chunkEnd text chunkSize start - overlap)) as [ws|]; simpl;
      [|reflexivity].
    now rewrite <- app_assoc.
  - simpl. now rewrite app_nil_r.
Qed.

Lemma slice_skipn text s t :
  0 <= s -> s < len text -> s <= t ->
  slice text s t ++ skipn (Z.to_nat t) text = skipn (Z.to_nat s) text.
Proof.
  intros H0 Hs Ht. unfold slice, relIndex, len in *.
  destruct (Z.ltb_spec s 0); [lia|]. destruct (Z.ltb_spec t 0); [lia|].
  rewrite (Z.min_l s) by lia.
  destruct (Z.le_gt_cases t (Z.of_nat (List.length text))) as [Hle|Hgt].
  - rewrite (Z.min_l t) by lia.
    replace (Z.to_nat t) with (Z.to_nat (t - s) + Z.to_nat s)%nat by lia.
    rewrite <- skipn_skipn. apply firstn_skipn.
  - rewrite (Z.min_r t) by lia.
    rewrite (@skipn_all2 _ (Z.to_nat t) text) by lia. rewrite app_nil_r.
    apply firstn_all2. rewrite length_skipn. lia.
Qed.

(** The pieces of the windows visited from [start] on make up the text
    from [start] on. *)
Lemma pieces_tile text chunkSize overlap :
  overlap < chunkSize -> 2 * overlap <= chunkSize ->
  forall fuel start ws,
    0 <= start ->
    splitWindows fuel text chunkSize overlap start = Some ws ->
    List.concat (List.map (pieceOfWindow text overlap) ws) = skipn (Z.to_nat start) text.
Proof.
  intros H1 H2. induction fuel as [|fuel IH]; intros start ws H0 H; [discriminate|].
  simpl in H. destruct (Z.ltb_spec start (len text)) as [Hlt|Hge].
  - pose proof (cursor_advances text start H1 H2) as Hadv.
    destruct (splitWindows fuel text chunkSize overlap
                (chunkEnd text chunkSize start - overlap)) as [ws'|] eqn:E;
      [|discriminate].
    injection H as <-. simpl.
    assert (Hpos : 0 <= chunkEnd text chunkSize start - overlap) by lia.
    rewrite (IH _ _ Hpos E).
    unfold pieceOfWindow; simpl. apply slice_skipn; lia.
  - injection H as <-. simpl. symmetry. apply skipn_all2.
    unfold len in Hge. lia.
Qed.

(** The windows visited from a non-negative cursor start inside the text
    and are longer than the overlap. *)
Lemma windows_inside text chunkSize overlap :
  overlap < chunkSize -> 2 * overlap <= chunkSize ->
  forall fuel start ws,
    0 <= start ->
    splitWindows fuel text chunkSize overlap start = Some ws ->
    Forall (fun w => 0 <= fst w < len text /\ fst w < snd w - overlap) ws.
Proof.
  intros H1 H2. induction fuel as [|fuel IH]; intros start ws H0 H; [discriminate|].
  simpl in H. destruct (Z.ltb_spec start (len text)) as [Hlt|Hge].
  - pose proof (cursor_advances text start H1 H2) as Hadv.
    destruct (splitWindows fuel text chunkSize overlap
                (chunkEnd text chunkSize start - overlap)) as [ws'|] eqn:E;
      [|discriminate].
    injection H as <-. constructor; [simpl; lia|].
    apply (IH (chunkEnd text chunkSize start - overlap)); [lia|exact E].
  - injection H as <-. constructor.
Qed.

Lemma slice_prefix text s t e :
  0 <= s -> s < len text -> s <= t -> t <= e ->
  exists rest, slice text s e = slice text s t ++ rest.
Proof.
  intros H0 Hs Ht He. unfold slice, relIndex.
  destruct (Z.ltb_spec s 0); [lia|]. destruct (Z.ltb_spec t 0); [lia|].
  destruct (Z.ltb_spec e 0); [lia|].
  set (l := skipn (Z.to_nat (Z.min s (len text))) text).
  set (a := Z.to_nat (Z.min t (len text) - Z.min s (len text))).
  set (b := Z.to_nat (Z.min e (len text) - Z.min s (len text))).
  exists (skipn a (firstn b l)).
  rewrite <- (firstn_skipn a (firstn b l)) at 1. f_equal.
  rewrite firstn_firstn. f_equal. subst a b. lia.
Qed.

(** C1, as the code has it.  When [overlap < chunkSize] and moreover
    [2 * overlap <= chunkSize], the cursor moves forward in every
    iteration and the splitter returns: [length text + 1] tests of the
    loop condition are enough, and more change nothing. *)
Theorem splitTextIntoChunks_terminates (text : jsstring) (chunkSize overlap : Z) :
  overlap < chunkSize -> 2 * overlap <= chunkSize ->
  (forall start, start < chunkEnd text chunkSize start - overlap)
  /\ exists chunks,
       forall fuel, (List.length text < fuel)%nat ->
         splitTextIntoChunks fuel text chunkSize overlap = Some chunks.
Proof.
  intros H1 H2. split.
  - intros start. now apply cursor_advances.
  - destruct (@splitLoop_returns text chunkSize overlap H1 H2
                (S (List.length text)) 0 []) as [r Hr].
    { unfold len. lia. }
    exists (List.filter nonEmpty r). intros fuel Hf.
    unfold splitTextIntoChunks.
    assert (Hle : (S (List.length text) <= fuel)%nat) by lia.
    rewrite (@splitLoop_fuel_mono text chunkSize overlap _ _ _ _ _ Hr Hle). reflexivity.
Qed.

(** C1 at the parameters the handler uses, 1000 and 200. *)
Lemma splitTextIntoChunks_terminates_witness :
  200 < 1000 /\ 2 * 200 <= 1000
  /\ (forall start,
        start < chunkEnd (lit "One sentence. Another one.") 1000 start - 200)
  /\ exists chunks,
       forall fuel, (List.length (lit "One sentence. Another one.") < fuel)%nat ->
         splitTextIntoChunks fuel (lit "One sentence. Another one.") 1000 200
         = Some chunks.
Proof.
  split; [lia|]. split; [lia|].
  apply (@splitTextIntoChunks_terminates (lit "One sentence. Another one.") 1000 200); lia.
Defined.

(** The handler's call of the splitter always returns. *)
Lemma splitDefault_returns text : exists chunks, splitDefault text = Some chunks.
Proof.
  unfold splitDefault, splitTextIntoChunks.
  destruct (@splitLoop_returns text 1000 200 ltac:(lia) ltac:(lia)
              (S (List.length text)) 0 []) as [r ->].
  - unfold len. lia.
  - now eexists.
Qed.

(** A cursor that comes back to the place it left never leaves the loop. *)
Lemma splitLoop_stalls text chunkSize overlap start :
  (start <? len text) = true ->
  chunkEnd text chunkSize start - overlap = start ->
  forall fuel chunks, splitLoop fuel text chunkSize overlap start chunks = None.
Proof.
  intros Hlt Hback. induction fuel as [|fuel IH]; intros chunks; [reflexivity|].
  cbn [splitLoop]. rewrite Hlt, Hback. apply IH.
Qed.

(** C1 fails as stated.  With [chunkSize = 10] and [overlap = 6], so
    [overlap < chunkSize], the first boundary of a text with a space at
    index 6 is that space, the cursor returns to 0, and no number of
    iterations ends the loop.  With [overlap = chunkSize = 1] the loop
    does not end either: the source has no parameter check. *)
Lemma splitTextIntoChunks_can_loop :
  6 < 10
  /\ chunkEnd (lit "aaaaaa aaaaaaaaaaaaaaa") 10 0 - 6 = 0
  /\ (forall fuel,
        splitTextIntoChunks fuel (lit "aaaaaa aaaaaaaaaaaaaaa") 10 6 = None)
  /\ (forall fuel, splitTextIntoChunks fuel (lit "a") 1 1 = None).
Proof.
  split; [lia|]. split; [reflexivity|]. split; intros fuel;
    unfold splitTextIntoChunks; rewrite splitLoop_stalls; reflexivity.
Qed.

(** C2, as the code has it.  For [0 <= overlap], [overlap < chunkSize]
    and [2 * overlap <= chunkSize] the loop visits windows [(start, end)]
    whose trimmed, non-empty texts are the chunks returned; cutting each
    untrimmed window where the next one starts, at [end - overlap], gives
    a prefix of that window, and these pieces concatenated are the text. *)
Theorem windows_reconstruct_text (text : jsstring) (chunkSize overlap : Z) :
  0 <= overlap -> overlap < chunkSize -> 2 * overlap <= chunkSize ->
  exists ws,
    splitWindows (S (List.length text)) text chunkSize overlap 0 = Some ws
    /\ splitTextIntoChunks (S (List.length text)) text chunkSize overlap
       = Some (List.filter nonEmpty (List.map (chunkOfWindow text) ws))
    /\ Forall (fun w => exists rest,
                 slice text (fst w) (snd w) = pieceOfWindow text overlap w ++ rest) ws
    /\ List.concat (List.map (pieceOfWindow text overlap) ws) = text.
Proof.
  intros H0 H1 H2.
  destruct (@splitLoop_returns text chunkSize overlap H1 H2
              (S (List.length text)) 0 []) as [r Hr].
  { unfold len. lia. }
  rewrite splitLoop_windows in Hr.
  destruct (splitWindows (S (List.length text)) text chunkSize overlap 0)
    as [ws|] eqn:E; [|discriminate].
  exists ws. split; [reflexivity|]. split; [|split].
  - unfold splitTextIntoChunks. rewrite splitLoop_windows, E. reflexivity.
  - pose proof (@windows_inside text chunkSize overlap H1 H2 _ 0 ws (Z.le_refl 0) E) as Hin.
    eapply Forall_impl; [|exact Hin]. intros [s e] [Hs He]; simpl in *.
    unfold pieceOfWindow; simpl. apply slice_prefix; lia.
  - now rewrite (@pieces_tile text chunkSize overlap H1 H2 _ 0 ws (Z.le_refl 0) E).
Qed.

(** C2 at a five-unit text cut with [chunkSize = 3] and [overlap = 1]. *)
Lemma windows_reconstruct_text_witness :
  0 <= 1 /\ 1 < 3 /\ 2 * 1 <= 3
  /\ exists ws,
       splitWindows (S (List.length (lit "ab cd"))) (lit "ab cd") 3 1 0 = Some ws
       /\ splitTextIntoChunks (S (List.length (lit "ab cd"))) (lit "ab cd") 3 1
          = Some (List.filter nonEmpty (List.map (chunkOfWindow (lit "ab cd")) ws))
       /\ Forall (fun w => exists rest,
                    slice (lit "ab cd") (fst w) (snd w)
                    = pieceOfWindow (lit "ab cd") 1 w ++ rest) ws
       /\ List.concat (List.map (pieceOfWindow (lit "ab cd") 1) ws) = lit "ab cd".
Proof.
  split; [lia|]. split; [lia|]. split; [lia|].
  apply (@windows_reconstruct_text (lit "ab cd") 3 1); lia.
Defined.

(** C2 fails as stated.  The text [abc] with [chunkSize = 4] and
    [overlap = 2] gives the chunks [abc] and [c]; dropping the last two
    units of the first chunk and concatenating gives [ac], which is not
    the text and not a prefix of it. *)
Lemma dropping_overlaps_loses_text :
  2 < 4
  /\ splitTextIntoChunks 3 (lit "abc") 4 2 = Some [lit "abc"; lit "c"]
  /\ dropOverlapsAndConcat 2 [lit "abc"; lit "c"] = lit "ac"
  /\ lit "ac" <> lit "abc"
  /\ startsWith (lit "abc") (lit "ac") = false.
Proof.
  split; [lia|]. repeat split. discriminate.
Qed.

(** The same with the handler's parameters: a text of 900 units gives
    two chunks, of 900 and of 100 units, and the reconstruction of the
    specification has 800 units. *)
Lemma dropping_overlaps_default_parameters :
  option_map (List.map (@List.length char))
    (splitTextIntoChunks 901 (repeat 97%N 900) 1000 200) = Some [900; 100]%nat
  /\ option_map (fun chunks => List.length (dropOverlapsAndConcat 200 chunks))
       (splitTextIntoChunks 901 (repeat 97%N 900) 1000 200) = Some 800%nat.
Proof. split; vm_compute; reflexivity. Qed.

Close Scope Z_scope.

End Chunker.

(* ================================================================== *)
(** * Properties of the embedding generator                            *)
(* ================================================================== *)

Section EmbeddingGenerator.

Import Upload.

Lemma length_dummyEmbedding random k : List.length (dummyEmbedding random k) = 768.
Proof. unfold dummyEmbedding. now rewrite length_map, length_seq. Qed.

(** The loop appends one vector per text and calls the model exactly for
    the valid texts, in order. *)
Lemma embedLoop_spec env :
  forall texts embeddings w,
  exists vs,
    fst (embedLoop env texts embeddings w) = embeddings ++ vs
    /\ embedLog (snd (embedLoop env texts embeddings w))
       = embedLog w ++ List.filter isValidText texts
    /\ Forall2 (vectorFor env) texts vs.
Proof.
  induction texts as [|text rest IH]; intros embeddings w; simpl.
  - exists []. now rewrite !app_nil_r.
  - unfold vectorFor at 1.
    destruct (isValidText text) eqn:Ev; simpl.
    + destruct (embedContent env (List.length (embedLog w)) text) as [v| |e] eqn:Er;
        unfold pushDummy;
        match goal with
        | |- context [embedLoop env rest (embeddings ++ [?x]) ?w'] =>
            destruct (IH (embeddings ++ [x]) w') as [vs [H1 [H2 H3]]];
            exists (x :: vs)
        end;
        (split; [now rewrite H1, <- app_assoc|]);
        (split; [rewrite H2; simpl; now rewrite <- app_assoc|]);
        (constructor; [|exact H3]);
        unfold vectorFor; rewrite Ev.
      * right. now exists (List.length (embedLog w)).
      * left. now eexists.
      * left. now eexists.
    + unfold pushDummy.
      match goal with
      | |- context [embedLoop env rest (embeddings ++ [?x]) ?w'] =>
          destruct (IH (embeddings ++ [x]) w') as [vs [H1 [H2 H3]]];
          exists (x :: vs)
      end.
      split; [now rewrite H1, <- app_assoc|].
      split; [exact H2|].
      constructor; [|exact H3].
      unfold vectorFor; rewrite Ev. now eexists.
Qed.

Lemma vectorFor_length env text v :
  (forall k t v', embedContent env k t = EmbedValues v' -> List.length v' = 768) ->
  vectorFor env text v -> List.length v = 768.
Proof.
  intros Hb. unfold vectorFor, isDummy.
  destruct (isValidText text); intros H.
  - destruct H as [[k ->]|[k H]]; [apply length_dummyEmbedding|exact (Hb _ _ _ H)].
  - destruct H as [k ->]. apply length_dummyEmbedding.
Qed.

(** The loop on a concatenation is the loop on the second part, run
    from where the first part ended. *)
Lemma embedLoop_app env a :
  forall b embeddings w,
  embedLoop env (a ++ b) embeddings w
  = embedLoop env b (fst (embedLoop env a embeddings w))
                    (snd (embedLoop env a embeddings w)).
Proof.
  induction a as [|text rest IH]; intros b embeddings w; [reflexivity|].
  simpl. destruct (isValidText text); simpl.
  - destruct (embedContent env (List.length (embedLog w)) text); apply IH.
  - apply IH.
Qed.

Lemma callsBefore_prefix a b i :
  i <= List.length a -> callsBefore (a ++ b) i = callsBefore a i.
Proof.
  intros H. unfold callsBefore. rewrite firstn_app.
  replace (i - List.length a) with 0 by lia. simpl. now rewrite app_nil_r.
Qed.

Lemma fallsBack_prefix env a b i :
  i < List.length a -> fallsBack env (a ++ b) i = fallsBack env a i.
Proof.
  intros H. unfold fallsBack.
  rewrite nth_error_app1 by exact H. rewrite callsBefore_prefix by lia. reflexivity.
Qed.

Lemma fallbacksBefore_prefix env a b i :
  i <= List.length a -> fallbacksBefore env (a ++ b) i = fallbacksBefore env a i.
Proof.
  intros H. unfold fallbacksBefore. f_equal. apply filter_ext_in.
  intros j Hj. apply in_seq in Hj. apply fallsBack_prefix. lia.
Qed.

Lemma fallbacksBefore_S env texts i :
  fallbacksBefore env texts (S i)
  = fallbacksBefore env texts i + (if fallsBack env texts i then 1 else 0).
Proof.
  unfold fallbacksBefore. rewrite seq_S, filter_app, length_app. simpl.
  now destruct (fallsBack env texts i).
Qed.

Lemma callsBefore_all a : callsBefore a (List.length a) = List.length (List.filter isValidText a).
Proof. unfold callsBefore. now rewrite firstn_all. Qed.

Lemma callsBefore_snoc a text :
  callsBefore (a ++ [text]) (S (List.length a))
  = callsBefore a (List.length a) + (if isValidText text then 1 else 0).
Proof.
  unfold callsBefore. rewrite firstn_all.
  replace (S (List.length a)) with (List.length (a ++ [text])) by (rewrite length_app; simpl; lia).
  rewrite firstn_all, filter_app, length_app. simpl. now destruct (isValidText text).
Qed.

(** The state in which the loop leaves a list of texts: one vector each,
    one call per valid text, 768 draws per fallback vector. *)
Lemma embedLoop_state env a :
  List.length (fst (generateEmbeddings env a)) = List.length a
  /\ List.length (embedLog (snd (generateEmbeddings env a)))
     = callsBefore a (List.length a)
  /\ draws (snd (generateEmbeddings env a))
     = fallbacksBefore env a (List.length a) * 768.
Proof.
  unfold generateEmbeddings.
  induction a as [|text a IH] using rev_ind; [repeat split|].
  destruct IH as [IH1 [IH2 IH3]].
  rewrite embedLoop_app, !length_app. simpl List.length.
  replace (List.length a + 1) with (S (List.length a)) by lia.
  rewrite fallbacksBefore_S, fallbacksBefore_prefix by lia.
  rewrite callsBefore_snoc.
  unfold fallsBack. rewrite nth_error_app2, Nat.sub_diag by lia. cbn [nth_error].
  rewrite callsBefore_prefix by lia. rewrite <- IH2.
  destruct (embedLoop env a [] world0) as [embeddings w]. simpl in *.
  destruct (isValidText text); simpl.
  - destruct (embedContent env (List.length (embedLog w)) text); simpl;
      rewrite ?length_app; simpl; repeat split; lia.
  - rewrite ?length_app; simpl; repeat split; lia.
Qed.

Lemma nth_error_middle {A : Type} (a : list A) x b : nth_error (a ++ x :: b) (List.length a) = Some x.
Proof. rewrite nth_error_app2, Nat.sub_diag by lia. reflexivity. Qed.

(** The vector at each position: the values of the reply to the call
    made for that text, or the next fallback vector. *)
Lemma embedLoop_at env texts i text :
  nth_error texts i = Some text ->
  nth_error (fst (generateEmbeddings env texts)) i
  = Some (if isValidText text
          then match embedContent env (callsBefore texts i) text with
               | EmbedValues v => v
               | _ => fallbackVector env (fallbacksBefore env texts i)
               end
          else fallbackVector env (fallbacksBefore env texts i)).
Proof.
  intros Hi. destruct (nth_error_split _ _ Hi) as [a [b [-> <-]]].
  rewrite callsBefore_prefix, fallbacksBefore_prefix by lia.
  destruct (embedLoop_state env a) as [H1 [H2 H3]].
  unfold generateEmbeddings in *. rewrite embedLoop_app.
  destruct (embedLoop env a [] world0) as [embeddings w]. simpl in H1, H2, H3.
  cbn [fst snd]. unfold fallbackVector. rewrite (Nat.mul_comm 768), <- H2, <- H3, <- H1.
  clear H1 H2 H3.
  simpl. destruct (isValidText text); simpl.
  - destruct (embedContent env (List.length (embedLog w)) text); unfold pushDummy;
      match goal with
      | |- context [embedLoop env b (embeddings ++ [?x]) ?w'] =>
          destruct (embedLoop_spec env b (embeddings ++ [x]) w') as [vs [-> _]]
      end;
      rewrite <- app_assoc; apply nth_error_middle.
  - unfold pushDummy.
    match goal with
    | |- context [embedLoop env b (embeddings ++ [?x]) ?w'] =>
        destruct (embedLoop_spec env b (embeddings ++ [x]) w') as [vs [-> _]]
    end.
    rewrite <- app_assoc; apply nth_error_middle.
Qed.

(** C6, as the code has it.  [generateEmbeddings] returns one vector per
    text, and the embedding model is called for the valid texts only, in
    their order.  The vector of a text that is not valid is the next
    fallback vector; the vector of a valid text is the values of the
    reply to the call made for it, as they are, or the next fallback
    vector when that call throws or its reply carries no values.  Every
    fallback vector has 768 elements, so all vectors have 768 elements
    when those of the model have. *)
Theorem generateEmbeddings_total (env : Env) (texts : list jsstring) :
  List.length (fst (generateEmbeddings env texts)) = List.length texts
  /\ embedLog (snd (generateEmbeddings env texts)) = List.filter isValidText texts
  /\ (forall i text,
        nth_error texts i = Some text -> isValidText text = false ->
        nth_error (fst (generateEmbeddings env texts)) i
        = Some (fallbackVector env (fallbacksBefore env texts i)))
  /\ (forall i text v,
        nth_error texts i = Some text -> isValidText text = true ->
        embedContent env (callsBefore texts i) text = EmbedValues v ->
        nth_error (fst (generateEmbeddings env texts)) i = Some v)
  /\ (forall i text,
        nth_error texts i = Some text -> isValidText text = true ->
        embedContent env (callsBefore texts i) text = EmbedMissing
        \/ (exists e, embedContent env (callsBefore texts i) text = EmbedThrows e) ->
        nth_error (fst (generateEmbeddings env texts)) i
        = Some (fallbackVector env (fallbacksBefore env texts i)))
  /\ (forall n, List.length (fallbackVector env n) = 768)
  /\ ((forall k t v, embedContent env k t = EmbedValues v -> List.length v = 768) ->
      Forall (fun v => List.length v = 768) (fst (generateEmbeddings env texts))).
Proof.
  split; [apply embedLoop_state|].
  split.
  { unfold generateEmbeddings.
    destruct (embedLoop_spec env texts [] world0) as [vs [_ [H2 _]]]. exact H2. }
  split.
  { intros i text Hi Hv. rewrite (embedLoop_at env _ _ Hi), Hv. reflexivity. }
  split.
  { intros i text v Hi Hv Hr. rewrite (embedLoop_at env _ _ Hi), Hv, Hr. reflexivity. }
  split.
  { intros i text Hi Hv Hr. rewrite (embedLoop_at env _ _ Hi), Hv.
    destruct Hr as [-> | [e ->]]; reflexivity. }
  split; [intros n; apply length_dummyEmbedding|].
  intros Hb. unfold generateEmbeddings.
  destruct (embedLoop_spec env texts [] world0) as [vs [H1 [_ H3]]].
  simpl in H1. rewrite H1. clear H1.
  induction H3; constructor; eauto using vectorFor_length.
Qed.

End EmbeddingGenerator.

(* ================================================================== *)
(** * Properties of the upload handler                                 *)
(* ================================================================== *)

Section IngestionOrchestrator.

Import Upload.

(** C6 at a model that answers its first call with 768 zeros and throws
    afterwards, for a valid text, a short one and a second valid one. *)
Lemma generateEmbeddings_total_witness :
  nth_error (fst (generateEmbeddings (envWith answersOnce)
                    [lit "hello world"; lit "x"; lit "a second valid text"])) 0
  = Some (repeat 0%Q 768)
  /\ nth_error (fst (generateEmbeddings (envWith answersOnce)
                       [lit "hello world"; lit "x"; lit "a second valid text"])) 1
     = Some (fallbackVector (envWith answersOnce) 0)
  /\ nth_error (fst (generateEmbeddings (envWith answersOnce)
                       [lit "hello world"; lit "x"; lit "a second valid text"])) 2
     = Some (fallbackVector (envWith answersOnce) 1)
  /\ Forall (fun v => List.length v = 768)
       (fst (generateEmbeddings (envWith answersOnce)
               [lit "hello world"; lit "x"; lit "a second valid text"])).
Proof.
  destruct (generateEmbeddings_total (envWith answersOnce)
              [lit "hello world"; lit "x"; lit "a second valid text"])
    as [_ [_ [Hshort [Hvalues [Hfailed [_ Hsize]]]]]].
  split; [exact (Hvalues 0 (lit "hello world") (repeat 0%Q 768)
                   eq_refl eq_refl eq_refl)|].
  split; [exact (Hshort 1 (lit "x") eq_refl eq_refl)|].
  split; [exact (Hfailed 2 (lit "a second valid text") eq_refl eq_refl
                   (or_intror (ex_intro _ None eq_refl)))|].
  apply Hsize. intros k t v H. simpl in H. unfold answersOnce in H.
  destruct (k =? 0); [injection H as <-; reflexivity|discriminate].
Defined.

(** C6 fails as stated.  A reply of the embedding model that carries an
    empty [values] array passes the presence test of the source, and the
    vector returned for that valid text has no element. *)
Lemma generateEmbeddings_passes_values_through :
  isValidText (lit "hello world") = true
  /\ fst (generateEmbeddings (envWith (fun _ _ => EmbedValues [])) [lit "hello world"])
     = [[]]
  /\ ~ Forall (fun v : list number => List.length v = 768) [[]].
Proof.
  split; [reflexivity|]. split; [reflexivity|].
  intros H. inversion H; discriminate.
Qed.

Lemma length_mapi {A B : Type} (f : nat -> A -> B) l :
  forall i, List.length (mapi f i l) = List.length l.
Proof. induction l as [|x r IH]; intros i; simpl; [reflexivity|]. now rewrite IH. Qed.

(** What a successful answer of the handler tells about its run. *)
Lemma POST_success_inv env request response trace
    message documentId chunksCreated vectorsUploaded extractedTextLength :
  POST env request = Some (response, trace) ->
  body response =
    Success message documentId chunksCreated vectorsUploaded extractedTextLength ->
  exists file extractedText chunks,
    request = FormData (Some file)
    /\ eqb (DOT :: toLowerCase (lastSegment (name file) [])) (lit ".txt") = true
    /\ extractTextFromFile file = Returned extractedText
    /\ splitDefault extractedText = Some chunks
    /\ let validChunks := List.filter isValidText (firstn 30 chunks) in
       let embeddings := fst (generateEmbeddings env validChunks) in
       let vectors :=
         mapi (makeVector env file (DOT :: toLowerCase (lastSegment (name file) []))
                 validChunks embeddings) 0 validChunks in
       List.length validChunks <> 0
       /\ status response = 200%Z
       /\ documentId = name file
       /\ chunksCreated = List.length validChunks
       /\ vectorsUploaded = List.length vectors
       /\ extractedTextLength = List.length extractedText
       /\ trace = List.map EmbedContentCall
                    (embedLog (snd (generateEmbeddings env validChunks)))
                  ++ [DescribeIndexCall; UpsertCall vectors].
Proof.
  intros H Hb. unfold POST in H.
  destruct request as [e|[file|]];
    try (injection H as <- <-; discriminate Hb).
  destruct (5 * 1024 * 1024 <? size file)%Z;
    [injection H as <- <-; discriminate Hb|].
  destruct (eqb (DOT :: toLowerCase (lastSegment (name file) [])) (lit ".txt")) eqn:Eext;
    [change (negb true) with false in H; cbv iota in H
    |injection H as <- <-; discriminate Hb].
  destruct (extractTextFromFile file) as [extractedText|e] eqn:Eex;
    [|injection H as <- <-; discriminate Hb].
  destruct (negb (truthy (trim extractedText)));
    [injection H as <- <-; discriminate Hb|].
  destruct (List.length extractedText <? 50)%nat;
    [injection H as <- <-; discriminate Hb|].
  destruct (negb (isValidText extractedText));
    [injection H as <- <-; discriminate Hb|].
  destruct (splitDefault extractedText) as [chunks|] eqn:Esp; [|discriminate H].
  destruct (List.length chunks =? 0)%nat;
    [injection H as <- <-; discriminate Hb|].
  destruct (Nat.eqb_spec (List.length (List.filter isValidText (firstn 30 chunks))) 0)
    as [Hz|Hnz];
    [injection H as <- <-; discriminate Hb|].
  destruct (generateEmbeddings env (List.filter isValidText (firstn 30 chunks)))
    as [embeddings w] eqn:Egen.
  destruct (negb (List.length embeddings
                  =? List.length (List.filter isValidText (firstn 30 chunks)))%nat);
    [injection H as <- <-; discriminate Hb|].
  destruct (describeIndex env);
    [|injection H as <- <-; discriminate Hb].
  destruct (indexUpsert env _);
    [|injection H as <- <-; discriminate Hb].
  injection H as <- <-. cbn [body json] in Hb. injection Hb as <- <- <- <- <-.
  exists file, extractedText, chunks.
  repeat (split; [first [reflexivity|assumption]|]).
  cbv zeta. rewrite Egen. cbn [fst snd status json].
  repeat (split; [first [reflexivity|assumption]|]). reflexivity.
Qed.

(** The upload handler always answers. *)
Lemma POST_answers env request : POST env request <> None.
Proof.
  unfold POST. destruct request as [e|[file|]]; try discriminate.
  destruct (5 * 1024 * 1024 <? size file)%Z; [discriminate|].
  destruct (negb (eqb _ _)); [discriminate|].
  destruct (extractTextFromFile file) as [text|e]; [|discriminate].
  destruct (negb (truthy (trim text))); [discriminate|].
  destruct (List.length text <? 50)%nat; [discriminate|].
  destruct (negb (isValidText text)); [discriminate|].
  destruct (splitDefault_returns text) as [chunks ->].
  destruct (List.length chunks =? 0)%nat; [discriminate|].
  destruct (List.length (List.filter isValidText (firstn 30 chunks)) =? 0)%nat;
    [discriminate|].
  destruct (generateEmbeddings env _) as [embeddings w].
  destruct (negb _); [discriminate|].
  destruct (describeIndex env); [|discriminate].
  destruct (indexUpsert env _); discriminate.
Qed.

(** C10. In a successful answer [chunksCreated] and [vectorsUploaded]
    are the same number: that of the chunks passing [isValidText] among
    the first 30 chunks of the splitter; it lies between 1 and 30. *)
Theorem chunksCreated_counts_valid_chunks
    (env : Env) (request : Request) (response : Response) (trace : list Event)
    (message documentId : jsstring)
    (chunksCreated vectorsUploaded extractedTextLength : nat) :
  POST env request = Some (response, trace) ->
  body response =
    Success message documentId chunksCreated vectorsUploaded extractedTextLength ->
  chunksCreated = vectorsUploaded
  /\ 1 <= chunksCreated <= 30
  /\ exists file extractedText chunks,
       request = FormData (Some file)
       /\ extractTextFromFile file = Returned extractedText
       /\ splitDefault extractedText = Some chunks
       /\ chunksCreated = List.length (List.filter isValidText (firstn 30 chunks))
       /\ chunksCreated <= List.length chunks.
Proof.
  intros H Hb.
  destruct (POST_success_inv _ _ H Hb)
    as [file [text [chunks [Hreq [_ [Hex [Hsp Hrest]]]]]]].
  cbv zeta in Hrest.
  destruct Hrest as [Hnz [_ [_ [Hcc [Hvu _]]]]].
  rewrite length_mapi in Hvu.
  assert (Hle : List.length (List.filter isValidText (firstn 30 chunks))
                <= List.length (firstn 30 chunks)) by apply filter_length_le.
  rewrite length_firstn in Hle.
  split; [congruence|]. split; [lia|].
  exists file, text, chunks. repeat split; try assumption. lia.
Qed.

(** C10 at a file of 805 letters: the splitter gives two chunks, of 805
    and of 5 letters; the second fails [isValidText], and the answer
    reports one chunk created and one vector uploaded. *)
Lemma chunksCreated_counts_valid_chunks_witness :
  exists response trace,
    POST (envWith (fun _ _ => EmbedThrows None))
         (FormData (Some (textFile "a.txt" (repeat 97%N 805))))
    = Some (response, trace)
    /\ option_map (@List.length jsstring) (splitDefault (repeat 97%N 805)) = Some 2
    /\ exists message documentId extractedTextLength,
         body response = Success message documentId 1 1 extractedTextLength
         /\ 1 = 1 /\ 1 <= 1 <= 30
         /\ exists file extractedText chunks,
              FormData (Some (textFile "a.txt" (repeat 97%N 805))) = FormData (Some file)
              /\ extractTextFromFile file = Returned extractedText
              /\ splitDefault extractedText = Some chunks
              /\ 1 = List.length (List.filter isValidText (firstn 30 chunks))
              /\ 1 <= List.length chunks.
Proof.
  do 2 eexists. split; [vm_compute; reflexivity|].
  split; [vm_compute; reflexivity|].
  do 3 eexists. split; [reflexivity|].
  eapply (@chunksCreated_counts_valid_chunks
            (envWith (fun _ _ => EmbedThrows None))
            (FormData (Some (textFile "a.txt" (repeat 97%N 805)))));
    [vm_compute; reflexivity|reflexivity].
Defined.

End IngestionOrchestrator.

(* ================================================================== *)
(** * Properties of the analysis handler                               *)
(* ================================================================== *)

Section AnalysisOrchestrator.

Import Analyze.

Lemma startsWith_same_length a : forall b,
  List.length a = List.length b -> startsWith a b = true -> a = b.
Proof.
  induction a as [|x a IH]; intros [|y b] Hl H; simpl in *; try discriminate;
    [reflexivity|].
  apply andb_prop in H as [Hxy H]. apply N.eqb_eq in Hxy. subst y.
  f_equal. apply IH; [lia|exact H].
Qed.

Lemma startsWith_refl a : startsWith a a = true.
Proof. induction a as [|x a IH]; simpl; [reflexivity|]. now rewrite N.eqb_refl. Qed.

Lemma eqb_eq a b : eqb a b = true <-> a = b.
Proof.
  unfold eqb. split.
  - intros H. apply andb_prop in H as [Hl H]. apply Nat.eqb_eq in Hl.
    now apply startsWith_same_length.
  - intros ->. now rewrite Nat.eqb_refl, startsWith_refl.
Qed.


(** The run of the handler for a request whose two fields are present
    and convert to text. *)
Lemma POST_present env (analysisType fileName : Value) :
  missing (Some analysisType) = false ->
  missing (Some fileName) = false ->
  converts env analysisType = true ->
  converts env fileName = true ->
  POST env (Json (Some analysisType) (Some fileName)) =
  let trace := queryTrace env analysisType fileName in
  match queryAnswer env analysisType fileName with
  | Thrown e => (caught e, trace)
  | Returned None => (fail 404 "Document not found in database", trace)
  | Returned (Some matches) =>
      let relevantContent := relevantContentOf matches in
      let prompt := promptFor env analysisType matches in
      match matches with
      | [] => (fail 404 "Document not found in database", trace)
      | _ :: _ =>
          if truthy relevantContent then
            match generateContent env primaryModel prompt with
            | Returned analysis =>
                (json 200 (Success analysis analysisType fileName
                             (List.length matches) None None),
                 trace ++ [GenerateContentCall primaryModel prompt])
            | Thrown _ =>
                match generateContent env fallbackModel prompt with
                | Returned analysis =>
                    (json 200 (Success analysis analysisType fileName
                                 (List.length matches)
                                 (Some (lit "Used fallback model due to primary model unavailability"))
                                 None),
                     trace ++ [GenerateContentCall primaryModel prompt;
                               GenerateContentCall fallbackModel prompt])
                | Thrown _ =>
                    match formatAnalysisType env analysisType with
                    | Thrown e =>
                        (caught e,
                         trace ++ [GenerateContentCall primaryModel prompt;
                                   GenerateContentCall fallbackModel prompt])
                    | Returned label =>
                        (json 200 (Success
                                     (basicAnalysis (textOf env fileName) label
                                        (List.length matches) relevantContent)
                                     analysisType fileName (List.length matches) None
                                     (Some (lit "AI analysis unavailable - showing basic content extraction"))),
                         trace ++ [GenerateContentCall primaryModel prompt;
                                   GenerateContentCall fallbackModel prompt])
                    end
                end
            end
          else (fail 404 "No content found for analysis", trace)
      end
  end.
Proof.
  intros Ha Hf Hca Hcf. unfold POST. rewrite Ha, Hf. cbn [orb].
  unfold queryAnswer, queryTrace, queryTextOf, promptFor, textOf, converts in *.
  destruct (toString env analysisType) as [typeText|]; [|discriminate].
  destruct (toString env fileName) as [nameText|]; [|discriminate].
  cbv beta iota zeta.
  destruct (indexQuery env _ 20 fileName) as [[[|m ms]|]|e]; try reflexivity.
  destruct (truthy (relevantContentOf (m :: ms))); [|reflexivity].
  cbn [negb].
  destruct (generateContent env primaryModel _); [reflexivity|].
  destruct (generateContent env fallbackModel _); [reflexivity|].
  destruct (formatAnalysisType env analysisType); reflexivity.
Qed.

(** A field that has no text stops the run at line 78, before any call. *)
Lemma POST_unconvertible env (analysisType fileName : Value) :
  missing (Some analysisType) = false ->
  missing (Some fileName) = false ->
  converts env analysisType && converts env fileName = false ->
  exists e, POST env (Json (Some analysisType) (Some fileName)) = (caught e, []).
Proof.
  intros Ha Hf Hc. unfold POST. rewrite Ha, Hf. cbn [orb].
  unfold converts in Hc.
  destruct (toString env analysisType) as [typeText|e]; [|now exists e].
  destruct (toString env fileName) as [nameText|e]; [discriminate|now exists e].
Qed.

(** C7. When the filtered query answers without matches, be it with an
    empty list or with none at all, the handler answers 404 with the
    not-found error and calls no model. *)
Theorem no_matches_is_not_found
    (env : Env) (analysisType fileName : Value) :
  missing (Some analysisType) = false ->
  missing (Some fileName) = false ->
  converts env analysisType = true ->
  converts env fileName = true ->
  queryAnswer env analysisType fileName = Returned None
  \/ queryAnswer env analysisType fileName = Returned (Some []) ->
  POST env (Json (Some analysisType) (Some fileName))
  = ({| status := 404;
        body := Failure (lit "Document not found in database") None |},
     queryTrace env analysisType fileName).
Proof.
  intros Ha Hf Hca Hcf Hq. rewrite (POST_present env _ _ Ha Hf Hca Hcf). cbv zeta.
  destruct Hq as [-> | ->]; reflexivity.
Qed.

(** C7 for the request [risks] on [lease.txt] against an empty store. *)
Lemma no_matches_is_not_found_witness :
  POST (envOf (Some []) (Thrown None) (Thrown None))
       (Json (Some (Str (lit "risks"))) (Some (Str (lit "lease.txt"))))
  = ({| status := 404;
        body := Failure (lit "Document not found in database") None |},
     queryTrace (envOf (Some []) (Thrown None) (Thrown None))
       (Str (lit "risks")) (Str (lit "lease.txt"))).
Proof.
  apply no_matches_is_not_found;
    [reflexivity|reflexivity|reflexivity|reflexivity|right; reflexivity].
Defined.









End AnalysisOrchestrator.

(* ================================================================== *)
(** * Ingestion followed by analysis                                   *)
(* ================================================================== *)

Section RoundTrip.

(** *** Decimal renderings *)

Lemma digits_of_uint d :
  Forall (fun c => isDigit c = true) (lit (NilEmpty.string_of_uint d)).
Proof.
  unfold lit. induction d; simpl; constructor; try reflexivity; assumption.
Qed.

Lemma N_to_uint_nonnil n : N.to_uint n <> Decimal.Nil.
Proof.
  destruct n; [discriminate|]. apply DecimalPos.Unsigned.to_uint_nonnil.
Qed.

Lemma decimal_digits n : Forall (fun c => isDigit c = true) (decimal n).
Proof.
  unfold decimal, NilZero.string_of_uint.
  pose proof (N_to_uint_nonnil n) as Hn.
  destruct (N.to_uint n) eqn:E; try apply digits_of_uint. congruence.
Qed.

Lemma lit_inj a b : lit a = lit b -> a = b.
Proof.
  unfold lit. intros H.
  rewrite <- (string_of_list_ascii_of_string a), <- (string_of_list_ascii_of_string b).
  f_equal. revert H.
  generalize (list_ascii_of_string a) (list_ascii_of_string b).
  induction l as [|x l IH]; intros [|y l'] H; simpl in *; try discriminate;
    [reflexivity|].
  injection H as Hxy H. f_equal; [|now apply IH].
  rewrite <- (ascii_N_embedding x), <- (ascii_N_embedding y). now rewrite Hxy.
Qed.

Lemma decimal_inj n m : decimal n = decimal m -> n = m.
Proof.
  unfold decimal. intros H. apply lit_inj in H.
  apply DecimalN.Unsigned.to_uint_inj.
  pose proof (NilZero.usu _ (N_to_uint_nonnil n)) as Hn.
  pose proof (NilZero.usu _ (N_to_uint_nonnil m)) as Hm.
  rewrite H in Hn. congruence.
Qed.

(** Two texts that agree up to and including the first occurrence of a
    separator have the same part before it. *)
Lemma split_at_separator (u : char) a : forall a' b b',
  ~ In u a -> ~ In u a' ->
  a ++ u :: b = a' ++ u :: b' -> a = a'.
Proof.
  induction a as [|x a IH]; intros [|y a'] b b' Ha Ha' H; simpl in *.
  - reflexivity.
  - injection H as -> _. exfalso. apply Ha'. now left.
  - injection H as -> _. exfalso. apply Ha. now left.
  - injection H as -> H. f_equal. apply (IH a' b b'); tauto.
Qed.

Lemma underscore_not_digit n : ~ In 95%N (decimal n).
Proof.
  intros H. pose proof (decimal_digits n) as Hd.
  rewrite Forall_forall in Hd. specialize (Hd _ H). discriminate.
Qed.

(** The ids of one upload differ from chunk to chunk. *)
Lemma makeVector_id_inj env file ext valid embeddings i j c c' :
  id (Upload.makeVector env file ext valid embeddings i c)
  = id (Upload.makeVector env file ext valid embeddings j c') ->
  i = j.
Proof.
  unfold Upload.makeVector; cbn [id]. intros H.
  apply app_inv_head in H. apply app_inv_head in H.
  change (lit "_") with [95%N] in H. cbn [app] in H.
  apply split_at_separator in H; try apply underscore_not_digit.
  apply decimal_inj in H. lia.
Qed.

(** *** Writes *)





(** *** The vectors of one upload *)

Lemma mapi_In {A B : Type} (f : nat -> A -> B) l : forall k y,
  In y (Upload.mapi f k l) -> exists i c, k <= i /\ In c l /\ y = f i c.
Proof.
  induction l as [|x r IH]; intros k y H; simpl in *; [contradiction|].
  destruct H as [<-|H].
  - exists k, x. repeat split; [lia|now left].
  - destruct (IH _ _ H) as [i [c [Hi [Hc ->]]]].
    exists i, c. repeat split; [lia|now right].
Qed.

Lemma vectors_NoDup env file ext valid embeddings l : forall k,
  NoDup (List.map id (Upload.mapi (Upload.makeVector env file ext valid embeddings) k l)).
Proof.
  induction l as [|c r IH]; intros k; simpl; constructor; [|apply IH].
  intros Hin. apply in_map_iff in Hin as [y [Hy Hin]].
  apply mapi_In in Hin as [i [c' [Hi [_ ->]]]].
  apply (@makeVector_id_inj env file ext valid embeddings i k c' c) in Hy. lia.
Qed.

Lemma valid_nonempty text : Upload.isValidText text = true -> truthy text = true.
Proof.
  intros H. apply isValidText_iff in H as [H _].
  destruct text; [simpl in H; lia|reflexivity].
Qed.

(** *** Reading back *)










(** A second upload of the same file, one millisecond later, reports
    [chunksCreated = 1] again, and the store then answers the query for
    that file with two matches. *)
Lemma reupload_adds_records :
  exists response1 trace1 response2 trace2,
    Upload.POST (envAt 1700000000000 (fun _ _ => EmbedThrows None))
      (Upload.FormData (Some (textFile "a.txt" (repeat 97%N 805))))
    = Some (response1, trace1)
    /\ Upload.POST (envAt 1700000000001 (fun _ _ => EmbedThrows None))
         (Upload.FormData (Some (textFile "a.txt" (repeat 97%N 805))))
       = Some (response2, trace2)
    /\ (exists message documentId extractedTextLength,
          Upload.body response2
          = Upload.Success message documentId 1 1 extractedTextLength)
    /\ List.length
         (query rankAsStored (storeAfter trace2 (storeAfter trace1 [])) [] 20
            (lit "a.txt"))
       = 2.
Proof.
  do 4 eexists. split; [vm_compute; reflexivity|].
  split; [vm_compute; reflexivity|].
  split; [do 3 eexists; reflexivity|].
  vm_compute; reflexivity.
Qed.

End RoundTrip.

(* ================================================================== *)
(** * Further properties of the text splitter                          *)
(* ================================================================== *)

Section ChunkerShape.

Import Upload.

Lemma trimStart_suffix s : exists a, s = a ++ trimStart s.
Proof.
  induction s as [|c r [a IH]]; simpl; [now exists []|].
  destruct (isWhiteSpace c); [|now exists []].
  exists (c :: a). simpl. now f_equal.
Qed.

Lemma trimEnd_prefix s : exists b, s = trimEnd s ++ b.
Proof.
  induction s as [|c r [b IH]]; simpl; [now exists []|].
  destruct (trimEnd r) as [|x r'] eqn:E.
  - destruct (isWhiteSpace c).
    + exists (c :: r). reflexivity.
    + exists r. reflexivity.
  - exists b. simpl. f_equal. exact IH.
Qed.

Lemma contains_trim s : contains s (trim s).
Proof.
  unfold contains, trim.
  destruct (trimStart_suffix s) as [a Ha].
  destruct (trimEnd_prefix (trimStart s)) as [b Hb].
  exists a, b. now rewrite <- Hb.
Qed.

Lemma contains_slice text from to : contains text (slice text from to).
Proof.
  unfold contains, slice.
  set (f := Z.to_nat (relIndex text from)).
  set (n := Z.to_nat (relIndex text to - relIndex text from)).
  exists (firstn f text), (skipn n (skipn f text)).
  now rewrite (firstn_skipn n), (firstn_skipn f).
Qed.

Lemma contains_trans a b c : contains a b -> contains b c -> contains a c.
Proof.
  intros [x [y ->]] [u [v ->]]. exists (x ++ u), (v ++ y).
  now rewrite <- !app_assoc.
Qed.

Lemma length_trimStart s : List.length (trimStart s) <= List.length s.
Proof.
  induction s as [|c r IH]; simpl; [lia|].
  destruct (isWhiteSpace c); simpl; lia.
Qed.

Lemma length_trimEnd s : List.length (trimEnd s) <= List.length s.
Proof.
  induction s as [|c r IH]; simpl; [lia|].
  destruct (trimEnd r); [destruct (isWhiteSpace c)|]; simpl in *; lia.
Qed.

Lemma length_trim s : List.length (trim s) <= List.length s.
Proof.
  unfold trim. pose proof (length_trimEnd (trimStart s)).
  pose proof (length_trimStart s). lia.
Qed.

(** What the splitter returns is read off the windows of its loop. *)
Lemma splitTextIntoChunks_windows fuel text chunkSize overlap chunks :
  splitTextIntoChunks fuel text chunkSize overlap = Some chunks ->
  exists ws,
    splitWindows fuel text chunkSize overlap 0 = Some ws
    /\ chunks = List.filter nonEmpty (List.map (chunkOfWindow text) ws).
Proof.
  unfold splitTextIntoChunks. rewrite splitLoop_windows.
  destruct (splitWindows fuel text chunkSize overlap 0) as [ws|]; [|discriminate].
  simpl. intros [= <-]. now exists ws.
Qed.

(** X1. The chunks returned are not empty and carry no white space at either
    end, whatever the parameters. *)
Theorem chunks_nonempty_and_trimmed
    (fuel : nat) (text : jsstring) (chunkSize overlap : Z) (chunks : list jsstring) :
  splitTextIntoChunks fuel text chunkSize overlap = Some chunks ->
  Forall (fun c => c <> [] /\ trim c = c) chunks.
Proof.
  intros H. destruct (splitTextIntoChunks_windows _ _ _ _ H) as [ws [_ ->]].
  apply Forall_forall. intros c Hc. apply filter_In in Hc as [Hin Hne].
  apply in_map_iff in Hin as [w [<- _]]. split.
  - intros E. rewrite E in Hne. discriminate.
  - apply trim_idem.
Qed.

Lemma chunks_nonempty_and_trimmed_witness :
  Forall (fun c => c <> [] /\ trim c = c) [lit "ab"; lit "b c"; lit "cd"].
Proof.
  apply (@chunks_nonempty_and_trimmed 6 (lit "ab cd") 3 1). reflexivity.
Defined.

(** X2. Every chunk returned is a contiguous part of the text. *)
Theorem chunks_occur_in_text
    (fuel : nat) (text : jsstring) (chunkSize overlap : Z) (chunks : list jsstring) :
  splitTextIntoChunks fuel text chunkSize overlap = Some chunks ->
  Forall (contains text) chunks.
Proof.
  intros H. destruct (splitTextIntoChunks_windows _ _ _ _ H) as [ws [_ ->]].
  apply Forall_forall. intros c Hc. apply filter_In in Hc as [Hin _].
  apply in_map_iff in Hin as [w [<- _]]. unfold chunkOfWindow.
  eapply contains_trans; [apply contains_slice|apply contains_trim].
Qed.

Lemma chunks_occur_in_text_witness :
  Forall (contains (lit "ab cd")) [lit "ab"; lit "b c"; lit "cd"].
Proof.
  apply (@chunks_occur_in_text 6 (lit "ab cd") 3 1). reflexivity.
Defined.

End ChunkerShape.

(* ================================================================== *)
(** * Bounds of the text splitter                                      *)
(* ================================================================== *)

Section ChunkerBounds.

Import Upload.

Open Scope Z_scope.

Lemma lastIndexOf_scan_le c l : forall i bound acc,
  acc <= bound -> lastIndexOf_scan c l i bound acc <= bound.
Proof.
  induction l as [|x r IH]; intros i bound acc H; simpl; [exact H|].
  apply IH. destruct (Z.leb_spec i bound); simpl; [|exact H].
  destruct (x =? c)%N; lia.
Qed.

Lemma lastIndexOf_le text c pos : 0 <= pos -> lastIndexOf text c pos <= pos.
Proof.
  intros H. unfold lastIndexOf. rewrite Z.max_l by lia.
  apply lastIndexOf_scan_le. lia.
Qed.

(** A chunk ends at most one unit past [start + chunkSize]. *)
Lemma chunkEnd_le text chunkSize start :
  0 <= start + chunkSize ->
  chunkEnd text chunkSize start <= start + chunkSize + 1.
Proof.
  intros H. unfold chunkEnd.
  pose proof (lastIndexOf_le text DOT H).
  pose proof (lastIndexOf_le text SPACE H).
  destruct (start + chunkSize <? len text); [|lia].
  destruct (2 * start + chunkSize <? 2 * lastIndexOf text DOT (start + chunkSize)); [lia|].
  destruct (2 * start + chunkSize <? 2 * lastIndexOf text SPACE (start + chunkSize)); lia.
Qed.

Lemma length_slice text s e :
  0 <= s -> 0 <= e -> Z.of_nat (List.length (slice text s e)) <= Z.max (e - s) 0.
Proof.
  intros Hs He. unfold slice, relIndex.
  destruct (Z.ltb_spec s 0); [lia|]. destruct (Z.ltb_spec e 0); [lia|].
  rewrite length_firstn. unfold len. lia.
Qed.

Lemma windows_bounded text chunkSize overlap :
  0 <= chunkSize -> overlap < chunkSize -> 2 * overlap <= chunkSize ->
  forall fuel start ws,
    0 <= start ->
    splitWindows fuel text chunkSize overlap start = Some ws ->
    Forall (fun w => 0 <= fst w /\ 0 <= snd w /\ snd w - fst w <= chunkSize + 1) ws.
Proof.
  intros H0 H1 H2. induction fuel as [|fuel IH]; intros start ws Hs H; [discriminate|].
  simpl in H. destruct (Z.ltb_spec start (len text)) as [Hlt|Hge].
  - pose proof (cursor_advances text start H1 H2) as Hadv.
    pose proof (@chunkEnd_le text chunkSize start ltac:(lia)) as Hle.
    pose proof (chunkEnd_cases text chunkSize start) as Hc.
    destruct (splitWindows fuel text chunkSize overlap
                (chunkEnd text chunkSize start - overlap)) as [ws'|] eqn:E;
      [|discriminate].
    injection H as <-. constructor; [simpl; lia|].
    apply (IH (chunkEnd text chunkSize start - overlap)); [lia|exact E].
  - injection H as <-. constructor.
Qed.

(** X3. With [0 <= chunkSize], [overlap < chunkSize] and
    [2 * overlap <= chunkSize] no chunk is longer than [chunkSize + 1]:
    a sentence boundary found at index [start + chunkSize] itself is
    accepted, and the chunk then takes the full stop in. *)
Theorem chunks_at_most_chunkSize_plus_one
    (fuel : nat) (text : jsstring) (chunkSize overlap : Z) (chunks : list jsstring) :
  0 <= chunkSize -> overlap < chunkSize -> 2 * overlap <= chunkSize ->
  splitTextIntoChunks fuel text chunkSize overlap = Some chunks ->
  Forall (fun c => Z.of_nat (List.length c) <= chunkSize + 1) chunks.
Proof.
  intros H0 H1 H2 H.
  destruct (splitTextIntoChunks_windows _ _ _ _ H) as [ws [Hws ->]].
  pose proof (@windows_bounded text chunkSize overlap H0 H1 H2 _ 0 ws (Z.le_refl 0) Hws) as Hb.
  rewrite Forall_forall in Hb.
  apply Forall_forall. intros c Hc. apply filter_In in Hc as [Hin _].
  apply in_map_iff in Hin as [[s e] [<- Hw]].
  destruct (Hb _ Hw) as [Hs [He Hd]]. simpl in *.
  unfold chunkOfWindow; simpl.
  pose proof (length_trim (slice text s e)).
  pose proof (@length_slice text s e Hs He). lia.
Qed.

(** The bound is reached: with [chunkSize = 4] the first chunk of
    [abcd.efgh] has five units. *)
Lemma chunks_at_most_chunkSize_plus_one_witness :
  0 <= 4 /\ 0 < 4 /\ 2 * 0 <= 4
  /\ splitTextIntoChunks 10 (lit "abcd.efgh") 4 0 = Some [lit "abcd."; lit "efgh"]
  /\ Forall (fun c => Z.of_nat (List.length c) <= 4 + 1) [lit "abcd."; lit "efgh"].
Proof.
  split; [lia|]. split; [lia|]. split; [lia|]. split; [reflexivity|].
  apply (@chunks_at_most_chunkSize_plus_one 10 (lit "abcd.efgh") 4 0); try lia.
  reflexivity.
Defined.

(** X4. A non-empty text of at most [chunkSize] and at most
    [chunkSize - overlap] units is returned as one chunk, trimmed; no
    boundary is looked for. *)
Theorem short_text_is_one_chunk
    (fuel : nat) (text : jsstring) (chunkSize overlap : Z) :
  0 < len text -> len text <= chunkSize -> len text <= chunkSize - overlap ->
  splitTextIntoChunks (S (S fuel)) text chunkSize overlap
  = Some (List.filter nonEmpty [trim text]).
Proof.
  intros Hpos Hc Ho. unfold splitTextIntoChunks. cbn [splitLoop].
  destruct (Z.ltb_spec 0 (len text)); [|lia].
  assert (He : chunkEnd text chunkSize 0 = chunkSize).
  { unfold chunkEnd. simpl Z.add. destruct (Z.ltb_spec chunkSize (len text)); [lia|reflexivity]. }
  rewrite He. destruct (Z.ltb_spec (chunkSize - overlap) (len text)); [lia|].
  cbn [option_map app].
  unfold slice, relIndex. simpl (0 <? 0). cbn iota.
  destruct (Z.ltb_spec chunkSize 0); [lia|].
  rewrite (Z.min_l 0) by lia. rewrite (Z.min_r chunkSize) by lia. simpl skipn.
  rewrite Z.sub_0_r. unfold len. rewrite Nat2Z.id. now rewrite firstn_all.
Qed.

Lemma short_text_is_one_chunk_witness :
  splitTextIntoChunks 2 (lit " A short note. ") 1000 200
  = Some (List.filter nonEmpty [trim (lit " A short note. ")]).
Proof.
  apply (@short_text_is_one_chunk 0 (lit " A short note. ") 1000 200);
    unfold len; simpl; lia.
Defined.

(** The empty text gives no chunk, whatever the parameters. *)
Lemma empty_text_no_chunks fuel chunkSize overlap :
  splitTextIntoChunks (S fuel) [] chunkSize overlap = Some [].
Proof. reflexivity. Qed.

Close Scope Z_scope.

End ChunkerBounds.

(* ================================================================== *)
(** * The form of normalised text                                      *)
(* ================================================================== *)

Section NormaliserShape.

Import Upload.

Ltac cases_on_tests :=
  repeat match goal with
  | |- context [N.leb ?a ?b] => destruct (N.leb_spec a b)
  | |- context [N.eqb ?a ?b] => destruct (N.eqb_spec a b)
  | H : context [N.leb ?a ?b] |- _ => destruct (N.leb_spec a b)
  | H : context [N.eqb ?a ?b] |- _ => destruct (N.eqb_spec a b)
  end.

Lemma printable_untouched c : isAsciiPrintable c = true -> untouched c = true.
Proof.
  unfold untouched. intros H. rewrite H. simpl. rewrite andb_true_r.
  revert H. unfold isAsciiPrintable, isControl, between.
  cases_on_tests; simpl; intros; try reflexivity; try discriminate; lia.
Qed.

Lemma printable_space c :
  isAsciiPrintable c = true -> isWhiteSpace c = true -> c = SPACE.
Proof.
  intros Hp Hw. unfold isAsciiPrintable, between in Hp.
  apply andb_prop in Hp as [H1 H2]. apply N.leb_le in H1, H2.
  unfold isWhiteSpace, between in Hw.
  repeat (apply orb_prop in Hw as [Hw|Hw]);
    try (apply N.eqb_eq in Hw);
    try (apply andb_prop in Hw as [Ha Hb]; apply N.leb_le in Ha, Hb);
    unfold SPACE; lia.
Qed.

Lemma untouched_printable c :
  untouched c = true -> (isWhiteSpace c = true -> c = SPACE) ->
  isAsciiPrintable c = true.
Proof.
  unfold untouched. intros H Hw. apply andb_prop in H as [_ H].
  apply orb_prop in H as [H|H]; [exact H|]. now rewrite (Hw H).
Qed.

Lemma singleSpaced_spaces b s :
  singleSpaced b s = true ->
  Forall (fun c => isWhiteSpace c = true -> c = SPACE) s.
Proof.
  revert b; induction s as [|c r IH]; intros b H; simpl in H; constructor.
  - intros Hw. rewrite Hw in H. apply andb_prop in H as [H _].
    apply andb_prop in H as [H _]. now apply N.eqb_eq in H.
  - destruct (isWhiteSpace c).
    + apply andb_prop in H as [_ H]. exact (IH _ H).
    + exact (IH _ H).
Qed.

Lemma singleSpaced_no_double b a r :
  singleSpaced b (a ++ [SPACE; SPACE] ++ r) = false.
Proof.
  revert b; induction a as [|c a IH]; intros b; simpl.
  - now rewrite andb_false_r.
  - destruct (isWhiteSpace c); [|apply IH].
    simpl in IH. rewrite IH. apply andb_false_r.
Qed.

Lemma no_double_singleSpaced s : forall b,
  Forall (fun c => isAsciiPrintable c = true) s ->
  (forall a r, s <> a ++ [SPACE; SPACE] ++ r) ->
  (b = true -> noLeadingSpace s = true) ->
  singleSpaced b s = true.
Proof.
  induction s as [|c s IH]; intros b Hp Hd Hb; simpl; [reflexivity|].
  inversion Hp as [|? ? Hc Hs]; subst.
  assert (Hd' : forall a r, s <> a ++ [SPACE; SPACE] ++ r).
  { intros a r E. apply (Hd (c :: a) r). simpl. now f_equal. }
  destruct (isWhiteSpace c) eqn:Ew.
  - rewrite (printable_space c Hc Ew). simpl.
    destruct b.
    + specialize (Hb eq_refl). simpl in Hb. now rewrite Ew in Hb.
    + simpl. apply IH; try assumption. intros _.
      destruct s as [|x s']; [reflexivity|]. simpl.
      destruct (isWhiteSpace x) eqn:Ex; [|reflexivity].
      inversion Hs; subst.
      exfalso. apply (Hd [] s'). simpl.
      now rewrite (printable_space c Hc Ew), (printable_space x) by assumption.
  - apply IH; try assumption. discriminate.
Qed.

Lemma cleanText_trimmed s : trim (cleanText s) = cleanText s.
Proof. unfold cleanText. apply trim_idem. Qed.

Lemma normalised_of_normal s :
  Forall (fun c => untouched c = true) s ->
  singleSpaced false s = true ->
  trim s = s ->
  normalised s.
Proof.
  intros Hu Hs Ht. repeat split.
  - pose proof (singleSpaced_spaces _ _ Hs) as Hw.
    rewrite Forall_forall in *. intros c Hc.
    apply untouched_printable; [now apply Hu|now apply Hw].
  - exact Ht.
  - intros a b E. rewrite E in Hs. now rewrite singleSpaced_no_double in Hs.
Qed.

(** X5. What [cleanText] returns is normalised: printable ASCII only, no
    white space at either end and no two spaces in a row. *)
Theorem cleanText_normalised (s : jsstring) : normalised (cleanText s).
Proof.
  destruct (cleanText_normal s) as [Hu Hs].
  apply normalised_of_normal; [exact Hu|exact Hs|apply cleanText_trimmed].
Qed.

(** X6. The texts that [cleanText] leaves as they are, are exactly the
    normalised ones. *)
Theorem cleanText_fixed_iff_normalised (s : jsstring) :
  cleanText s = s <-> normalised s.
Proof.
  split.
  - intros <-. destruct (cleanText_normal s) as [Hu Hs].
    apply normalised_of_normal; [exact Hu|exact Hs|apply cleanText_trimmed].
  - intros [Hp [Ht Hd]]. unfold cleanText.
    rewrite replacements_fixed.
    + unfold collapseWhiteSpace. rewrite collapseRuns_fixed; [exact Ht|].
      apply no_double_singleSpaced; [assumption|assumption|discriminate].
    + eapply Forall_impl; [|exact Hp]. apply printable_untouched.
Qed.

Lemma cleanText_fixed_iff_normalised_witness : normalised (lit "a b, c.").
Proof.
  apply (proj1 (cleanText_fixed_iff_normalised (lit "a b, c."))). reflexivity.
Defined.

Lemma length_collapseRuns b s : List.length (collapseRuns b s) <= List.length s.
Proof.
  revert b; induction s as [|c r IH]; intros b; simpl; [lia|].
  pose proof (IH true). pose proof (IH false).
  destruct (isWhiteSpace c); [destruct b|]; simpl; lia.
Qed.

(** X7. [cleanText] never makes a text longer. *)
Theorem cleanText_never_longer (s : jsstring) :
  List.length (cleanText s) <= List.length s.
Proof.
  unfold cleanText, collapseWhiteSpace.
  pose proof (length_trim (collapseRuns false (replaceNonPrintable (replaceControl s)))).
  pose proof (length_collapseRuns false (replaceNonPrintable (replaceControl s))).
  unfold replaceNonPrintable, replaceControl in *.
  rewrite !length_map in *. lia.
Qed.

Lemma collapseRuns_blank s :
  Forall (fun c => isWhiteSpace c = true) s ->
  collapseRuns true s = [] /\ (collapseRuns false s = [] \/ collapseRuns false s = [SPACE]).
Proof.
  induction 1 as [|c r Hc _ [IH1 IH2]]; simpl; [now split; [|left]|].
  rewrite Hc, IH1. split; [reflexivity|now right].
Qed.

(** X8. A text without any printable ASCII character other than the space
    is cleaned to the empty text, which [isValidText] rejects. *)
Theorem cleanText_blank (s : jsstring) :
  Forall (fun c => isAsciiPrintable c = false \/ c = SPACE) s ->
  cleanText s = [] /\ isValidText (cleanText s) = false.
Proof.
  intros H.
  assert (Hw : Forall (fun c => isWhiteSpace c = true)
                 (replaceNonPrintable (replaceControl s))).
  { unfold replaceNonPrintable, replaceControl. rewrite map_map.
    apply Forall_forall. intros c Hc. apply in_map_iff in Hc as [x [<- Hx]].
    rewrite Forall_forall in H. specialize (H x Hx).
    destruct (isControl x); [reflexivity|].
    destruct H as [H| ->]; [|reflexivity].
    rewrite H. simpl. now destruct (isWhiteSpace x) eqn:E. }
  assert (E : cleanText s = []).
  { unfold cleanText, collapseWhiteSpace.
    destruct (collapseRuns_blank Hw) as [_ [-> | ->]]; reflexivity. }
  rewrite E. now split.
Qed.

Lemma cleanText_blank_witness :
  cleanText [0%N; 9%N; 200%N; 32%N; 65533%N] = []
  /\ isValidText (cleanText [0%N; 9%N; 200%N; 32%N; 65533%N]) = false.
Proof.
  apply cleanText_blank. repeat constructor; now left.
Defined.

End NormaliserShape.

(* ================================================================== *)
(** * Text extraction                                                  *)
(* ================================================================== *)

Section Extraction.

Import Upload.

Lemma cleanText_stable s : cleanText (cleanText s) = cleanText s.
Proof.
  destruct (cleanText_normal s) as [Hc Hs].
  unfold cleanText at 1. rewrite (replacements_fixed Hc).
  unfold collapseWhiteSpace. rewrite (collapseRuns_fixed _ _ Hs).
  apply cleanText_trimmed.
Qed.

(** X9. Whatever [extractTextFromFile] returns has been decoded as UTF-8
    without error, is the cleaned text of one of the two decodings, is
    left unchanged by [cleanText] and passes [isValidText]. *)
Theorem extracted_text_is_clean_and_valid (file : File) (text : jsstring) :
  extractTextFromFile file = Returned text ->
  isValidText text = true
  /\ cleanText text = text
  /\ exists decoded,
       utf8 file = Some decoded
       /\ (text = cleanText decoded \/ text = cleanText (latin1 file)).
Proof.
  unfold extractTextFromFile.
  destruct (eqb (type file) (lit "application/pdf") || endsWith (name file) (lit ".pdf"));
    [discriminate|].
  destruct (eqb (type file) (lit "text/plain") || endsWith (name file) (lit ".txt")).
  - destruct (utf8 file) as [decoded|]; [|discriminate].
    destruct (isValidText (cleanText decoded)) eqn:E1.
    + intros [= <-]. repeat split; [exact E1|apply cleanText_stable|].
      exists decoded. split; [reflexivity|now left].
    + destruct (isValidText (cleanText (latin1 file))) eqn:E2; [|discriminate].
      intros [= <-]. repeat split; [exact E2|apply cleanText_stable|].
      exists decoded. split; [reflexivity|now right].
  - destruct (endsWith (name file) (lit ".docx")); [discriminate|].
    destruct (endsWith (name file) (lit ".doc")); discriminate.
Qed.

Lemma extracted_text_is_clean_and_valid_witness :
  isValidText (lit "Hello, world.") = true
  /\ cleanText (lit "Hello, world.") = lit "Hello, world."
  /\ exists decoded,
       utf8 (textFile "a.txt" (lit "  Hello,   world. ")) = Some decoded
       /\ (lit "Hello, world." = cleanText decoded
           \/ lit "Hello, world."
              = cleanText (latin1 (textFile "a.txt" (lit "  Hello,   world. ")))).
Proof.
  apply (@extracted_text_is_clean_and_valid
           (textFile "a.txt" (lit "  Hello,   world. ")) (lit "Hello, world.")).
  reflexivity.
Defined.

End Extraction.

(* ================================================================== *)
(** * Runs of the upload handler                                       *)
(* ================================================================== *)

Section UploadHandlerRuns.

Import Upload.

Lemma trim_fixed_head c r : trim (c :: r) = c :: r -> isWhiteSpace c = false.
Proof.
  intros H. destruct (isWhiteSpace c) eqn:E; [|reflexivity]. exfalso.
  apply (f_equal (@List.length char)) in H. unfold trim in H. simpl in H.
  rewrite E in H.
  pose proof (length_trimEnd (trimStart r)). pose proof (length_trimStart r). lia.
Qed.

Lemma trim_head_kept c r : isWhiteSpace c = false -> trim (c :: r) <> [].
Proof.
  intros E. unfold trim. simpl. rewrite E. simpl.
  destruct (trimEnd r); [rewrite E|]; discriminate.
Qed.

(** A non-empty text without leading white space has a first chunk. *)
Lemma splitDefault_has_chunk text chunks :
  trim text = text -> text <> [] ->
  splitDefault text = Some chunks -> chunks <> [].
Proof.
  intros Ht Hne. destruct text as [|c r]; [congruence|].
  pose proof (trim_fixed_head Ht) as Hc.
  unfold splitDefault, splitTextIntoChunks. cbn [splitLoop].
  destruct (Z.ltb_spec 0 (len (c :: r))) as [_|H]; [|unfold len in H; simpl in H; lia].
  rewrite splitLoop_windows.
  destruct (splitWindows _ _ _ _ _) as [ws|]; [|discriminate].
  simpl option_map. intros [= <-].
  set (e := chunkEnd (c :: r) 1000 0).
  assert (He : (1 <= e)%Z).
  { destruct (chunkEnd_cases (c :: r) 1000 0); fold e in H; lia. }
  assert (Hs : exists x, slice (c :: r) 0 e = c :: x).
  { unfold slice, relIndex. change (0 <? 0)%Z with false. cbv iota.
    destruct (Z.ltb_spec e 0); [lia|].
    rewrite (Z.min_l 0) by (unfold len; lia). simpl skipn.
    destruct (Z.to_nat (Z.min e (len (c :: r)) - 0)) eqn:En.
    - unfold len in En. simpl in En. lia.
    - simpl. now eexists. }
  destruct Hs as [x Hx]. simpl. rewrite Hx.
  pose proof (@trim_head_kept c x Hc) as Hk.
  destruct (trim (c :: x)); [congruence|]. simpl. discriminate.
Qed.

Lemma filter_idem {A : Type} (f : A -> bool) l :
  List.filter f (List.filter f l) = List.filter f l.
Proof.
  induction l as [|x r IH]; simpl; [reflexivity|].
  destruct (f x) eqn:E; simpl; [rewrite E; now f_equal|exact IH].
Qed.

Lemma generateEmbeddings_length env texts :
  List.length (fst (generateEmbeddings env texts)) = List.length texts.
Proof.
  unfold generateEmbeddings.
  destruct (embedLoop_spec env texts [] world0) as [vs [H1 [_ H3]]].
  rewrite H1. simpl. symmetry. exact (Forall2_length H3).
Qed.

Lemma generateEmbeddings_log_valid env texts :
  embedLog (snd (generateEmbeddings env (List.filter isValidText texts)))
  = List.filter isValidText texts.
Proof.
  unfold generateEmbeddings.
  destruct (embedLoop_spec env (List.filter isValidText texts) [] world0)
    as [vs [_ [H2 _]]].
  rewrite H2. simpl. apply filter_idem.
Qed.

Lemma extract_valid_clean file text :
  extractTextFromFile file = Returned text ->
  isValidText text = true /\ trim text = text.
Proof.
  unfold extractTextFromFile.
  destruct (_ || _); [discriminate|].
  destruct (_ || _).
  - destruct (utf8 file) as [decoded|]; [|discriminate].
    destruct (isValidText (cleanText decoded)) eqn:E1.
    + intros [= <-]. split; [exact E1|apply cleanText_trimmed].
    + destruct (isValidText (cleanText (latin1 file))) eqn:E2; [|discriminate].
      intros [= <-]. split; [exact E2|apply cleanText_trimmed].
  - destruct (endsWith (name file) (lit ".docx")); [discriminate|].
    destruct (endsWith (name file) (lit ".doc")); discriminate.
Qed.

(** The run of the handler once the text has been extracted: the checks
    that repeat what the extraction and the splitter have made sure of
    are gone. *)
Lemma POST_after_extraction env file text :
  (5 * 1024 * 1024 <? size file)%Z = false ->
  eqb (DOT :: toLowerCase (lastSegment (name file) [])) (lit ".txt") = true ->
  extractTextFromFile file = Returned text ->
  exists chunks,
    splitDefault text = Some chunks
    /\ POST env (FormData (Some file)) =
       Some
         (if (List.length text <? 50)%nat
          then (fail 400 "Extracted text is too short. Please check if the file contains readable text.", [])
          else
            let valid := List.filter isValidText (firstn 30 chunks) in
            let calls := List.map EmbedContentCall valid in
            let vectors :=
              mapi (makeVector env file (lit ".txt") valid
                      (fst (generateEmbeddings env valid))) 0 valid in
            if (List.length valid =? 0)%nat
            then (fail 400 "No valid text chunks could be created from the document", [])
            else
              match describeIndex env with
              | Thrown _ =>
                  (json 404
                     (Failure
                        (lit "Pinecone index not found. Please create an index named 'LegalDoc' with 768 dimensions in your Pinecone console.")
                        (Some (lit "Go to https://app.pinecone.io/ and create an index with dimensions: 768, metric: cosine"))),
                   calls ++ [DescribeIndexCall])
              | Returned _ =>
                  match indexUpsert env vectors with
                  | Thrown e => (caught e, calls ++ [DescribeIndexCall; UpsertCall vectors])
                  | Returned _ =>
                      (json 200
                         (Success (lit "Document uploaded and processed successfully")
                            (name file) (List.length valid) (List.length valid)
                            (List.length text)),
                       calls ++ [DescribeIndexCall; UpsertCall vectors])
                  end
              end).
Proof.
  intros Hsize Hext Hex.
  destruct (extract_valid_clean _ Hex) as [Hv Ht].
  pose proof (valid_nonempty _ Hv) as Hne.
  destruct (splitDefault_returns text) as [chunks Hsp].
  exists chunks. split; [exact Hsp|].
  unfold POST. rewrite Hsize, Hext, Hex. change (negb true) with false. cbv iota.
  rewrite Ht, Hne, Hv. change (negb true) with false. cbv iota.
  destruct (List.length text <? 50)%nat eqn:E50; [reflexivity|].
  rewrite Hsp.
  assert (Hch : chunks <> []).
  { apply (@splitDefault_has_chunk text); try assumption. now destruct text. }
  destruct chunks as [|c0 cs]; [congruence|].
  change (List.length (c0 :: cs) =? 0)%nat with false. cbv iota zeta.
  set (valid := List.filter isValidText (firstn 30 (c0 :: cs))).
  destruct (List.length valid =? 0)%nat; [reflexivity|].
  destruct (generateEmbeddings env valid) as [embeddings w] eqn:Eg.
  pose proof (generateEmbeddings_length env valid) as Hl. rewrite Eg in Hl. simpl in Hl.
  rewrite Hl, Nat.eqb_refl. change (negb true) with false. cbv iota.
  pose proof (generateEmbeddings_log_valid env (firstn 30 (c0 :: cs))) as Hlog.
  fold valid in Hlog. rewrite Eg in Hlog. simpl in Hlog. rewrite Hlog.
  apply eqb_eq in Hext. rewrite Hext.
  cbn [fst]. rewrite length_mapi.
  destruct (describeIndex env); [|reflexivity].
  destruct (indexUpsert env _); reflexivity.
Qed.

End UploadHandlerRuns.

Section UploadHandlerAnswers.

Import Upload.

Ltac literal_mismatch :=
  match goal with
  | E : Some (lit _) = Some (lit _) |- _ =>
      let E' := fresh "E" in
      assert (E' := f_equal (fun o => match o with Some x => x | None => [] end) E);
      cbv beta iota in E'; apply lit_inj in E'; discriminate E'
  | E : None = Some _ |- _ => discriminate E
  end.

Ltac settled m Hm :=
  intros m Hm E; unfold settledChecks in Hm; cbn [In] in Hm;
  cbn [errorOf body json fail caught] in E;
  destruct Hm as [<-|[<-|[<-|[<-|[]]]]]; literal_mismatch.

(** X10. The handler never answers with the error of one of its four settled
    checks: empty extracted text, unreadable extracted text, no chunk,
    or an embedding count that differs from the chunk count. *)
Theorem settled_checks_never_fire
    (env : Env) (request : Request) (response : Response) (trace : list Event) :
  POST env request = Some (response, trace) ->
  forall m, In m settledChecks -> errorOf response <> Some m.
Proof.
  intros H. destruct request as [e|[file|]].
  - injection H as <- _. settled m Hm.
  - destruct (5 * 1024 * 1024 <? size file)%Z eqn:Es.
    { unfold POST in H. rewrite Es in H. injection H as <- _. settled m Hm. }
    destruct (eqb (DOT :: toLowerCase (lastSegment (name file) [])) (lit ".txt")) eqn:Ee.
    2:{ unfold POST in H. rewrite Es, Ee in H. injection H as <- _. settled m Hm. }
    destruct (extractTextFromFile file) as [text|e] eqn:Ex.
    2:{ unfold POST in H. rewrite Es, Ee, Ex in H. injection H as <- _. settled m Hm. }
    destruct (POST_after_extraction env file Es Ee Ex) as [chunks [_ Hrun]].
    rewrite Hrun in H. clear Hrun. cbv zeta in H.
    destruct (List.length text <? 50)%nat; [injection H as <- _; settled m Hm|].
    destruct (List.length _ =? 0)%nat; [injection H as <- _; settled m Hm|].
    destruct (describeIndex env); [|injection H as <- _; settled m Hm].
    destruct (indexUpsert env _); injection H as <- _; settled m Hm.
  - injection H as <- _. settled m Hm.
Qed.

(** The run on a text that is too short: the answer is that of the
    length check, not of a settled one. *)
Lemma settled_checks_never_fire_witness :
  POST (envWith (fun _ _ => EmbedThrows None))
       (FormData (Some (textFile "a.txt" (lit "Much too short."))))
  = Some (fail 400 "Extracted text is too short. Please check if the file contains readable text.", [])
  /\ In (lit "No chunks could be created from the document") settledChecks
  /\ errorOf (fail 400 "Extracted text is too short. Please check if the file contains readable text.")
     <> Some (lit "No chunks could be created from the document").
Proof.
  split; [reflexivity|]. split; [right; right; left; reflexivity|].
  apply (@settled_checks_never_fire (envWith (fun _ _ => EmbedThrows None))
           (FormData (Some (textFile "a.txt" (lit "Much too short."))))
           _ [] eq_refl).
  right; right; left; reflexivity.
Defined.

Lemma vectors_content env file ext all embeddings l : forall k,
  List.map (fun v => content (metadata v))
    (mapi (makeVector env file ext all embeddings) k l) = l.
Proof. induction l as [|c r IH]; intros k; simpl; [reflexivity|]. now rewrite IH. Qed.

(** X11. An answer with status 400 is given before anything outside the
    handler is called; and the index is written at most once, as the
    last call, after the index has been found and after one embedding
    call for each record written. *)
Theorem upload_calls_in_order
    (env : Env) (request : Request) (response : Response) (trace : list Event) :
  POST env request = Some (response, trace) ->
  (status response = 400%Z -> trace = [])
  /\ forall vectors, In (UpsertCall vectors) trace ->
       exists texts found,
         trace = List.map EmbedContentCall texts ++ [DescribeIndexCall; UpsertCall vectors]
         /\ List.map (fun v => content (metadata v)) vectors = texts
         /\ describeIndex env = Returned found.
Proof.
  intros H.
  assert (Hnone : forall st b, (response, trace) = (json st b, []) ->
            (status response = 400%Z -> trace = [])
            /\ forall vectors, In (UpsertCall vectors) trace ->
                 exists texts found,
                   trace = List.map EmbedContentCall texts
                           ++ [DescribeIndexCall; UpsertCall vectors]
                   /\ List.map (fun v => content (metadata v)) vectors = texts
                   /\ describeIndex env = Returned found).
  { intros st b [= -> ->]. split; [reflexivity|intros v []]. }
  destruct request as [e|[file|]]; try (injection H as <- <-; eapply Hnone; reflexivity).
  destruct (5 * 1024 * 1024 <? size file)%Z eqn:Es.
  { unfold POST in H. rewrite Es in H. injection H as <- <-. eapply Hnone; reflexivity. }
  destruct (eqb (DOT :: toLowerCase (lastSegment (name file) [])) (lit ".txt")) eqn:Ee.
  2:{ unfold POST in H. rewrite Es, Ee in H. injection H as <- <-. eapply Hnone; reflexivity. }
  destruct (extractTextFromFile file) as [text|e] eqn:Ex.
  2:{ unfold POST in H. rewrite Es, Ee, Ex in H. injection H as <- <-. eapply Hnone; reflexivity. }
  destruct (POST_after_extraction env file Es Ee Ex) as [chunks [_ Hrun]].
  rewrite Hrun in H. clear Hrun Hnone. cbv zeta in H.
  destruct (List.length text <? 50)%nat;
    [injection H as <- <-; split; [reflexivity|intros v []]|].
  destruct (List.length _ =? 0)%nat;
    [injection H as <- <-; split; [reflexivity|intros v []]|].
  set (valid := List.filter isValidText (firstn 30 chunks)) in *.
  pose proof (fun embeddings k =>
                @vectors_content env file (lit ".txt") valid embeddings valid k)
    as Hcontent.
  destruct (describeIndex env) as [found|e] eqn:Ed.
  - assert (Hin : forall vectors,
              In (UpsertCall vectors)
                 (List.map EmbedContentCall valid ++ [DescribeIndexCall;
                    UpsertCall (mapi (makeVector env file (lit ".txt") valid
                                        (fst (generateEmbeddings env valid))) 0 valid)]) ->
              vectors = mapi (makeVector env file (lit ".txt") valid
                                (fst (generateEmbeddings env valid))) 0 valid).
    { intros vectors Hin. apply in_app_or in Hin as [Hin|Hin].
      - apply in_map_iff in Hin as [x [Hx _]]. discriminate.
      - destruct Hin as [Hin|[Hin|[]]]; [discriminate|]. now injection Hin. }
    destruct (indexUpsert env _); injection H as <- <-;
      (split; [discriminate|]); intros vectors Hv; apply Hin in Hv; subst vectors;
      exists valid, found; repeat split; apply Hcontent.
  - injection H as <- <-. split; [discriminate|].
    intros vectors Hin. apply in_app_or in Hin as [Hin|Hin].
    + apply in_map_iff in Hin as [x [Hx _]]. discriminate.
    + destruct Hin as [Hin|[]]. discriminate.
Qed.

(** The run on the file of 805 letters: one embedding call, then the
    index is described and written. *)
Lemma upload_calls_in_order_witness :
  exists response trace,
    POST (envWith (fun _ _ => EmbedThrows None))
         (FormData (Some (textFile "a.txt" (repeat 97%N 805))))
    = Some (response, trace)
    /\ (status response = 400%Z -> trace = [])
    /\ forall vectors, In (UpsertCall vectors) trace ->
         exists texts found,
           trace = List.map EmbedContentCall texts
                   ++ [DescribeIndexCall; UpsertCall vectors]
           /\ List.map (fun v => content (metadata v)) vectors = texts
           /\ describeIndex (envWith (fun _ _ => EmbedThrows None)) = Returned found.
Proof.
  do 2 eexists. split; [vm_compute; reflexivity|].
  apply (@upload_calls_in_order (envWith (fun _ _ => EmbedThrows None))
           (FormData (Some (textFile "a.txt" (repeat 97%N 805))))).
  vm_compute; reflexivity.
Defined.

End UploadHandlerAnswers.

Section UploadHandlerRecords.

Import Upload.

Lemma vectors_numbered env file ext all embeddings l : forall k,
  List.map (fun v => chunkIndex (metadata v))
    (mapi (makeVector env file ext all embeddings) k l) = seq k (List.length l).
Proof. induction l as [|c r IH]; intros k; simpl; [reflexivity|]. now rewrite IH. Qed.

Lemma vectors_values env file ext all (P : jsstring -> list number -> Prop) l :
  forall embeddings,
    Forall2 P l embeddings ->
    forall before,
      Forall (fun v => P (content (metadata v)) (values v))
        (mapi (makeVector env file ext all (before ++ embeddings))
              (List.length before) l).
Proof.
  induction 1 as [|c x r embeddings Hc _ IH]; intros before; simpl; constructor.
  - simpl. now rewrite nth_middle.
  - specialize (IH (before ++ [x])).
    rewrite <- app_assoc, length_app, Nat.add_1_r in IH. exact IH.
Qed.

Lemma generateEmbeddings_vectors env texts :
  Forall2 (vectorFor env) texts (fst (generateEmbeddings env texts)).
Proof.
  unfold generateEmbeddings.
  destruct (embedLoop_spec env texts [] world0) as [vs [H1 [_ H3]]].
  now rewrite H1.
Qed.

(** X12. The records that the handler writes to the index: between 1 and 30
    of them, numbered from 0 in order, each carrying the count of all,
    the name and size of the file, the type [.txt], a content that
    passes [isValidText] and, as its vector, the reply of the embedding
    model to that content or a fallback vector; their ids differ. *)
Theorem written_records_invariant
    (env : Env) (request : Request) (response : Response) (trace : list Event)
    (vectors : list VectorRecord) :
  POST env request = Some (response, trace) ->
  In (UpsertCall vectors) trace ->
  1 <= List.length vectors <= 30
  /\ List.map (fun v => chunkIndex (metadata v)) vectors = seq 0 (List.length vectors)
  /\ NoDup (List.map id vectors)
  /\ exists file,
       request = FormData (Some file)
       /\ Forall (fun v =>
                    totalChunks (metadata v) = List.length vectors
                    /\ filename (metadata v) = name file
                    /\ fileSize (metadata v) = size file
                    /\ fileType (metadata v) = lit ".txt"
                    /\ isValidText (content (metadata v)) = true
                    /\ vectorFor env (content (metadata v)) (values v))
                 vectors.
Proof.
  intros H Hin.
  destruct request as [e|[file|]]; try (injection H as _ <-; destruct Hin).
  destruct (5 * 1024 * 1024 <? size file)%Z eqn:Es.
  { unfold POST in H. rewrite Es in H. injection H as _ <-. destruct Hin. }
  destruct (eqb (DOT :: toLowerCase (lastSegment (name file) [])) (lit ".txt")) eqn:Ee.
  2:{ unfold POST in H. rewrite Es, Ee in H. injection H as _ <-. destruct Hin. }
  destruct (extractTextFromFile file) as [text|e] eqn:Ex.
  2:{ unfold POST in H. rewrite Es, Ee, Ex in H. injection H as _ <-. destruct Hin. }
  destruct (POST_after_extraction env file Es Ee Ex) as [chunks [_ Hrun]].
  rewrite Hrun in H. clear Hrun. cbv zeta in H.
  destruct (List.length text <? 50)%nat; [injection H as _ <-; destruct Hin|].
  set (valid := List.filter isValidText (firstn 30 chunks)) in *.
  destruct (Nat.eqb_spec (List.length valid) 0) as [Hz|Hnz];
    [injection H as _ <-; destruct Hin|].
  set (written := mapi (makeVector env file (lit ".txt") valid
                          (fst (generateEmbeddings env valid))) 0 valid) in *.
  assert (Hv : vectors = written).
  { destruct (describeIndex env).
    - assert (Ht : trace = List.map EmbedContentCall valid
                            ++ [DescribeIndexCall; UpsertCall written])
        by (destruct (indexUpsert env written); now injection H as _ <-).
      rewrite Ht in Hin. apply in_app_or in Hin as [Hin|Hin].
      + apply in_map_iff in Hin as [x [Hx _]]. discriminate.
      + destruct Hin as [Hin|[Hin|[]]]; [discriminate|]. now injection Hin.
    - injection H as _ <-. apply in_app_or in Hin as [Hin|Hin].
      + apply in_map_iff in Hin as [x [Hx _]]. discriminate.
      + destruct Hin as [Hin|[]]. discriminate. }
  subst vectors. clear H Hin.
  assert (Hlen : List.length written = List.length valid) by apply length_mapi.
  assert (Hle : List.length valid <= List.length (firstn 30 chunks))
    by apply filter_length_le.
  rewrite length_firstn in Hle.
  split; [lia|]. split; [|split; [apply vectors_NoDup|]].
  - rewrite Hlen. apply vectors_numbered.
  - exists file. split; [reflexivity|].
    pose proof (@vectors_values env file (lit ".txt") valid (vectorFor env) valid _
                  (generateEmbeddings_vectors env valid) []) as Hvals.
    simpl in Hvals. fold written in Hvals.
    rewrite Forall_forall in *. intros v Hv.
    specialize (Hvals v Hv).
    apply mapi_In in Hv as [i [c [_ [Hc ->]]]]. simpl in *.
    repeat split; try assumption; try reflexivity.
    + symmetry. exact Hlen.
    + apply filter_In in Hc. tauto.
Qed.

(** The run on a file of 50 sentences, which is stored as two records. *)
Lemma written_records_invariant_witness :
  exists response trace vectors,
    POST (envWith (fun _ _ => EmbedThrows None))
         (FormData (Some (textFile "lease.txt" (sentences 50))))
    = Some (response, trace)
    /\ In (UpsertCall vectors) trace
    /\ List.length vectors = 2
    /\ 1 <= List.length vectors <= 30
    /\ List.map (fun v => chunkIndex (metadata v)) vectors = seq 0 (List.length vectors)
    /\ NoDup (List.map id vectors)
    /\ exists file,
         FormData (Some (textFile "lease.txt" (sentences 50))) = FormData (Some file)
         /\ Forall (fun v =>
                      totalChunks (metadata v) = List.length vectors
                      /\ filename (metadata v) = name file
                      /\ fileSize (metadata v) = size file
                      /\ fileType (metadata v) = lit ".txt"
                      /\ isValidText (content (metadata v)) = true
                      /\ vectorFor (envWith (fun _ _ => EmbedThrows None))
                           (content (metadata v)) (values v))
                   vectors.
Proof.
  do 3 eexists. split; [vm_compute; reflexivity|].
  split; [right; right; right; left; reflexivity|].
  split; [reflexivity|].
  eapply (@written_records_invariant (envWith (fun _ _ => EmbedThrows None))
            (FormData (Some (textFile "lease.txt" (sentences 50))))).
  - vm_compute; reflexivity.
  - right; right; right; left; reflexivity.
Defined.

End UploadHandlerRecords.

Section UploadHandlerGates.

Import Upload.

(** X13. A successful answer has status 200 and tells that the file was at
    most 5 MiB large, had a name whose part after the last dot reads
    [txt] in any letter case, and gave at least 50 units of extracted
    text. *)
Theorem successful_upload_passed_gates
    (env : Env) (request : Request) (response : Response) (trace : list Event)
    (message documentId : jsstring)
    (chunksCreated vectorsUploaded extractedTextLength : nat) :
  POST env request = Some (response, trace) ->
  body response =
    Success message documentId chunksCreated vectorsUploaded extractedTextLength ->
  status response = 200%Z
  /\ 50 <= extractedTextLength
  /\ exists file text,
       request = FormData (Some file)
       /\ (size file <= 5 * 1024 * 1024)%Z
       /\ toLowerCase (lastSegment (name file) []) = lit "txt"
       /\ documentId = name file
       /\ extractTextFromFile file = Returned text
       /\ extractedTextLength = List.length text.
Proof.
  intros H Hb.
  destruct request as [e|[file|]]; try (injection H as <- _; discriminate Hb).
  destruct (Z.ltb_spec (5 * 1024 * 1024) (size file)) as [Hs|Hs].
  { unfold POST in H. destruct (Z.ltb_spec (5 * 1024 * 1024) (size file)); [|lia].
    injection H as <- _; discriminate Hb. }
  assert (Es : (5 * 1024 * 1024 <? size file)%Z = false) by (apply Z.ltb_ge; lia).
  destruct (eqb (DOT :: toLowerCase (lastSegment (name file) [])) (lit ".txt")) eqn:Ee.
  2:{ unfold POST in H. rewrite Es, Ee in H. injection H as <- _; discriminate Hb. }
  destruct (extractTextFromFile file) as [text|e] eqn:Ex.
  2:{ unfold POST in H. rewrite Es, Ee, Ex in H. injection H as <- _; discriminate Hb. }
  destruct (POST_after_extraction env file Es Ee Ex) as [chunks [_ Hrun]].
  rewrite Hrun in H. clear Hrun. cbv zeta in H.
  destruct (Nat.ltb_spec (List.length text) 50); [injection H as <- _; discriminate Hb|].
  destruct (List.length _ =? 0)%nat; [injection H as <- _; discriminate Hb|].
  destruct (describeIndex env); [|injection H as <- _; discriminate Hb].
  destruct (indexUpsert env _); injection H as <- _; [|discriminate Hb].
  cbn [body json] in Hb. injection Hb as _ <- _ _ <-.
  split; [reflexivity|]. split; [assumption|].
  exists file, text. repeat split; try assumption.
  apply eqb_eq in Ee. change (lit ".txt") with (DOT :: lit "txt") in Ee.
  now injection Ee.
Qed.

Lemma successful_upload_passed_gates_witness :
  exists response trace,
    POST (envWith (fun _ _ => EmbedThrows None))
         (FormData (Some (textFile "Notes.TXT" (repeat 97%N 805))))
    = Some (response, trace)
    /\ status response = 200%Z
    /\ 50 <= 805
    /\ exists file text,
         FormData (Some (textFile "Notes.TXT" (repeat 97%N 805))) = FormData (Some file)
         /\ (size file <= 5 * 1024 * 1024)%Z
         /\ toLowerCase (lastSegment (name file) []) = lit "txt"
         /\ lit "Notes.TXT" = name file
         /\ extractTextFromFile file = Returned text
         /\ 805 = List.length text.
Proof.
  do 2 eexists. split; [vm_compute; reflexivity|].
  eapply (@successful_upload_passed_gates (envWith (fun _ _ => EmbedThrows None))
            (FormData (Some (textFile "Notes.TXT" (repeat 97%N 805))))).
  - vm_compute; reflexivity.
  - reflexivity.
Defined.

(** The last code unit of a name that passes the extension check reads
    [t] in lower case. *)
Lemma txt_name_last s : forall acc,
  toLowerCase (lastSegment s acc) = lit "txt" ->
  exists before c, acc ++ s = before ++ [c] /\ (c = 116%N \/ c = 84%N).
Proof.
  induction s as [|x s IH]; intros acc H; simpl in H.
  - rewrite app_nil_r.
    destruct acc as [|a [|b [|c [|d acc]]]]; try discriminate H.
    exists [a; b], c. split; [reflexivity|].
    simpl in H. injection H as _ _ Hc. unfold between in Hc.
    destruct (N.leb_spec 65 c); destruct (N.leb_spec c 90); simpl in Hc; lia.
  - destruct (N.eqb_spec x DOT) as [->|_].
    + destruct (IH [] H) as [before [c [E Hc]]]. simpl in E.
      exists (acc ++ DOT :: before), c. split; [|exact Hc].
      rewrite E, <- app_assoc. reflexivity.
    + destruct (IH _ H) as [before [c [E Hc]]].
      exists before, c. split; [|exact Hc].
      rewrite <- E, <- app_assoc. reflexivity.
Qed.

Lemma endsWith_last before c suffix d :
  c <> d -> endsWith (before ++ [c]) (suffix ++ [d]) = false.
Proof.
  intros Hne. unfold endsWith. rewrite !rev_app_distr. simpl.
  destruct (N.eqb_spec d c); [congruence|reflexivity].
Qed.

(** X14. The extension check of the handler ignores the letter case, the
    extraction does not: a file that passes the check but whose name
    does not end in lower-case [.txt], and whose media type is neither
    [text/plain] nor [application/pdf], is answered with status 500 and
    the detail that the file type is unsupported, before anything is
    called. *)
Theorem upper_case_extension_is_rejected (env : Env) (file : File) :
  (size file <= 5 * 1024 * 1024)%Z ->
  toLowerCase (lastSegment (name file) []) = lit "txt" ->
  endsWith (name file) (lit ".txt") = false ->
  eqb (type file) (lit "text/plain") = false ->
  eqb (type file) (lit "application/pdf") = false ->
  POST env (FormData (Some file))
  = Some ({| status := 500;
             body := Failure (lit "Failed to process document")
                       (Some (lit "Unsupported file type. Please use plain text (.txt) files only for now.")) |},
          []).
Proof.
  intros Hs Hext Hlow Htext Hpdf.
  destruct (txt_name_last _ [] Hext) as [before [c [E Hc]]]. simpl in E.
  assert (Hx : extractTextFromFile file
               = Thrown (error "Unsupported file type. Please use plain text (.txt) files only for now.")).
  { unfold extractTextFromFile. rewrite Hpdf, Htext, Hlow. rewrite E.
    change (lit ".pdf") with (lit ".pd" ++ [102%N]).
    change (lit ".docx") with (lit ".doc" ++ [120%N]).
    change (lit ".doc") with (lit ".do" ++ [99%N]).
    rewrite !endsWith_last by (destruct Hc; subst c; discriminate).
    reflexivity. }
  unfold POST.
  destruct (Z.ltb_spec (5 * 1024 * 1024) (size file)); [lia|].
  rewrite Hext. change (eqb (DOT :: lit "txt") (lit ".txt")) with true.
  change (negb true) with false. cbv iota. rewrite Hx. reflexivity.
Qed.

Lemma upper_case_extension_is_rejected_witness :
  POST (envWith (fun _ _ => EmbedThrows None))
       (FormData (Some (fileOfType "NOTES.TXT" "application/octet-stream"
                          (repeat 97%N 805))))
  = Some ({| status := 500;
             body := Failure (lit "Failed to process document")
                       (Some (lit "Unsupported file type. Please use plain text (.txt) files only for now.")) |},
          []).
Proof.
  apply upper_case_extension_is_rejected; try reflexivity. simpl. lia.
Defined.

End UploadHandlerGates.

(* ================================================================== *)
(** * Runs of the analysis handler                                     *)
(* ================================================================== *)

Section AnalysisHandlerRuns.

Import Analyze.



Lemma contains_join sep parts c : In c parts -> contains (join sep parts) c.
Proof.
  induction parts as [|p rest IH]; intros H; [destruct H|].
  destruct H as [->|H].
  - destruct rest as [|q rest'].
    + exists [], []. simpl. now rewrite app_nil_r.
    + exists [], (sep ++ join sep (q :: rest')). reflexivity.
  - destruct (IH H) as [x [y E]].
    destruct rest as [|q rest']; [destruct H|].
    exists (p ++ sep ++ x), y.
    change (join sep (p :: q :: rest')) with (p ++ sep ++ join sep (q :: rest')).
    rewrite E, <- !app_assoc. reflexivity.
Qed.

Lemma contents_In matches m c :
  In m matches -> contentOf m = Some c -> In c (contents matches).
Proof.
  induction matches as [|x rest IH]; intros H Hc; [destruct H|]. simpl.
  destruct H as [->|H].
  - rewrite Hc. now left.
  - destruct (contentOf x); [right|]; now apply IH.
Qed.

(** X16. A model is called only after the query has returned matches with
    content.  The prompt is the instruction of the analysis type
    followed by the contents of the matches, and contains the content of
    every match that has one.  The fallback model is called only after
    the primary model has thrown on that prompt. *)
Theorem model_calls_are_grounded
    (env : Env) (analysisType fileName : Value) (model prompt : jsstring) :
  missing (Some analysisType) = false ->
  missing (Some fileName) = false ->
  In (GenerateContentCall model prompt)
     (snd (POST env (Json (Some analysisType) (Some fileName)))) ->
  exists matches,
    queryAnswer env analysisType fileName = Returned (Some matches)
    /\ truthy (relevantContentOf matches) = true
    /\ prompt = promptOf (systemPromptFor env (textOf env analysisType))
                  (relevantContentOf matches)
    /\ (forall m c, In m matches -> contentOf m = Some c -> contains prompt c)
    /\ (model = primaryModel
        \/ (model = fallbackModel
            /\ exists e, generateContent env primaryModel prompt = Thrown e)).
Proof.
  intros Ha Hf.
  destruct (converts env analysisType && converts env fileName) eqn:Ec;
    [|destruct (POST_unconvertible env _ _ Ha Hf Ec) as [e ->]; intros []].
  apply andb_prop in Ec as [Hca Hcf].
  rewrite (POST_present env _ _ Ha Hf Hca Hcf). cbv zeta.
  unfold queryTrace, promptFor. cbv zeta.
  destruct (queryAnswer env analysisType fileName) as [[matches|]|e] eqn:Eq;
    try (simpl; intros [H|[H|[]]]; discriminate).
  destruct matches as [|m0 ms]; [simpl; intros [H|[H|[]]]; discriminate|].
  destruct (truthy (relevantContentOf (m0 :: ms))) eqn:Et;
    [|simpl; intros [H|[H|[]]]; discriminate].
  set (matches := m0 :: ms) in *.
  set (p := promptOf (systemPromptFor env (textOf env analysisType))
              (relevantContentOf matches)).
  assert (Hground : forall m c, In m matches -> contentOf m = Some c -> contains p c).
  { intros m c Hm Hc. unfold p, promptOf, relevantContentOf.
    destruct (contains_join [LF; LF] _ _ (contents_In _ _ Hm Hc)) as [x [y E]].
    exists (systemPromptFor env (textOf env analysisType) ++ [LF; LF]
            ++ lit "Document Content:" ++ [LF] ++ x), y.
    rewrite E, <- !app_assoc. reflexivity. }
  intros Hin. exists matches. split; [reflexivity|]. split; [exact Et|].
  destruct (generateContent env primaryModel p) as [text|e1] eqn:E1.
  - simpl in Hin. destruct Hin as [H|[H|[H|[]]]]; try discriminate.
    injection H as <- <-. repeat split; [exact Hground|now left].
  - assert (Hin' : In (GenerateContentCall model prompt)
                     [GenerateContentCall primaryModel p;
                      GenerateContentCall fallbackModel p]).
    { destruct (generateContent env fallbackModel p);
        [|destruct (formatAnalysisType env analysisType)];
        simpl in Hin; destruct Hin as [H|[H|H]]; try discriminate; exact H. }
    destruct Hin' as [H|[H|[]]]; injection H as <- <-;
      (repeat split; [exact Hground|]); [now left|right].
    split; [reflexivity|now exists e1].
Qed.

Lemma model_calls_are_grounded_witness :
  exists matches,
    queryAnswer (envOf (Some [matchOf "lease.txt" "The tenant pays the rent monthly."])
                   (Thrown None) (Returned (lit "fine")))
      (Str (lit "risks")) (Str (lit "lease.txt")) = Returned (Some matches)
    /\ truthy (relevantContentOf matches) = true
    /\ promptOf prompt_risks (lit "The tenant pays the rent monthly.")
       = promptOf (systemPromptFor
                     (envOf (Some [matchOf "lease.txt" "The tenant pays the rent monthly."])
                        (Thrown None) (Returned (lit "fine")))
                     (lit "risks"))
           (relevantContentOf matches)
    /\ (forall m c, In m matches -> contentOf m = Some c ->
          contains (promptOf prompt_risks (lit "The tenant pays the rent monthly.")) c)
    /\ (fallbackModel = primaryModel
        \/ (fallbackModel = fallbackModel
            /\ exists e,
                 generateContent
                   (envOf (Some [matchOf "lease.txt" "The tenant pays the rent monthly."])
                      (Thrown None) (Returned (lit "fine")))
                   primaryModel
                   (promptOf prompt_risks (lit "The tenant pays the rent monthly."))
                 = Thrown e)).
Proof.
  apply (@model_calls_are_grounded
           (envOf (Some [matchOf "lease.txt" "The tenant pays the rent monthly."])
              (Thrown None) (Returned (lit "fine")))
           (Str (lit "risks")) (Str (lit "lease.txt")) fallbackModel
           (promptOf prompt_risks (lit "The tenant pays the rent monthly."))).
  - reflexivity.
  - reflexivity.
  - right; right; right; left. reflexivity.
Defined.

End AnalysisHandlerRuns.

Section AnalysisHandlerAnswers.

Import Analyze.

(** X17. A successful answer repeats the two fields of the request, reports
    the number of matches of the query, which is at least one, and tells
    by its [note] and [warning] which tier wrote the analysis: neither
    for the primary model, the note for the fallback model, the warning
    for the basic extraction, which is written for a string as analysis
    type only; never both. *)
Theorem analysis_success_tells_tier
    (env : Env) (request : Request)
    (analysis : jsstring) (analysisType fileName : Value) (chunksAnalyzed : nat)
    (note warning : option jsstring) :
  body (fst (POST env request))
  = Success analysis analysisType fileName chunksAnalyzed note warning ->
  request = Json (Some analysisType) (Some fileName)
  /\ status (fst (POST env request)) = 200%Z
  /\ exists matches,
       queryAnswer env analysisType fileName = Returned (Some matches)
       /\ chunksAnalyzed = List.length matches
       /\ 1 <= chunksAnalyzed
       /\ let prompt :=
            promptOf (systemPromptFor env (textOf env analysisType))
              (relevantContentOf matches) in
          match note, warning with
          | None, None => generateContent env primaryModel prompt = Returned analysis
          | Some _, None =>
              (exists e, generateContent env primaryModel prompt = Thrown e)
              /\ generateContent env fallbackModel prompt = Returned analysis
          | None, Some _ =>
              (exists e, generateContent env primaryModel prompt = Thrown e)
              /\ (exists e, generateContent env fallbackModel prompt = Thrown e)
              /\ exists type label,
                   analysisType = Str type
                   /\ formatAnalysisType env analysisType = Returned label
                   /\ analysis = basicAnalysis (textOf env fileName) label
                                   (List.length matches) (relevantContentOf matches)
          | Some _, Some _ => False
          end.
Proof.
  destruct request as [e|a f]; [discriminate|].
  destruct (missing a || missing f) eqn:Em.
  { unfold POST. rewrite Em. discriminate. }
  apply orb_false_elim in Em as [Ha Hf].
  destruct a as [a|]; [|discriminate]. destruct f as [f|]; [|discriminate].
  destruct (converts env a && converts env f) eqn:Ec;
    [|destruct (POST_unconvertible env _ _ Ha Hf Ec) as [e ->]; discriminate].
  apply andb_prop in Ec as [Hca Hcf].
  rewrite (POST_present env _ _ Ha Hf Hca Hcf). cbv zeta. unfold promptFor.
  destruct (queryAnswer env a f) as [[[|m ms]|]|e] eqn:Eq; try discriminate.
  destruct (truthy (relevantContentOf (m :: ms))); [|discriminate].
  destruct (generateContent env primaryModel _) as [text|e1] eqn:E1.
  - cbn [fst body json status]. intros [= <- <- <- <- <- <-].
    split; [reflexivity|]. split; [reflexivity|].
    exists (m :: ms). rewrite Eq. repeat split; [simpl; lia|exact E1].
  - destruct (generateContent env fallbackModel _) as [text|e2] eqn:E2.
    + cbn [fst body json status]. intros [= <- <- <- <- <- <-].
      split; [reflexivity|]. split; [reflexivity|].
      exists (m :: ms). rewrite Eq. repeat split; [simpl; lia|..];
        cbv zeta; rewrite ?E1, ?E2; eauto.
    + destruct (formatAnalysisType env a) as [label|e3] eqn:E3; [|discriminate].
      cbn [fst body json status]. intros [= <- <- <- <- <- <-].
      split; [reflexivity|]. split; [reflexivity|].
      exists (m :: ms). rewrite Eq. repeat split; [simpl; lia|..];
        cbv zeta; rewrite ?E1, ?E2; eauto.
      destruct a; try discriminate. now exists s, label.
Qed.

Lemma analysis_success_tells_tier_witness :
  Json (Some (Str (lit "risks"))) (Some (Str (lit "lease.txt")))
  = Json (Some (Str (lit "risks"))) (Some (Str (lit "lease.txt")))
  /\ status (fst (POST (envOf (Some [matchOf "lease.txt" "The tenant pays the rent monthly."])
                          (Thrown None) (Returned (lit "fine")))
                     (Json (Some (Str (lit "risks"))) (Some (Str (lit "lease.txt"))))))
     = 200%Z
  /\ exists matches,
       queryAnswer (envOf (Some [matchOf "lease.txt" "The tenant pays the rent monthly."])
                      (Thrown None) (Returned (lit "fine")))
         (Str (lit "risks")) (Str (lit "lease.txt")) = Returned (Some matches)
       /\ 1 = List.length matches
       /\ 1 <= 1
       /\ let prompt :=
            promptOf (systemPromptFor
                        (envOf (Some [matchOf "lease.txt" "The tenant pays the rent monthly."])
                           (Thrown None) (Returned (lit "fine")))
                        (lit "risks"))
              (relevantContentOf matches) in
          (exists e,
             generateContent
               (envOf (Some [matchOf "lease.txt" "The tenant pays the rent monthly."])
                  (Thrown None) (Returned (lit "fine")))
               primaryModel prompt = Thrown e)
          /\ generateContent
               (envOf (Some [matchOf "lease.txt" "The tenant pays the rent monthly."])
                  (Thrown None) (Returned (lit "fine")))
               fallbackModel prompt = Returned (lit "fine").
Proof.
  apply (@analysis_success_tells_tier
           (envOf (Some [matchOf "lease.txt" "The tenant pays the rent monthly."])
              (Thrown None) (Returned (lit "fine")))
           (Json (Some (Str (lit "risks"))) (Some (Str (lit "lease.txt"))))
           (lit "fine") (Str (lit "risks")) (Str (lit "lease.txt")) 1
           (Some (lit "Used fallback model due to primary model unavailability")) None).
  reflexivity.
Defined.

(** X18. For a request whose two fields are present and have a text, the
    filtered query is always made, for the 20 best matches of the file
    named in the request, also when the embedding of the query text
    fails: its vector is then a fallback vector of 768 elements, and
    otherwise the vector the model gave. *)
Theorem query_is_always_made
    (env : Env) (analysisType fileName : Value) :
  missing (Some analysisType) = false ->
  missing (Some fileName) = false ->
  converts env analysisType = true ->
  converts env fileName = true ->
  let queryText :=
    textOf env analysisType ++ lit " analysis of " ++ textOf env fileName in
  exists vector rest,
    snd (POST env (Json (Some analysisType) (Some fileName)))
    = [EmbedContentCall queryText; QueryCall vector 20 fileName] ++ rest
    /\ match embedContent env queryText with
       | EmbedValues v => vector = v
       | _ => vector = dummyEmbedding (random env) 0 /\ List.length vector = 768
       end.
Proof.
  intros Ha Hf Hca Hcf queryText.
  rewrite (POST_present env _ _ Ha Hf Hca Hcf). cbv zeta.
  exists (queryEmbeddingOf env queryText).
  assert (Hv : match embedContent env queryText with
               | EmbedValues v => queryEmbeddingOf env queryText = v
               | _ =>
                   queryEmbeddingOf env queryText = dummyEmbedding (random env) 0
                   /\ List.length (queryEmbeddingOf env queryText) = 768
               end).
  { unfold queryEmbeddingOf.
    destruct (embedContent env _); [reflexivity| |];
      (split; [reflexivity|apply length_dummyEmbedding]). }
  unfold queryTrace, queryTextOf. cbv zeta. fold queryText.
  destruct (queryAnswer env analysisType fileName) as [[[|m ms]|]|e];
    try (exists []; split; [reflexivity|exact Hv]).
  destruct (truthy (relevantContentOf (m :: ms)));
    [|exists []; split; [reflexivity|exact Hv]].
  destruct (generateContent env primaryModel _);
    [eexists; split; [reflexivity|exact Hv]|].
  destruct (generateContent env fallbackModel _);
    [|destruct (formatAnalysisType env analysisType)];
    eexists; (split; [reflexivity|exact Hv]).
Qed.

Lemma query_is_always_made_witness :
  exists vector rest,
    snd (POST (envOf (Some []) (Thrown None) (Thrown None))
              (Json (Some (Str (lit "risks"))) (Some (Str (lit "lease.txt")))))
    = [EmbedContentCall (lit "risks" ++ lit " analysis of " ++ lit "lease.txt");
       QueryCall vector 20 (Str (lit "lease.txt"))] ++ rest
    /\ match embedContent (envOf (Some []) (Thrown None) (Thrown None))
               (lit "risks" ++ lit " analysis of " ++ lit "lease.txt") with
       | EmbedValues v => vector = v
       | _ => vector = dummyEmbedding (random (envOf (Some []) (Thrown None) (Thrown None))) 0
              /\ List.length vector = 768
       end.
Proof.
  apply (@query_is_always_made (envOf (Some []) (Thrown None) (Thrown None))
           (Str (lit "risks")) (Str (lit "lease.txt"))); reflexivity.
Defined.

End AnalysisHandlerAnswers.

(* ================================================================== *)
(** * The document listing                                             *)
(* ================================================================== *)

Section DocumentListing.

Import GetDocuments.

Lemma insertSorted_last x sorted : insertSorted x sorted = sorted ++ [x].
Proof. induction sorted as [|y rest IH]; simpl; [reflexivity|]. now rewrite IH. Qed.

Lemma sort_from documents : forall sorted,
  fold_left (fun acc x => insertSorted x acc) documents sorted = sorted ++ documents.
Proof.
  induction documents as [|d rest IH]; intros sorted; simpl.
  - now rewrite app_nil_r.
  - rewrite IH, insertSorted_last, <- app_assoc. reflexivity.
Qed.

Lemma sort_unchanged documents : sort documents = documents.
Proof. unfold sort. now rewrite sort_from. Qed.

(** X20. The documents are answered in the order in which the map received
    them: the [sort] call changes nothing, because no document carries
    [uploadedAt], every comparison gives [NaN], and a stable sort then
    keeps the order. *)
Theorem listing_is_in_map_order
    (indexQuery : list number -> N -> outcome (option (list Match)))
    (matches : option (list Match)) :
  indexQuery queryVector 10000%N = Returned matches ->
  GET indexQuery
  = {| status := 200;
       body := Success
                 (List.map snd
                    (fold_left visit (match matches with Some l => l | None => [] end) [])) |}.
Proof. intros Hq. unfold GET. rewrite Hq. cbv zeta. now rewrite sort_unchanged. Qed.

Lemma listing_is_in_map_order_witness :
  GET (fun _ _ =>
         Returned (Some [ {| metadata := Some {| filename := Some (lit "b.txt");
                                                source := None;
                                                fileSize := Some 1%Z;
                                                totalChunks := Some 1%Z |} |};
                          {| metadata := Some {| filename := None;
                                                source := Some (lit "a.txt");
                                                fileSize := None;
                                                totalChunks := None |} |} ]))
  = {| status := 200;
       body := Success [Doc (lit "b.txt") 1 1; Doc (lit "a.txt") 0 0] |}.
Proof.
  apply (@listing_is_in_map_order
           (fun _ _ =>
              Returned (Some [ {| metadata := Some {| filename := Some (lit "b.txt");
                                                     source := None;
                                                     fileSize := Some 1%Z;
                                                     totalChunks := Some 1%Z |} |};
                               {| metadata := Some {| filename := None;
                                                     source := Some (lit "a.txt");
                                                     fileSize := None;
                                                     totalChunks := None |} |} ]))
           _ eq_refl).
Defined.

Lemma has_iff map key : has map key = true <-> In key (List.map fst map).
Proof.
  unfold has. rewrite existsb_exists. split.
  - intros [[k d] [Hin Hk]]. apply eqb_eq in Hk. simpl in Hk. subst.
    apply in_map_iff. now exists (key, d).
  - intros Hin. apply in_map_iff in Hin as [[k d] [Hk Hin]]. simpl in Hk. subst.
    exists (key, d). split; [exact Hin|]. now apply eqb_eq.
Qed.

Lemma visit_cases map m :
  (visit map m = map
   /\ forall key, nameOf m = Some key -> In key (List.map fst map))
  \/ exists n,
       nameOf m = Some n /\ ~ In n (List.map fst map)
       /\ visit map m = map ++ [(n, documentOf n m)].
Proof.
  unfold visit. destruct (nameOf m) as [n|]; [|left; split; [reflexivity|discriminate]].
  destruct (has map n) eqn:Eh.
  - left. split; [reflexivity|]. intros key [= <-]. now apply has_iff.
  - right. exists n. repeat split. intros Hin. apply has_iff in Hin. congruence.
Qed.

Lemma visit_NoDup map m :
  NoDup (List.map fst map) -> NoDup (List.map fst (visit map m)).
Proof.
  intros Hnd. destruct (visit_cases map m) as [[-> _]|[n [_ [Hn ->]]]]; [exact Hnd|].
  rewrite map_app. apply NoDup_app; [exact Hnd|repeat constructor; intros []|].
  intros a Ha [<-|[]]. contradiction.
Qed.

Lemma visit_keys map m key :
  In key (List.map fst (visit map m)) <->
  In key (List.map fst map) \/ nameOf m = Some key.
Proof.
  destruct (visit_cases map m) as [[-> Hk]|[n [Hn [Hnot ->]]]].
  - split; [now left|]. intros [H|H]; [exact H|now apply Hk].
  - rewrite map_app, in_app_iff. simpl. rewrite Hn. split.
    + intros [H|[<-|[]]]; [now left|now right].
    + intros [H|[= <-]]; [now left|right; now left].
Qed.

(** What the [forEach] loop keeps true of the map. *)
Lemma visit_all matches : forall map,
  NoDup (List.map fst map) ->
  NoDup (List.map fst (fold_left visit matches map))
  /\ (forall key, In key (List.map fst (fold_left visit matches map)) <->
        In key (List.map fst map) \/ exists m, In m matches /\ nameOf m = Some key)
  /\ (forall key d, In (key, d) (fold_left visit matches map) ->
        In (key, d) map
        \/ (~ In key (List.map fst map)
            /\ exists before m after,
                 matches = before ++ m :: after
                 /\ nameOf m = Some key
                 /\ (forall m', In m' before -> nameOf m' <> Some key)
                 /\ d = documentOf key m)).
Proof.
  induction matches as [|m rest IH]; intros map Hnd.
  - simpl. split; [exact Hnd|]. split; [|now left].
    intros key. split; [now left|]. intros [H|[m [[] _]]]. exact H.
  - simpl fold_left.
    destruct (IH (visit map m) (@visit_NoDup map m Hnd)) as [H1 [H2 H3]].
    split; [exact H1|]. split.
    + intros key. rewrite H2, visit_keys. split.
      * intros [[H|H]|[m' [Hm' Hn]]]; [now left|right|right].
        -- exists m. split; [now left|exact H].
        -- exists m'. split; [now right|exact Hn].
      * intros [H|[m' [[<-|Hm'] Hn]]]; [left; now left|left; now right|right].
        exists m'. now split.
    + intros key d Hin. destruct (H3 key d Hin) as [Hm|[Hnot [before [m1 [after [E [Hn [Hb Hd]]]]]]]].
      * destruct (visit_cases map m) as [[Ev _]|[n [Hn [Hnot Ev]]]]; rewrite Ev in Hm;
          [now left|].
        apply in_app_or in Hm as [Hm|[Hm|[]]]; [now left|]. injection Hm as <- <-.
        right. split; [exact Hnot|].
        exists [], m, rest. repeat split; [exact Hn|intros m' []].
      * right. split; [intros Hk; apply Hnot; apply visit_keys; now left|].
        exists (m :: before), m1, after. subst rest. repeat split; try assumption.
        intros m' [<-|Hm']; [|now apply Hb].
        intros Hk. apply Hnot. apply visit_keys. now right.
Qed.

(** X19. The listing names every file once.  The names listed are exactly
    the truthy [filename] or else [source] of the matches, and the size
    and chunk count shown for a name are those of the first match that
    carries it. *)
Theorem listing_names_each_file_once
    (indexQuery : list number -> N -> outcome (option (list Match)))
    (matches : list Match) :
  indexQuery queryVector 10000%N = Returned (Some matches) ->
  exists documents,
    GET indexQuery = {| status := 200; body := Success documents |}
    /\ NoDup (List.map docName documents)
    /\ (forall n, In n (List.map docName documents) <->
          exists m, In m matches /\ nameOf m = Some n)
    /\ (forall d, In d documents ->
          exists before m after,
            matches = before ++ m :: after
            /\ nameOf m = Some (docName d)
            /\ (forall m', In m' before -> nameOf m' <> Some (docName d))
            /\ d = documentOf (docName d) m).
Proof.
  intros Hq. unfold GET. rewrite Hq. cbv zeta. rewrite sort_unchanged.
  destruct (@visit_all matches [] ltac:(constructor)) as [H1 [H2 H3]].
  set (map := fold_left visit matches []) in *.
  assert (Hkey : forall key d, In (key, d) map -> docName d = key).
  { intros key d Hin. destruct (H3 key d Hin) as [[]|[_ [b [m [a [_ [_ [_ ->]]]]]]]].
    unfold documentOf. now destruct (metadata m). }
  assert (Hnames : List.map docName (List.map snd map) = List.map fst map).
  { rewrite map_map. apply map_ext_in. intros [k d] Hin. simpl. now apply Hkey. }
  exists (List.map snd map). split; [reflexivity|]. rewrite Hnames.
  split; [exact H1|]. split.
  - intros n. rewrite H2. simpl. tauto.
  - intros d Hd. apply in_map_iff in Hd as [[k d'] [E Hin]]. simpl in E. subst d'.
    rewrite (Hkey _ _ Hin).
    destruct (H3 k d Hin) as [[]|[_ H]]. exact H.
Qed.

Lemma listing_names_each_file_once_witness :
  exists documents,
    GET (fun _ _ =>
           Returned (Some [ {| metadata := Some {| filename := Some (lit "a.txt");
                                                  source := None;
                                                  fileSize := Some 805%Z;
                                                  totalChunks := Some 2%Z |} |};
                            {| metadata := None |};
                            {| metadata := Some {| filename := Some (lit "a.txt");
                                                  source := None;
                                                  fileSize := Some 9%Z;
                                                  totalChunks := None |} |} ]))
    = {| status := 200; body := Success documents |}
    /\ documents = [Doc (lit "a.txt") 805 2]
    /\ NoDup (List.map docName documents).
Proof.
  destruct (@listing_names_each_file_once
              (fun _ _ =>
                 Returned (Some [ {| metadata := Some {| filename := Some (lit "a.txt");
                                                        source := None;
                                                        fileSize := Some 805%Z;
                                                        totalChunks := Some 2%Z |} |};
                                  {| metadata := None |};
                                  {| metadata := Some {| filename := Some (lit "a.txt");
                                                        source := None;
                                                        fileSize := Some 9%Z;
                                                        totalChunks := None |} |} ]))
              _ eq_refl) as [documents [H1 [H2 _]]].
  exists documents. split; [exact H1|]. split; [|exact H2].
  vm_compute in H1. now injection H1.
Defined.

End DocumentListing.

(* ================================================================== *)
(** * The earlier upload handler                                       *)
(* ================================================================== *)

Section LegacyPdfText.

Import LegacyUpload.

Lemma slice_inner piece :
  slice (40%N :: piece ++ [41%N]) 1 (-1) = piece.
Proof.
  unfold slice, relIndex, len. simpl List.length.
  rewrite length_app. simpl List.length.
  change (1 <? 0)%Z with false. change (-1 <? 0)%Z with true. cbv iota.
  rewrite Z.min_l by lia. rewrite Z.max_l by lia.
  change (Z.to_nat 1) with 1. simpl skipn.
  replace (Z.to_nat (Z.of_nat (S (List.length piece + 1)) + -1 - 1))
    with (List.length piece) by lia.
  rewrite firstn_app, Nat.sub_diag, firstn_all. simpl. apply app_nil_r.
Qed.

(** A match of the expression for PDF text inside [whole]. *)
Lemma matchParens_spec whole : forall text inside before,
  match inside with
  | None => whole = before ++ text
  | Some acc => whole = before ++ 40%N :: acc ++ text /\ ~ In 41%N acc
  end ->
  Forall (fun m => exists piece,
            m = 40%N :: piece ++ [41%N] /\ piece <> [] /\ ~ In 41%N piece
            /\ contains whole m)
         (matchParens inside text).
Proof.
  induction text as [|c r IH]; intros inside before H; simpl; [constructor|].
  destruct inside as [acc|].
  - destruct H as [Hw Hacc]. destruct (N.eqb_spec c 41) as [->|Hc].
    + destruct acc as [|a acc'].
      * apply (IH None (before ++ [40%N; 41%N])). rewrite Hw, <- app_assoc. reflexivity.
      * constructor.
        -- exists (a :: acc'). repeat split; [discriminate|exact Hacc|].
           exists before, r. rewrite Hw. simpl. now rewrite <- !app_assoc.
        -- apply (IH None (before ++ 40%N :: (a :: acc') ++ [41%N])).
           rewrite Hw. simpl. rewrite <- !app_assoc. simpl. now rewrite <- !app_assoc.
    + apply (IH (Some (acc ++ [c])) before). split.
      * rewrite Hw, <- app_assoc. reflexivity.
      * intros Hin. apply in_app_or in Hin as [Hin|[Hin|[]]]; [now apply Hacc|congruence].
  - destruct (N.eqb_spec c 40) as [->|Hc].
    + apply (IH (Some []) before). split; [exact H|intros []].
    + apply (IH None (before ++ [c])). rewrite H, <- app_assoc. reflexivity.
Qed.

(** X21. Every match of the expression that looks for text in a PDF is an
    opening parenthesis, a non-empty run without closing parenthesis and
    a closing parenthesis, occurs in the decoded text, and keeps exactly
    that run when its first and last units are cut away. *)
Theorem pdf_matches_are_parenthesised_runs (text : jsstring) :
  Forall (fun m => exists piece,
            m = 40%N :: piece ++ [41%N]
            /\ piece <> [] /\ ~ In 41%N piece
            /\ contains text m
            /\ slice m 1 (-1) = piece)
         (textMatches text).
Proof.
  pose proof (@matchParens_spec text text None [] eq_refl) as H.
  eapply Forall_impl; [|exact H].
  intros m [piece [-> [H1 [H2 H3]]]]. exists piece.
  repeat split; try assumption. apply slice_inner.
Qed.

End LegacyPdfText.

Section LegacyHandlerRuns.

Import LegacyUpload.

Lemma legacy_embedLoop env : forall texts embeddings calls draws,
  exists vs,
    fst (embedLoop env texts embeddings calls draws) = embeddings ++ vs
    /\ List.length vs = List.length texts
    /\ snd (embedLoop env texts embeddings calls draws) = calls ++ texts.
Proof.
  induction texts as [|t rest IH]; intros embeddings calls draws; simpl.
  - exists []. now rewrite !app_nil_r.
  - destruct (embedContent env (List.length calls) t) as [v| |e];
      match goal with
      | |- context [embedLoop env rest (embeddings ++ [?x]) ?c ?d] =>
          destruct (IH (embeddings ++ [x]) c d) as [vs [H1 [H2 H3]]];
          exists (x :: vs)
      end;
      rewrite H1, H3, <- !app_assoc; simpl; repeat split; now rewrite ?H2.
Qed.

Lemma legacy_generateEmbeddings env texts :
  List.length (fst (generateEmbeddings env texts)) = List.length texts
  /\ snd (generateEmbeddings env texts) = texts.
Proof.
  unfold generateEmbeddings.
  destruct (legacy_embedLoop env texts [] [] 0) as [vs [H1 [H2 H3]]].
  rewrite H1, H3. simpl. now split.
Qed.

(** The run of the handler past its checks. *)
Lemma legacy_run env file text chunks :
  (10 * 1024 * 1024 <? size file)%Z = false ->
  allowed (DOT :: Upload.toLowerCase (Upload.lastSegment (name file) [])) = true ->
  extractTextFromFile file = Returned text ->
  truthy (trim text) = true ->
  (List.length text <? 50)%nat = false ->
  Upload.splitDefault text = Some chunks ->
  (List.length chunks =? 0)%nat = false ->
  POST env (FormData (Some file)) =
  Some
    (let limited := firstn 50 chunks in
     let vectors :=
       Upload.mapi
         (makeVector env file
            (DOT :: Upload.toLowerCase (Upload.lastSegment (name file) []))
            limited (fst (generateEmbeddings env limited))) 0 limited in
     let trace := List.map EmbedContentCall limited ++ [UpsertCall vectors] in
     match indexUpsert env vectors with
     | Thrown e => (caught e, trace)
     | Returned _ =>
         (json 200
            (Success (lit "Document uploaded and processed successfully")
               (name file) (List.length limited) (List.length limited)
               (List.length text)),
          trace)
     end).
Proof.
  intros Hs Ha Hx Ht Hl Hsp Hc. unfold POST.
  rewrite Hs, Ha, Hx, Ht, Hl, Hsp, Hc. change (negb true) with false. cbv iota zeta.
  destruct (legacy_generateEmbeddings env (firstn 50 chunks)) as [H1 H2].
  destruct (generateEmbeddings env (firstn 50 chunks)) as [embeddings calls].
  simpl in H1, H2. subst calls. rewrite H1, Nat.eqb_refl.
  change (negb true) with false. cbv iota. cbn [fst]. rewrite length_mapi.
  destruct (indexUpsert env _); reflexivity.
Qed.

(** Every run of the handler that reaches the index. *)
Lemma legacy_written env request response trace :
  POST env request = Some (response, trace) ->
  (exists vectors, In (UpsertCall vectors) trace)
  \/ (exists m d n v l, body response = Success m d n v l) ->
  exists file text chunks,
    request = FormData (Some file)
    /\ extractTextFromFile file = Returned text
    /\ (50 <= List.length text)
    /\ Upload.splitDefault text = Some chunks
    /\ chunks <> []
    /\ POST env request =
       Some
         (let limited := firstn 50 chunks in
          let vectors :=
            Upload.mapi
              (makeVector env file
                 (DOT :: Upload.toLowerCase (Upload.lastSegment (name file) []))
                 limited (fst (generateEmbeddings env limited))) 0 limited in
          let trace := List.map EmbedContentCall limited ++ [UpsertCall vectors] in
          match indexUpsert env vectors with
          | Thrown e => (caught e, trace)
          | Returned _ =>
              (json 200
                 (Success (lit "Document uploaded and processed successfully")
                    (name file) (List.length limited) (List.length limited)
                    (List.length text)),
               trace)
          end).
Proof.
  intros H Hreach.
  assert (Hno : forall st b, (response, trace) = (json st (Failure b None), []) -> False).
  { intros st b [= -> ->]. destruct Hreach as [[v []]|[m [d [n [v [l Hb]]]]]].
    discriminate Hb. }
  assert (Hno' : forall e, (response, trace) = (caught e, []) -> False).
  { intros e [= -> ->]. destruct Hreach as [[v []]|[m [d [n [v [l Hb]]]]]].
    discriminate Hb. }
  destruct request as [e|[file|]].
  - exfalso. injection H as <- <-. now apply (Hno' e).
  - destruct (10 * 1024 * 1024 <? size file)%Z eqn:Es.
    { exfalso. unfold POST in H. rewrite Es in H. injection H as <- <-.
      eapply Hno. reflexivity. }
    destruct (allowed (DOT :: Upload.toLowerCase (Upload.lastSegment (name file) []))) eqn:Ea.
    2:{ exfalso. unfold POST in H. rewrite Es, Ea in H. injection H as <- <-.
        eapply Hno. reflexivity. }
    destruct (extractTextFromFile file) as [text|e] eqn:Ex.
    2:{ exfalso. unfold POST in H. rewrite Es, Ea, Ex in H. injection H as <- <-.
        now apply (Hno' e). }
    destruct (truthy (trim text)) eqn:Et.
    2:{ exfalso. unfold POST in H. rewrite Es, Ea, Ex, Et in H. injection H as <- <-.
        eapply Hno. reflexivity. }
    destruct (List.length text <? 50)%nat eqn:El.
    { exfalso. unfold POST in H. rewrite Es, Ea, Ex, Et, El in H. injection H as <- <-.
      eapply Hno. reflexivity. }
    destruct (splitDefault_returns text) as [chunks Hsp].
    destruct (List.length chunks =? 0)%nat eqn:Ec.
    { exfalso. unfold POST in H. rewrite Es, Ea, Ex, Et, El, Hsp, Ec in H.
      injection H as <- <-. eapply Hno. reflexivity. }
    exists file, text, chunks. split; [reflexivity|]. split; [exact Ex|].
    split; [now apply Nat.ltb_ge|]. split; [exact Hsp|].
    split; [now destruct chunks|].
    now apply legacy_run.
  - exfalso. injection H as <- <-. eapply Hno. reflexivity.
Qed.

End LegacyHandlerRuns.

Section LegacyHandlerAnswers.

Import LegacyUpload.

Lemma legacy_contents env file ext all embeddings l : forall k,
  List.map (fun v => content (metadata v))
    (Upload.mapi (makeVector env file ext all embeddings) k l) = l.
Proof. induction l as [|c r IH]; intros k; simpl; [reflexivity|]. now rewrite IH. Qed.

Lemma legacy_ids env file ext all embeddings l : forall k,
  List.map id (Upload.mapi (makeVector env file ext all embeddings) k l)
  = List.map (fun i => Upload.sanitize (name file) ++ lit "_chunk_"
                         ++ decimal (N.of_nat i))
      (seq k (List.length l)).
Proof. induction l as [|c r IH]; intros k; simpl; [reflexivity|]. now rewrite IH. Qed.

Lemma upsert_in_trace (texts : list jsstring) vectors written :
  In (UpsertCall vectors) (List.map EmbedContentCall texts ++ [UpsertCall written]) ->
  vectors = written.
Proof.
  intros Hin. apply in_app_or in Hin as [Hin|[Hin|[]]].
  - apply in_map_iff in Hin as [x [Hx _]]. discriminate.
  - now injection Hin.
Qed.

(** X22. A PDF in which the expression for PDF text finds nothing is not
    refused: the handler takes its own notice that no text could be
    extracted as the text of the document, sends it to the embedding
    model and writes it to the index as the single chunk of the file;
    the answer, if the write succeeds, reports one chunk created. *)
Theorem pdf_without_text_stores_the_notice (env : Env) (file : File) :
  (size file <= 10 * 1024 * 1024)%Z ->
  allowed (DOT :: Upload.toLowerCase (Upload.lastSegment (name file) [])) = true ->
  isPdf file = true ->
  textMatches (decoded file) = [] ->
  exists response vectors,
    POST env (FormData (Some file))
    = Some (response, [EmbedContentCall noPdfText; UpsertCall vectors])
    /\ List.map (fun v => content (metadata v)) vectors = [noPdfText]
    /\ forall written,
         indexUpsert env vectors = Returned written ->
         response
         = {| status := 200;
              body := Success (lit "Document uploaded and processed successfully")
                        (name file) 1 1 130 |}.
Proof.
  intros Hs Ha Hp Hm.
  assert (Hx : extractTextFromFile file = Returned noPdfText).
  { unfold extractTextFromFile. now rewrite Hp, Hm. }
  assert (Hsp : Upload.splitDefault noPdfText = Some [noPdfText])
    by (vm_compute; reflexivity).
  pose proof (@legacy_run env file noPdfText [noPdfText]
                ltac:(apply Z.ltb_ge; lia) Ha Hx eq_refl eq_refl Hsp eq_refl) as Hrun.
  cbv zeta in Hrun. change (firstn 50 [noPdfText]) with [noPdfText] in Hrun.
  rewrite Hrun.
  set (vectors := Upload.mapi _ 0 [noPdfText]).
  destruct (indexUpsert env vectors) as [u|e] eqn:Eu; eexists; exists vectors;
    (split; [reflexivity|]); (split; [reflexivity|]); intros written Hw;
    [reflexivity|congruence].
Qed.

(** The run on a file that is called a PDF and holds no parenthesis. *)
Lemma pdf_without_text_stores_the_notice_witness :
  exists response vectors,
    POST (legacyEnv (fun _ _ => EmbedThrows None))
         (FormData (Some (legacyFile "scan.pdf" "application/pdf" (lit "%PDF-1.4 binary"))))
    = Some (response, [EmbedContentCall noPdfText; UpsertCall vectors])
    /\ List.map (fun v => content (metadata v)) vectors = [noPdfText]
    /\ forall written,
         indexUpsert (legacyEnv (fun _ _ => EmbedThrows None)) vectors = Returned written ->
         response
         = {| status := 200;
              body := Success (lit "Document uploaded and processed successfully")
                        (name (legacyFile "scan.pdf" "application/pdf" (lit "%PDF-1.4 binary")))
                        1 1 130 |}.
Proof.
  apply pdf_without_text_stores_the_notice; try reflexivity. simpl. lia.
Defined.

(** X23. The ids written by this handler carry no time stamp: two runs on
    the same request, in whatever environments, write records with the
    same ids and the same contents. *)
Theorem legacy_ids_repeat
    (env1 env2 : Env) (request : Request)
    (response1 response2 : Response) (trace1 trace2 : list Event)
    (vectors1 vectors2 : list VectorRecord) :
  POST env1 request = Some (response1, trace1) ->
  POST env2 request = Some (response2, trace2) ->
  In (UpsertCall vectors1) trace1 ->
  In (UpsertCall vectors2) trace2 ->
  List.map id vectors1 = List.map id vectors2
  /\ List.map (fun v => content (metadata v)) vectors1
     = List.map (fun v => content (metadata v)) vectors2.
Proof.
  intros H1 H2 Hin1 Hin2.
  assert (R1 : (exists vectors, In (UpsertCall vectors) trace1)
               \/ (exists m d n v l, body response1 = Success m d n v l))
    by (left; now exists vectors1).
  assert (R2 : (exists vectors, In (UpsertCall vectors) trace2)
               \/ (exists m d n v l, body response2 = Success m d n v l))
    by (left; now exists vectors2).
  destruct (legacy_written _ _ H1 R1)
    as [file [text [chunks [Hr [Hx [_ [Hsp [_ Hrun1]]]]]]]].
  destruct (legacy_written _ _ H2 R2)
    as [file' [text' [chunks' [Hr' [Hx' [_ [Hsp' [_ Hrun2]]]]]]]].
  rewrite Hr in Hr'. injection Hr' as <-.
  rewrite Hx in Hx'. injection Hx' as <-.
  rewrite Hsp in Hsp'. injection Hsp' as <-.
  rewrite H1 in Hrun1. rewrite H2 in Hrun2. cbv zeta in Hrun1, Hrun2.
  assert (E1 : trace1 = List.map EmbedContentCall (firstn 50 chunks)
                 ++ [UpsertCall (Upload.mapi
                       (makeVector env1 file
                          (DOT :: Upload.toLowerCase (Upload.lastSegment (name file) []))
                          (firstn 50 chunks)
                          (fst (generateEmbeddings env1 (firstn 50 chunks))))
                       0 (firstn 50 chunks))])
    by (destruct (indexUpsert env1 _); now injection Hrun1).
  assert (E2 : trace2 = List.map EmbedContentCall (firstn 50 chunks)
                 ++ [UpsertCall (Upload.mapi
                       (makeVector env2 file
                          (DOT :: Upload.toLowerCase (Upload.lastSegment (name file) []))
                          (firstn 50 chunks)
                          (fst (generateEmbeddings env2 (firstn 50 chunks))))
                       0 (firstn 50 chunks))])
    by (destruct (indexUpsert env2 _); now injection Hrun2).
  rewrite E1 in Hin1. rewrite E2 in Hin2.
  apply upsert_in_trace in Hin1. apply upsert_in_trace in Hin2. subst vectors1 vectors2.
  now rewrite !legacy_ids, !legacy_contents.
Qed.

(** Two runs on one text file, with the clock and the embedding model
    differing. *)
Lemma legacy_ids_repeat_witness :
  exists response1 trace1 response2 trace2 vectors1 vectors2,
    POST (legacyEnv (fun _ _ => EmbedThrows None))
         (FormData (Some (legacyFile "a.txt" "text/plain" (repeat 97%N 805))))
    = Some (response1, trace1)
    /\ POST (legacyEnv (fun _ _ => EmbedMissing))
            (FormData (Some (legacyFile "a.txt" "text/plain" (repeat 97%N 805))))
       = Some (response2, trace2)
    /\ In (UpsertCall vectors1) trace1
    /\ In (UpsertCall vectors2) trace2
    /\ List.map id vectors1 = [lit "a.txt_chunk_0"; lit "a.txt_chunk_1"]
    /\ List.map id vectors1 = List.map id vectors2
    /\ List.map (fun v => content (metadata v)) vectors1
       = List.map (fun v => content (metadata v)) vectors2.
Proof.
  do 6 eexists. split; [vm_compute; reflexivity|]. split; [vm_compute; reflexivity|].
  split; [right; right; left; reflexivity|].
  split; [right; right; left; reflexivity|].
  split; [reflexivity|].
  eapply (@legacy_ids_repeat (legacyEnv (fun _ _ => EmbedThrows None))
            (legacyEnv (fun _ _ => EmbedMissing))
            (FormData (Some (legacyFile "a.txt" "text/plain" (repeat 97%N 805))))).
  - vm_compute; reflexivity.
  - vm_compute; reflexivity.
  - right; right; left; reflexivity.
  - right; right; left; reflexivity.
Defined.

(** X24. In a successful answer of this handler [chunksCreated] and
    [vectorsUploaded] are the number of chunks of the splitter, capped
    at 50, and at least 1.  There is no check of the chunks: each of
    them is sent to the embedding model, in order, and then all are
    written in one call. *)
Theorem legacy_success_counts
    (env : Env) (request : Request) (response : Response) (trace : list Event)
    (message documentId : jsstring)
    (chunksCreated vectorsUploaded extractedTextLength : nat) :
  POST env request = Some (response, trace) ->
  body response =
    Success message documentId chunksCreated vectorsUploaded extractedTextLength ->
  exists file text chunks vectors,
    request = FormData (Some file)
    /\ extractTextFromFile file = Returned text
    /\ Upload.splitDefault text = Some chunks
    /\ chunksCreated = Nat.min (List.length chunks) 50
    /\ vectorsUploaded = chunksCreated
    /\ 1 <= chunksCreated
    /\ extractedTextLength = List.length text
    /\ 50 <= extractedTextLength
    /\ trace = List.map EmbedContentCall (firstn 50 chunks) ++ [UpsertCall vectors]
    /\ List.map (fun v => content (metadata v)) vectors = firstn 50 chunks.
Proof.
  intros H Hb.
  assert (R : (exists vectors, In (UpsertCall vectors) trace)
              \/ (exists m d n v l, body response = Success m d n v l))
    by (right; do 5 eexists; exact Hb).
  destruct (legacy_written _ _ H R)
    as [file [text [chunks [Hr [Hx [Hl [Hsp [Hne Hrun]]]]]]]].
  rewrite H in Hrun. cbv zeta in Hrun.
  assert (Hlen : List.length (firstn 50 chunks) = Nat.min (List.length chunks) 50)
    by (rewrite length_firstn; apply Nat.min_comm).
  remember (firstn 50 chunks) as limited eqn:Elim.
  set (vectors := Upload.mapi _ 0 limited) in Hrun.
  exists file, text, chunks, vectors. rewrite <- Elim.
  destruct (indexUpsert env vectors); injection Hrun as -> ->; [|discriminate Hb].
  cbn [body json] in Hb. injection Hb as _ _ <- <- <-.
  repeat split; try assumption; try reflexivity.
  - rewrite Hlen.
    assert (0 < List.length chunks)
      by (clear -Hne; destruct chunks; [congruence|simpl; lia]).
    lia.
  - apply legacy_contents.
Qed.

Lemma legacy_success_counts_witness :
  exists response trace file text chunks vectors,
    POST (legacyEnv (fun _ _ => EmbedThrows None))
         (FormData (Some (legacyFile "a.txt" "text/plain" (repeat 97%N 805))))
    = Some (response, trace)
    /\ FormData (Some (legacyFile "a.txt" "text/plain" (repeat 97%N 805)))
       = FormData (Some file)
    /\ extractTextFromFile file = Returned text
    /\ Upload.splitDefault text = Some chunks
    /\ 2 = Nat.min (List.length chunks) 50
    /\ 2 = 2
    /\ 1 <= 2
    /\ 805 = List.length text
    /\ 50 <= 805
    /\ trace = List.map EmbedContentCall (firstn 50 chunks) ++ [UpsertCall vectors]
    /\ List.map (fun v => content (metadata v)) vectors = firstn 50 chunks.
Proof.
  do 2 eexists.
  destruct (@legacy_success_counts (legacyEnv (fun _ _ => EmbedThrows None))
              (FormData (Some (legacyFile "a.txt" "text/plain" (repeat 97%N 805))))
              _ _ _ _ 2 2 805
              ltac:(vm_compute; reflexivity) eq_refl)
    as [file [text [chunks [vectors H]]]].
  exists file, text, chunks, vectors. split; [vm_compute; reflexivity|]. exact H.
Defined.

End LegacyHandlerAnswers.
